(** * Accessibility checks: the dispatcher, the markup evaluator, the batch tool

    A shallow embedding of [src/core/hybrid-analyzer.js] (the dispatcher
    [analyzeFileHybrid] and the templating delegate [analyzeFileWithESLint]),
    of [src/core/html-analyzer.js] (the markup evaluator [analyzeHTML]) and of
    the batch tool of [src/mcp-server.js] ([handleCheckAccessibilityBatch]).

    JavaScript strings are modelled as [string]s whose characters stand for
    the code units below 256; numbers that index text or count lines are
    integers of [Z].  Third-party code (htmlparser2, ESLint) and the analyzers
    whose sources are not available (css-analyzer.js, js-analyzer.js) are
    parameters of the embedding. *)

From Stdlib Require Import List String Ascii ZArith Lia Bool Arith.
From Stdlib Require DecimalString.
Import ListNotations.

Local Open Scope string_scope.
Local Open Scope Z_scope.

Set Implicit Arguments.
Set Warnings "-register-all".

(** ** JavaScript strings *)

Module JsString.

Definition dq : ascii := "034"%char.
Definition sq : ascii := "039"%char.
Definition nl : ascii := "010"%char.
Definition chr (c : ascii) : string := String c EmptyString.

Definition code (c : ascii) : N := N_of_ascii c.

Definition in_range (lo hi : N) (c : ascii) : bool :=
  (N.leb lo (code c) && N.leb (code c) hi)%bool.

Definition is_upper (c : ascii) : bool := in_range 65 90 c.
Definition is_lower (c : ascii) : bool := in_range 97 122 c.
Definition is_digit (c : ascii) : bool := in_range 48 57 c.

(** [\s]: the white space and line terminator code units below 256. *)
Definition is_space (c : ascii) : bool :=
  (in_range 9 13 c || N.eqb (code c) 32 || N.eqb (code c) 160)%bool.

(** [\w] *)
Definition is_word (c : ascii) : bool :=
  (is_upper c || is_lower c || is_digit c || N.eqb (code c) 95)%bool.

(** Line terminators, which [.] does not match without the [s] flag. *)
Definition is_line_terminator (c : ascii) : bool :=
  (N.eqb (code c) 10 || N.eqb (code c) 13)%bool.

(** [toLowerCase] on one code unit: A-Z and the Latin-1 capitals. *)
Definition lower_char (c : ascii) : ascii :=
  if (is_upper c || (in_range 192 222 c && negb (N.eqb (code c) 215)))%bool
  then ascii_of_N (code c + 32) else c.

Fixpoint toLowerCase (s : string) : string :=
  match s with
  | EmptyString => EmptyString
  | String c s' => String (lower_char c) (toLowerCase s')
  end.

Definition len (s : string) : Z := Z.of_nat (String.length s).

Fixpoint rev_acc (s acc : string) : string :=
  match s with
  | EmptyString => acc
  | String c s' => rev_acc s' (String c acc)
  end.
Definition rev (s : string) : string := rev_acc s EmptyString.

Fixpoint trimStart (s : string) : string :=
  match s with
  | String c s' => if is_space c then trimStart s' else s
  | EmptyString => EmptyString
  end.
Definition trim (s : string) : string := rev (trimStart (rev (trimStart s))).

Fixpoint startsWith (p s : string) : bool :=
  match p, s with
  | EmptyString, _ => true
  | String a p', String b s' => (Ascii.eqb a b && startsWith p' s')%bool
  | String _ _, EmptyString => false
  end.

Fixpoint drop (n : nat) (s : string) : string :=
  match n, s with
  | O, _ => s
  | S n', String _ s' => drop n' s'
  | S _, EmptyString => EmptyString
  end.

Fixpoint take (n : nat) (s : string) : string :=
  match n, s with
  | O, _ => EmptyString
  | S n', String c s' => String c (take n' s')
  | S _, EmptyString => EmptyString
  end.

(** First index [>= i] at which [p] occurs in the text whose remainder from
    [i] is [s]; [-1] when there is none. *)
Fixpoint indexOf_at (p s : string) (i : Z) : Z :=
  if startsWith p s then i
  else match s with
       | EmptyString => -1
       | String _ s' => indexOf_at p s' (i + 1)
       end.

(** [s.indexOf(p, from)]; the position is clamped to [0 .. s.length]. *)
Definition indexOf (s p : string) (from : Z) : Z :=
  let f := Z.to_nat (Z.min (Z.max from 0) (len s)) in
  indexOf_at p (drop f s) (Z.of_nat f).

Definition includes (s p : string) : bool := negb (indexOf s p 0 =? -1).

(** [s.split(c)] for a one-character separator. *)
Fixpoint split_acc (sep : ascii) (s cur : string) : list string :=
  match s with
  | EmptyString => [rev cur]
  | String c s' =>
      if Ascii.eqb c sep then rev cur :: split_acc sep s' EmptyString
      else split_acc sep s' (String c cur)
  end.
Definition split (sep : ascii) (s : string) : list string :=
  split_acc sep s EmptyString.

Fixpoint join (sep : string) (l : list string) : string :=
  match l with
  | [] => EmptyString
  | [x] => x
  | x :: l' => x ++ sep ++ join sep l'
  end.

(** JavaScript truthiness of a string value: the empty string is falsy. *)
Definition truthy (s : string) : bool :=
  match s with EmptyString => false | _ => true end.

(** Truthiness of [o.key] where the property may be missing ([undefined]). *)
Definition truthy_opt (o : option string) : bool :=
  match o with Some s => truthy s | None => false end.

Definition defined (o : option string) : bool :=
  match o with Some _ => true | None => false end.

(** [o.key === lit] *)
Definition is_str (o : option string) (lit : string) : bool :=
  match o with Some s => String.eqb s lit | None => false end.

Definition digit_val (radix : Z) (c : ascii) : option Z :=
  let n := Z.of_N (code c) in
  let v := if is_digit c then Some (n - 48)
           else if is_lower c then Some (n - 87)
           else if is_upper c then Some (n - 55)
           else None in
  match v with
  | Some d => if d <? radix then Some d else None
  | None => None
  end.

Fixpoint parse_digits (radix : Z) (s : string) (acc : option Z) : option Z :=
  match s with
  | EmptyString => acc
  | String c s' =>
      match digit_val radix c with
      | Some d =>
          parse_digits radix s'
            (Some (match acc with Some a => a * radix + d | None => d end))
      | None => acc
      end
  end.

(** [parseInt(s)]: leading white space, a sign, an optional [0x] prefix,
    then the longest run of digits; [None] stands for [NaN]. *)
Definition parseInt (s : string) : option Z :=
  let s := trimStart s in
  let '(sign, s) :=
    match s with
    | String c s' =>
        if Ascii.eqb c "-" then (-1, s')
        else if Ascii.eqb c "+" then (1, s') else (1, s)
    | EmptyString => (1, s)
    end in
  let '(radix, s) :=
    if (startsWith "0x" s || startsWith "0X" s)%bool
    then (16, drop 2 s) else (10, s) in
  option_map (Z.mul sign) (parse_digits radix s None).

End JsString.

(** ** Regular expressions

    The regular-expression literals of the sources, as abstract syntax with a
    backtracking matcher that follows the priorities of the JavaScript
    matcher: alternatives left to right, greedy quantifiers longest first,
    lazy quantifiers shortest first, an iteration of [*] that consumes nothing
    is rejected.  The [i] flag is applied when the literal is built. *)

Module Regex.
Import JsString.

Inductive regex : Type :=
| Eps
| Chr (p : ascii -> bool)
| Cat (r1 r2 : regex)
| Alt (r1 r2 : regex)
| Star (greedy : bool) (r : regex)
| Group (n : nat) (r : regex)
| AssertStart
| AssertEnd
| WordBoundary.

(** The matcher's position: the character before the cursor (for [^] and
    [\b]), the text after it, and the captures made so far. *)
Record mstate : Type := MState {
  prev : option ascii;
  rest : string;
  caps : list (nat * string)
}.

Definition orelse {A} (a b : option A) : option A :=
  match a with Some _ => a | None => b end.

Definition word_opt (o : option ascii) : bool :=
  match o with Some c => is_word c | None => false end.

Definition head (s : string) : option ascii :=
  match s with String c _ => Some c | EmptyString => None end.

Definition consumed (before after : string) : string :=
  take (String.length before - String.length after) before.

(** The iterations of a star.  [step] matches the body once; an iteration
    must shorten the text that is left, so [fuel], the length of that text,
    bounds their number. *)
Fixpoint star_loop
  (step : mstate -> (mstate -> option mstate) -> option mstate)
  (greedy : bool) (k : mstate -> option mstate) (fuel : nat) (st : mstate)
  : option mstate :=
  match fuel with
  | O => k st
  | S fuel' =>
      let again :=
        step st (fun st' =>
          if (String.length (rest st') <? String.length (rest st))%nat
          then star_loop step greedy k fuel' st' else None) in
      if greedy then orelse again (k st) else orelse (k st) again
  end.

Fixpoint m (r : regex) (st : mstate) (k : mstate -> option mstate)
  : option mstate :=
  match r with
  | Eps => k st
  | Chr p =>
      match rest st with
      | String c s' =>
          if p c then k (MState (Some c) s' (caps st)) else None
      | EmptyString => None
      end
  | Cat r1 r2 => m r1 st (fun st' => m r2 st' k)
  | Alt r1 r2 => orelse (m r1 st k) (m r2 st k)
  | Star greedy r1 =>
      star_loop (m r1) greedy k (String.length (rest st)) st
  | Group n r1 =>
      m r1 st (fun st' =>
        k (MState (prev st') (rest st')
             ((n, consumed (rest st) (rest st')) :: caps st')))
  | AssertStart =>
      match prev st with None => k st | Some _ => None end
  | AssertEnd =>
      match rest st with EmptyString => k st | String _ _ => None end
  | WordBoundary =>
      if xorb (word_opt (prev st)) (word_opt (head (rest st)))
      then k st else None
  end.

(** A match attempt at one position. *)
Definition match_here (r : regex) (p : option ascii) (s : string)
  : option mstate :=
  m r (MState p s []) (fun st => Some st).

(** The leftmost match at or after the cursor: its start index and the
    matcher's final position. *)
Fixpoint search (r : regex) (p : option ascii) (s : string) (i : Z)
  : option (Z * mstate) :=
  match match_here r p s with
  | Some st => Some (i, st)
  | None =>
      match s with
      | EmptyString => None
      | String c s' => search r (Some c) s' (i + 1)
      end
  end.

(** [re.test(s)] for a literal without the [g] flag. *)
Definition test (r : regex) (s : string) : bool :=
  match search r None s 0 with Some _ => true | None => false end.

Record found : Type := Found {
  index : Z;         (* [match.index] *)
  matched : string;  (* [match[0]] *)
  groups : list (nat * string)
}.

Definition group (n : nat) (f : found) : option string :=
  option_map snd (find (fun c => Nat.eqb (fst c) n) (groups f)).

Definition found_at (i : Z) (s : string) (st : mstate) : found :=
  Found i (consumed s (rest st)) (caps st).

(** [s.match(re)] / [re.exec(s)] for a literal without the [g] flag. *)
Definition exec (r : regex) (s : string) : option found :=
  match search r None s 0 with
  | Some (i, st) => Some (found_at i (drop (Z.to_nat i) s) st)
  | None => None
  end.

(** Every match of a [g] literal, as the loop
    [while ((x = re.exec(s)) !== null)] sees them: the next search starts
    where the previous match ended.  The literals of the sources never
    match the empty string, so the text that is left shrinks with every
    match; [fuel] bounds the number of matches by the length of the text. *)
Fixpoint exec_all_from (fuel : nat) (r : regex) (p : option ascii)
  (s : string) (i : Z) : list found :=
  match fuel with
  | O => []
  | S fuel' =>
      match search r p s i with
      | None => []
      | Some (j, st) =>
          let here := drop (Z.to_nat (j - i)) s in
          let f := found_at j here st in
          f :: exec_all_from fuel' r (prev st) (rest st)
                 (j + len (matched f))
      end
  end.

Definition exec_all (r : regex) (s : string) : list found :=
  exec_all_from (S (String.length s)) r None s 0.

(** *** Building literals *)

(** Any character: [.] under the [s] flag. *)
Definition any : regex := Chr (fun _ => true).
Definition dot : regex := Chr (fun c => negb (is_line_terminator c)).
Definition space : regex := Chr is_space.
Definition upper : regex := Chr is_upper.
(** A single or a double quote. *)
Definition quote : regex :=
  Chr (fun c => (Ascii.eqb c dq || Ascii.eqb c sq)%bool).
(** Any character but [a]. *)
Definition not_char (a : ascii) : regex :=
  Chr (fun c => negb (Ascii.eqb c a)).
(** Any character but a quote. *)
Definition not_quote : regex :=
  Chr (fun c => negb (Ascii.eqb c dq || Ascii.eqb c sq)%bool).
Definition char (a : ascii) : regex := Chr (Ascii.eqb a).
(** A letter under the [i] flag: both cases match. *)
Definition char_i (a : ascii) : regex :=
  Chr (fun c => Ascii.eqb (lower_char c) (lower_char a)).

Fixpoint lit (s : string) : regex :=
  match s with
  | EmptyString => Eps
  | String c s' => Cat (char c) (lit s')
  end.
Fixpoint lit_i (s : string) : regex :=
  match s with
  | EmptyString => Eps
  | String c s' => Cat (char_i c) (lit_i s')
  end.

(** The greedy and the lazy star, one or more, and the option. *)
Definition star (r : regex) : regex := Star true r.
Definition lazy_star (r : regex) : regex := Star false r.
Definition plus (r : regex) : regex := Cat r (Star true r).
Definition opt (r : regex) : regex := Alt r Eps.
Fixpoint seq (l : list regex) : regex :=
  match l with
  | [] => Eps
  | r :: l' => Cat r (seq l')
  end.

End Regex.

(** ** Outcomes of JavaScript calls: a value is returned or an exception is
    thrown.  [Thrown e] stands for an [Error] object whose [message] is [e]:
    the message is all that the [catch] blocks of the program read of it. *)

Inductive outcome (A : Type) : Type :=
| Returned (a : A)
| Thrown (e : string).
Arguments Thrown {A} e.

Definition bind {A B} (x : outcome A) (f : A -> outcome B) : outcome B :=
  match x with
  | Returned a => f a
  | Thrown e => Thrown e
  end.

Notation "x <- c ;; k" := (bind c (fun x => k))
  (at level 61, c at next level, right associativity).

(** A call that may also write diagnostics to [console.error]. *)
Record logged (A : Type) : Type := Logged {
  diagnostics : list string;
  result : outcome A
}.

(** ** JavaScript objects used as lookup tables

    A table written as an object literal inherits the properties of
    [Object.prototype]: looking up one of those names yields a function (or,
    for [__proto__], the prototype object), not [undefined]. *)

Module JsObject.

Definition objectPrototypeKeys : list string :=
  ["constructor"; "__defineGetter__"; "__defineSetter__"; "hasOwnProperty";
   "__lookupGetter__"; "__lookupSetter__"; "isPrototypeOf";
   "propertyIsEnumerable"; "toString"; "valueOf"; "__proto__";
   "toLocaleString"].

Inductive property (A : Type) : Type :=
| Own (a : A)
| Inherited
| Undefined.
Arguments Inherited {A}.
Arguments Undefined {A}.

Definition lookup {A} (table : list (string * A)) (key : string)
  : option A :=
  option_map snd (find (fun kv => String.eqb (fst kv) key) table).

Definition get {A} (table : list (string * A)) (key : string)
  : property A :=
  match lookup table key with
  | Some a => Own a
  | None =>
      if existsb (String.eqb key) objectPrototypeKeys
      then Inherited else Undefined
  end.

End JsObject.

(** ** The tree that htmlparser2's [DomHandler] builds *)

Module Dom.

(** The [type] of an element: [<script>] and [<style>] elements have types
    of their own. *)
Inductive elem_type : Type := Tag | Script | Style.

Definition attrs : Type := list (string * string).

Inductive node : Type :=
| Element (type : elem_type) (name : string) (attribs : attrs)
    (children : list node)
| CData (children : list node)
| Text (data : string)
| Comment (data : string)
| Directive (name data : string).

(** [attribs.key]; [None] is [undefined]. *)
Definition attr (a : attrs) (key : string) : option string :=
  JsObject.lookup a key.

Definition is_tag (t : elem_type) : bool :=
  match t with Tag => true | _ => false end.

Section NodeInduction.
Variable P : node -> Prop.
Hypothesis HElement : forall t name a cs,
    Forall P cs -> P (Element t name a cs).
Hypothesis HCData : forall cs, Forall P cs -> P (CData cs).
Hypothesis HText : forall d, P (Text d).
Hypothesis HComment : forall d, P (Comment d).
Hypothesis HDirective : forall n d, P (Directive n d).

Fixpoint node_rect' (n : node) : P n :=
  let fix all (l : list node) : Forall P l :=
    match l with
    | [] => Forall_nil P
    | c :: l' => Forall_cons c (node_rect' c) (all l')
    end in
  match n with
  | Element t name a cs => HElement t name a (all cs)
  | CData cs => HCData (all cs)
  | Text d => HText d
  | Comment d => HComment d
  | Directive n d => HDirective n d
  end.

End NodeInduction.

(** What the parser hands to the handler's callback. *)
Inductive parsed : Type :=
| ParseError (e : string)
| Document (dom : list node).

End Dom.

(** ** The markup evaluator: [src/core/html-analyzer.js] *)

Module Html.
Import JsString Regex JsObject Dom.

(** The string literals of the tables below write the double quote as a
    backquote; [qq] puts the double quote back. *)
Fixpoint qq (s : string) : string :=
  match s with
  | EmptyString => EmptyString
  | String c s' => String (if Ascii.eqb c "`" then dq else c) (qq s')
  end.

Definition q : string := chr dq.

Definition violationToWCAG_entries : list (string * list string) :=
  [("img-missing-alt", ["1.1.1"]);
   ("img-empty-alt-not-decorative", ["1.1.1"]);
   ("img-redundant-alt", ["1.1.1"]);
   ("form-input-missing-label", ["3.3.2"; "4.1.2"]);
   ("button-empty", ["4.1.2"]);
   ("link-empty", ["2.4.4"]);
   ("link-non-descriptive", ["2.4.4"]);
   ("link-new-window-no-warning", ["3.2.5"]);
   ("iframe-missing-title", ["4.1.2"]);
   ("div-as-button", ["4.1.2"]);
   ("click-without-keyboard", ["2.1.1"]);
   ("positive-tabindex", ["2.4.3"]);
   ("missing-lang", ["3.1.1"]);
   ("missing-lang-foreign", ["3.1.2"]);
   ("heading-empty", ["2.4.6"]);
   ("heading-hierarchy", ["2.4.6"]);
   ("table-missing-headers", ["1.3.1"]);
   ("autoplay-media", ["1.4.2"; "2.2.2"]);
   ("media-no-captions", ["1.2.2"; "1.2.3"]);
   ("redundant-role", ["4.1.2"]);
   ("invalid-aria-role", ["4.1.2"]);
   ("missing-aria-required", ["4.1.2"]);
   ("focus-outline-removed", ["2.4.7"]);
   ("title-empty", ["2.4.2"]);
   ("duplicate-id", ["4.1.1"]);
   ("marquee-element", ["2.2.2"]);
   ("missing-main-landmark", ["1.3.1"]);
   ("placeholder-as-label", ["3.3.2"]);
   ("missing-autocomplete", ["1.3.5"]);
   ("non-semantic-navigation", ["1.3.1"]);
   ("radio-missing-fieldset", ["1.3.1"; "3.3.2"]);
   ("required-not-indicated", ["3.3.2"])].

(** [violationToWCAG[rule]] *)
Definition violationToWCAG (rule : string) : option (list string) :=
  lookup violationToWCAG_entries rule.

Definition fixSuggestions_entries : list (string * list string) :=
  [("img-missing-alt",
    ["Add alt attribute: <img src=`logo.png` alt=`Company logo`>";
     "For decorative images: <img src=`decoration.png` alt=``>";
     "Describe the image content, not just `image of...`"]);
   ("img-empty-alt-not-decorative",
    ["If image is informative, add meaningful alt text";
     "If image is decorative, use alt=`` and role=`presentation`"]);
   ("img-redundant-alt",
    ["Remove words like `image`, `picture`, `photo` from alt text";
     "Focus on describing the content/purpose"]);
   ("form-input-missing-label",
    ["<label for=`username`>Username</label><input id=`username` type=`text`>";
     "Or use aria-label: <input type=`text` aria-label=`Username`>";
     "Or aria-labelledby: <span id=`label`>Username</span><input aria-labelledby=`label`>"]);
   ("button-empty",
    ["Add text content: <button>Click me</button>";
     "Or aria-label: <button aria-label=`Close dialog`>×</button>"]);
   ("link-empty",
    ["Add link text: <a href=`/page`>Read more</a>";
     "Or aria-label: <a href=`/page` aria-label=`Read more about accessibility`>→</a>"]);
   ("iframe-missing-title",
    ["Add title attribute: <iframe src=`...` title=`Embedded video player`></iframe>";
     "Title should describe the iframe content"]);
   ("div-as-button",
    ["Use <button> element: <button onclick=`handler()`>Click me</button>";
     "Or add proper ARIA: <div role=`button` tabindex=`0` onkeydown=`keyHandler()`>"]);
   ("click-without-keyboard",
    ["Add keyboard support: <div onclick=`handler()` onkeydown=`keyHandler()` tabindex=`0`>";
     "Or use semantic element: <button onclick=`handler()`>"]);
   ("positive-tabindex",
    ["Remove positive tabindex values";
     "Use tabindex=`0` for custom interactive elements";
     "Let natural tab order work for native elements"]);
   ("missing-lang",
    ["Add lang attribute to <html>: <html lang=`en`>";
     "Use appropriate language code"]);
   ("heading-empty",
    ["Add text content: <h1>Page Title</h1>";
     "Or aria-label: <h1 aria-label=`Section title`><span class=`icon`></span></h1>"]);
   ("table-missing-headers",
    ["Use <thead> and <th>: <thead><tr><th>Name</th><th>Age</th></tr></thead>";
     "Add scope: <th scope=`col`>Name</th>"]);
   ("autoplay-media",
    ["Remove autoplay: <video src=`...` controls></video>";
     "Or add muted for background: <video autoplay muted loop></video>"]);
   ("redundant-role",
    ["Remove redundant role that matches implicit semantics";
     "Example: <button role=`button`> should be just <button>"]);
   ("invalid-aria-role",
    ["Use valid ARIA role from specification";
     "Check: https://www.w3.org/TR/wai-aria/#role_definitions"]);
   ("missing-aria-required",
    ["Add required ARIA properties for this role";
     "Example: role=`checkbox` requires aria-checked"]);
   ("focus-outline-removed",
    ["Do not remove focus outlines globally";
     "Provide custom visible focus styles if removing default"]);
   ("title-empty",
    ["Add descriptive title: <title>Page Name - Site Name</title>";
     "Title should describe the page content"]);
   ("duplicate-id",
    ["Ensure all id attributes are unique";
     "Duplicate IDs break ARIA relationships and form labels"]);
   ("marquee-element",
    ["Do not use <marquee> or <blink> elements";
     "Use CSS animations with prefers-reduced-motion support"]);
   ("media-no-captions",
    ["Add <track> element for captions: <video><track kind=`captions` src=`captions.vtt`></video>";
     "Or provide transcript link below media"]);
   ("link-new-window-no-warning",
    ["Add warning text: <a href=`...` target=`_blank`>Link (opens in new window)</a>";
     "Or use aria-label: <a href=`...` target=`_blank` aria-label=`Link, opens in new window`>"]);
   ("missing-main-landmark",
    ["Add <main> element to wrap primary content";
     "There should be exactly one <main> per page"]);
   ("placeholder-as-label",
    ["Add proper label: <label for=`name`>Name</label><input id=`name` placeholder=`e.g. John`>";
     "Placeholders disappear on focus and are not read by all screen readers"]);
   ("missing-autocomplete",
    ["Add autocomplete: <input type=`text` name=`name` autocomplete=`name`>";
     "For email: autocomplete=`email`, for credit card: autocomplete=`cc-number`"]);
   ("non-semantic-navigation",
    ["Use <nav> element: <nav><a href=`home.html`>Home</a></nav>";
     "Semantic elements improve accessibility"]);
   ("radio-missing-fieldset",
    ["<fieldset><legend>Choose option</legend><input type=`radio`>...</fieldset>";
     "Group related radio buttons with fieldset and legend"]);
   ("required-not-indicated",
    ["Add visual indicator: <label>Email <span aria-hidden=`true`>*</span><span class=`sr-only`>required</span></label>";
     "Or use aria-required: <input type=`email` aria-required=`true`>"]);
   ("link-non-descriptive",
    ["Use descriptive text instead of `click here` or `read more`";
     "Example: `Read our accessibility guide` instead of `Click here`"]);
   ("missing-lang-foreign",
    ["Add lang attribute to foreign language text: <p lang=`fr`>Bonjour</p>";
     "Screen readers use lang to pronounce text correctly"]);
   ("heading-hierarchy",
    ["Follow heading hierarchy: h1 -> h2 -> h3 (do not skip levels)";
     "Headings should not jump from h1 to h3"])].

(** [fixSuggestions[rule]] *)
Definition fixSuggestions (rule : string) : option (list string) :=
  option_map (map qq) (lookup fixSuggestions_entries rule).

Definition validAriaRoles : list string :=
  ["alert"; "alertdialog"; "application"; "article"; "banner"; "button";
   "cell"; "checkbox"; "columnheader"; "combobox"; "complementary";
   "contentinfo"; "definition"; "dialog"; "directory"; "document";
   "feed"; "figure"; "form"; "grid"; "gridcell"; "group"; "heading";
   "img"; "link"; "list"; "listbox"; "listitem"; "log"; "main";
   "marquee"; "math"; "menu"; "menubar"; "menuitem"; "menuitemcheckbox";
   "menuitemradio"; "navigation"; "none"; "note"; "option";
   "presentation"; "progressbar"; "radio"; "radiogroup"; "region";
   "row"; "rowgroup"; "rowheader"; "scrollbar"; "search"; "searchbox";
   "separator"; "slider"; "spinbutton"; "status"; "switch"; "tab";
   "table"; "tablist"; "tabpanel"; "term"; "textbox"; "timer";
   "toolbar"; "tooltip"; "tree"; "treegrid"; "treeitem"].

Definition roleRequiredAria : list (string * list string) :=
  [("checkbox", ["aria-checked"]);
   ("combobox", ["aria-expanded"; "aria-controls"]);
   ("radio", ["aria-checked"]);
   ("scrollbar",
    ["aria-controls";
     "aria-valuenow";
     "aria-valuemin";
     "aria-valuemax"]);
   ("slider", ["aria-valuenow"; "aria-valuemin"; "aria-valuemax"]);
   ("spinbutton", ["aria-valuenow"]);
   ("switch", ["aria-checked"]);
   ("tab", ["aria-selected"]);
   ("progressbar", ["aria-valuenow"])].

Definition implicitRoles : list (string * string) :=
  [("button", "button");
   ("a", "link");
   ("nav", "navigation");
   ("main", "main");
   ("header", "banner");
   ("footer", "contentinfo");
   ("aside", "complementary");
   ("section", "region");
   ("article", "article");
   ("form", "form");
   ("table", "table");
   ("ul", "list");
   ("ol", "list");
   ("li", "listitem");
   ("h1", "heading");
   ("h2", "heading");
   ("h3", "heading");
   ("h4", "heading");
   ("h5", "heading");
   ("h6", "heading");
   ("img", "img");
   ("input[type=" ++ q ++ "checkbox" ++ q ++ "]", "checkbox");
   ("input[type=" ++ q ++ "radio" ++ q ++ "]", "radio");
   ("select", "combobox");
   ("textarea", "textbox")].

(** A finding as the analyzer pushes it; [fix_] is the [fix] property. *)
Record violation : Type := Violation {
  ruleId : string;
  severity : string;
  line : Z;
  column : Z;
  message : string;
  wcag : option (list string);
  fix_ : option (list string)
}.

(** Every [violations.push] of the analyzer builds its object in the same
    way: column 1, and the two table entries of the rule. *)
Definition report (rule sev : string) (ln : Z) (msg : string) : violation :=
  Violation rule sev ln 1 msg (violationToWCAG rule) (fixSuggestions rule).

(** *** The regular-expression literals of the analyzer *)

Definition space_or_gt : regex :=
  Chr (fun c => (is_space c || Ascii.eqb c ">")%bool).

(** [/<html[^>]*\slang=/i] *)
Definition re_html_lang : regex :=
  seq [lit_i "<html"; star (not_char ">"); space; lit_i "lang="].

(** [/<title[^>]*>(.*?)<\/title>/is] *)
Definition re_title : regex :=
  seq [lit_i "<title"; star (not_char ">"); char ">";
       Group 1 (lazy_star any); lit_i "</title>"].

(** [/<main[\s>]/i] *)
Definition re_main : regex := seq [lit_i "<main"; space_or_gt].

(** [/role=[quote]main[quote]/i] *)
Definition re_role_main : regex :=
  seq [lit_i "role="; quote; lit_i "main"; quote].

(** [/<(marquee|blink)[\s>]/gi] *)
Definition re_marquee : regex :=
  seq [char "<"; Group 1 (Alt (lit_i "marquee") (lit_i "blink"));
       space_or_gt].

(** [/\b(image|picture|photo|graphic)\s+(of|depicting)\b/i] *)
Definition re_redundant_alt : regex :=
  seq [WordBoundary;
       Group 1 (Alt (lit_i "image") (Alt (lit_i "picture")
                  (Alt (lit_i "photo") (lit_i "graphic"))));
       plus space;
       Group 2 (Alt (lit_i "of") (lit_i "depicting"));
       WordBoundary].

(** [/^h[1-6]$/] *)
Definition re_heading : regex :=
  seq [AssertStart; char "h"; Chr (in_range 49 54); AssertEnd].

(** The literal of the fieldset test,
    [<fieldset[^>]*>[\s\S]*?<input[^>]*type=[quote]?radio[quote]?[^>]*name=[quote]?${name}[quote]?]
    with the [i] flag.  It is a regular-expression literal, not a template: the
    [$] is the end-of-input assertion and [{name}] are six literal
    characters. *)
Definition re_fieldset_radio : regex :=
  seq [lit_i "<fieldset"; star (not_char ">"); char ">"; lazy_star any;
       lit_i "<input"; star (not_char ">"); lit_i "type="; opt quote;
       lit_i "radio"; opt quote; star (not_char ">"); lit_i "name=";
       opt quote; AssertEnd; lit_i "{name}"; opt quote].

(** The navigation heuristic, with the flags [gi]: an opening [<div ...>],
    white space, then three or more links [<a ... href ...> text </a>], each
    followed by white space. *)
Definition re_nav_link : regex :=
  Group 1 (seq [lit_i "<a"; plus (not_char ">"); lit_i "href";
                star (not_char ">"); char ">"; star (not_char "<");
                lit_i "</a>"; star space]).
Definition re_nav_pattern : regex :=
  seq [lit_i "<div"; star (not_char ">"); char ">"; star space;
       re_nav_link; re_nav_link; re_nav_link; star re_nav_link].

(** [/<nav/i] *)
Definition re_nav : regex := lit_i "<nav".

(** [/style=[quote][^quotes]*outline:\s*none/gi] *)
Definition re_outline_none : regex :=
  seq [lit_i "style="; quote; star not_quote; lit_i "outline:";
       star space; lit_i "none"].

Section Analyzer.

(** The text under analysis. *)
Variable content : string.

Definition lines : list string := split nl content.

Fixpoint getLineNumber_from (ls : list string) (i currentIndex index : Z)
  : option Z :=
  match ls with
  | [] => None
  | l :: ls' =>
      let currentIndex := currentIndex + (len l + 1) in
      if currentIndex >=? index then Some (i + 1)
      else getLineNumber_from ls' (i + 1) currentIndex index
  end.

Definition getLineNumber (index : Z) : Z :=
  match getLineNumber_from lines 0 0 index with
  | Some n => n
  | None => Z.of_nat (List.length lines)
  end.

(** *** Checks on the raw text that run before the tree is walked *)

Definition check_lang : list violation :=
  if negb (test re_html_lang content)
  then [report "missing-lang" "error" 1
          "The <html> element must have a lang attribute"]
  else [].

Definition check_title : list violation :=
  let empty :=
    match exec re_title content with
    | None => true
    | Some f =>
        match group 1 f with
        | Some t => negb (truthy (trim t))
        | None => true
        end
    end in
  if empty
  then [report "title-empty" "error"
          (getLineNumber (indexOf content "<title" 0))
          "Page must have a non-empty <title> element"]
  else [].

Definition check_main : list violation :=
  if (negb (test re_main content) && negb (test re_role_main content))%bool
  then [report "missing-main-landmark" "error" 1
          "Page should have a <main> landmark element"]
  else [].

Definition check_marquee : list violation :=
  map (fun f =>
         report "marquee-element" "error" (getLineNumber (index f))
           ("<" ++ match group 1 f with Some g => g | None => EmptyString end
                ++ "> element is deprecated and causes accessibility issues"))
      (exec_all re_marquee content).

Definition document_checks : list violation :=
  check_lang ++ check_title ++ check_main ++ check_marquee.

(** *** The checks of [traverse] on one tag *)

(** The approximate line of a tag: the first occurrence of its opening text
    at or after the start of the current line. *)
Definition locate (tagName : string) (lineNumber : Z) : Z :=
  let tagText := "<" ++ tagName in
  let from :=
    if lineNumber >? 1
    then len (join (chr nl) (firstn (Z.to_nat (lineNumber - 1)) lines))
    else 0 in
  let index := indexOf content tagText from in
  if negb (index =? -1) then getLineNumber index else lineNumber.

Definition is_text_with_content (child : node) : bool :=
  match child with
  | Text data => truthy (trim data)
  | _ => false
  end.

Definition is_tag_node (child : node) : bool :=
  match child with
  | Element Tag _ _ _ => true
  | _ => false
  end.

Definition has_aria_label (a : attrs) : bool :=
  (truthy_opt (attr a "aria-label")
   || truthy_opt (attr a "aria-labelledby"))%bool.

Definition check_img (tagName : string) (a : attrs) (ln : Z)
  : list violation :=
  if String.eqb tagName "img" then
    match attr a "alt" with
    | None =>
        [report "img-missing-alt" "error" ln
           "Image elements must have an alt attribute"]
    | Some alt =>
        if (truthy alt && test re_redundant_alt alt)%bool
        then [report "img-redundant-alt" "warning" ln
                ("Alt text should not include redundant words like " ++ q
                   ++ "image of" ++ q ++ " or " ++ q ++ "picture of" ++ q)]
        else []
    end
  else [].

Definition personalFields : list string :=
  ["email"; "name"; "tel"; "url"; "text"].
Definition personalNames : list string :=
  ["email"; "name"; "fullname"; "username"; "tel"; "phone"; "card";
   "cardnumber"; "cc-"; "address"; "postal"; "country"].

(** The test that guards the checks on form inputs. *)
Definition is_checked_input (tagName : string) (a : attrs) : bool :=
  (String.eqb tagName "input"
   && negb (is_str (attr a "type") "hidden")
   && negb (is_str (attr a "type") "submit")
   && negb (is_str (attr a "type") "button"))%bool.

(** [hasLabel] of the input check. *)
Definition input_hasLabel (a : attrs) : bool :=
  (truthy_opt (attr a "aria-label")
   || truthy_opt (attr a "aria-labelledby")
   || truthy_opt (attr a "id"))%bool.

Definition check_input (tagName : string) (a : attrs) (ln : Z)
  : list violation :=
  if is_checked_input tagName a then
    let hasLabel := input_hasLabel a in
    (if negb hasLabel
     then [report "form-input-missing-label" "error" ln
             "Form input must have an associated label"]
     else [])
    ++ (if (truthy_opt (attr a "placeholder") && negb hasLabel)%bool
        then [report "placeholder-as-label" "error" ln
                "Placeholder should not be used as a label replacement"]
        else [])
    ++ (if (match attr a "type" with
            | Some t => existsb (String.eqb t) personalFields
            | None => false
            end
            || existsb (fun field =>
                          match attr a "name" with
                          | Some n => includes (toLowerCase n) field
                          | None => false
                          end) personalNames)%bool
        then if negb (truthy_opt (attr a "autocomplete"))
             then [report "missing-autocomplete" "warning" ln
                     "Personal info input should have autocomplete attribute"]
             else []
        else [])
    ++ (if defined (attr a "required")
        then if negb (truthy_opt (attr a "aria-required"))
             then [report "required-not-indicated" "warning" ln
                     "Required fields should have aria-required and visual indication"]
             else []
        else [])
  else [].

Definition check_button (tagName : string) (a : attrs) (children : list node)
  (ln : Z) : list violation :=
  if String.eqb tagName "button" then
    let hasContent :=
      existsb (fun child =>
                 (is_text_with_content child || is_tag_node child)%bool)
              children in
    if (negb hasContent && negb (has_aria_label a))%bool
    then [report "button-empty" "error" ln
            "Button must have text content or aria-label"]
    else []
  else [].

Definition is_img_with_alt (child : node) : bool :=
  match child with
  | Element Tag name a _ =>
      (String.eqb name "img" && truthy_opt (attr a "alt"))%bool
  | _ => false
  end.

Definition text_data (child : node) : option string :=
  match child with
  | Text data => Some data
  | _ => None
  end.

Fixpoint filter_map {A B} (f : A -> option B) (l : list A) : list B :=
  match l with
  | [] => []
  | x :: l' =>
      match f x with
      | Some y => y :: filter_map f l'
      | None => filter_map f l'
      end
  end.

Definition nonDescriptive : list string :=
  ["click here"; "read more"; "more"; "here"; "link"].

Definition check_link (tagName : string) (a : attrs) (children : list node)
  (ln : Z) : list violation :=
  if String.eqb tagName "a" then
    let hasContent :=
      existsb (fun child =>
                 (is_text_with_content child || is_img_with_alt child)%bool)
              children in
    (if (negb hasContent && negb (has_aria_label a))%bool
     then [report "link-empty" "error" ln
             "Link must have text content or aria-label"]
     else [])
    ++ (if hasContent then
          let textContent :=
            toLowerCase
              (join " " (map trim (filter_map text_data children))) in
          if existsb (String.eqb textContent) nonDescriptive
          then [report "link-non-descriptive" "warning" ln
                  ("Non-descriptive link text: " ++ q ++ textContent ++ q)]
          else []
        else [])
    ++ (if is_str (attr a "target") "_blank" then
          let hasWarning :=
            match attr a "aria-label" with
            | Some l => (includes l "new window" || includes l "new tab")%bool
            | None => false
            end in
          if negb hasWarning
          then [report "link-new-window-no-warning" "warning" ln
                  "Links opening in new windows should warn users"]
          else []
        else [])
  else [].

Definition check_iframe (tagName : string) (a : attrs) (ln : Z)
  : list violation :=
  if (String.eqb tagName "iframe" && negb (truthy_opt (attr a "title")))%bool
  then [report "iframe-missing-title" "error" ln
          "Iframe elements must have a title attribute"]
  else [].

Definition check_div_button (tagName : string) (a : attrs) (ln : Z)
  : list violation :=
  if ((String.eqb tagName "div" || String.eqb tagName "span")
      && truthy_opt (attr a "onclick"))%bool
  then
    let hasRole := is_str (attr a "role") "button" in
    let hasTabindex := defined (attr a "tabindex") in
    let hasKeyboard :=
      (truthy_opt (attr a "onkeydown") || truthy_opt (attr a "onkeypress")
       || truthy_opt (attr a "onkeyup"))%bool in
    if (negb hasRole || negb hasTabindex || negb hasKeyboard)%bool
    then [report "div-as-button" "error" ln
            ("Interactive div/span must have role=" ++ q ++ "button" ++ q
               ++ ", tabindex, and keyboard handlers")]
    else []
  else [].

Definition check_tabindex (a : attrs) (ln : Z) : list violation :=
  match attr a "tabindex" with
  | Some t =>
      if (truthy t
          && match parseInt t with Some n => n >? 0 | None => false end)%bool
      then [report "positive-tabindex" "error" ln
              "Avoid positive tabindex values as they disrupt natural tab order"]
      else []
  | None => []
  end.

Definition check_heading (tagName : string) (a : attrs)
  (children : list node) (ln : Z) : list violation :=
  if test re_heading tagName then
    let hasContent :=
      existsb (fun child =>
                 (is_text_with_content child || is_tag_node child)%bool)
              children in
    if (negb hasContent && negb (has_aria_label a))%bool
    then [report "heading-empty" "error" ln
            "Heading must have text content or aria-label"]
    else []
  else [].

Fixpoint is_header_element (child : node) : bool :=
  match child with
  | Element Tag name _ children =>
      (String.eqb name "thead" || String.eqb name "th"
       || (fix hasHeaderElements (nodes : list node) : bool :=
             match nodes with
             | [] => false
             | c :: nodes' =>
                 (is_header_element c || hasHeaderElements nodes')%bool
             end) children)%bool
  | _ => false
  end.

Definition hasHeaderElements (nodes : list node) : bool :=
  existsb is_header_element nodes.

Definition check_table (tagName : string) (children : list node) (ln : Z)
  : list violation :=
  if (String.eqb tagName "table" && negb (hasHeaderElements children))%bool
  then [report "table-missing-headers" "error" ln
          "Table must have <thead> and <th> elements"]
  else [].

Definition is_media (tagName : string) : bool :=
  (String.eqb tagName "video" || String.eqb tagName "audio")%bool.

Definition check_autoplay (tagName : string) (a : attrs) (ln : Z)
  : list violation :=
  if (is_media tagName && defined (attr a "autoplay"))%bool
  then if (negb (truthy_opt (attr a "muted"))
           && negb (truthy_opt (attr a "controls")))%bool
       then [report "autoplay-media" "error" ln
               "Autoplaying media must be muted or have controls"]
       else []
  else [].

Definition is_caption_track (child : node) : bool :=
  match child with
  | Element Tag name a _ =>
      (String.eqb name "track"
       && (is_str (attr a "kind") "captions"
           || is_str (attr a "kind") "subtitles"))%bool
  | _ => false
  end.

Definition check_captions (tagName : string) (children : list node) (ln : Z)
  : list violation :=
  if is_media tagName then
    if negb (existsb is_caption_track children)
    then [report "media-no-captions" "error" ln
            ((if String.eqb tagName "video" then "Video" else "Audio")
               ++ " must have captions or transcript")]
    else []
  else [].

(** The checks on the [role] attribute.  [roleRequiredAria[attrs.role]] is a
    lookup in an object literal: for a role named like a property of
    [Object.prototype] it yields a function, and iterating over it with
    [for ... of] throws a [TypeError]; its message names the loop's
    variable. *)
Definition check_role (tagName : string) (a : attrs) (ln : Z)
  : outcome (list violation) :=
  match attr a "role" with
  | Some role =>
      if truthy role then
        let redundant :=
          match get implicitRoles tagName with
          | Own implicitRole =>
              if String.eqb implicitRole role
              then [report "redundant-role" "warning" ln
                      ("Redundant role=" ++ q ++ role ++ q ++ " on <"
                         ++ tagName ++ "> element")]
              else []
          | _ => []
          end in
        let invalid :=
          if negb (existsb (String.eqb role) validAriaRoles)
          then [report "invalid-aria-role" "error" ln
                  ("Invalid ARIA role: " ++ q ++ role ++ q)]
          else [] in
        match get roleRequiredAria role with
        | Own required =>
            Returned
              (redundant ++ invalid
                 ++ flat_map
                      (fun prop =>
                         if negb (truthy_opt (attr a prop))
                         then [report "missing-aria-required" "error" ln
                                 ("Role " ++ q ++ role ++ q ++ " requires "
                                    ++ prop ++ " attribute")]
                         else [])
                      required)%list
        | Inherited => Thrown "required is not iterable"
        | Undefined => Returned (redundant ++ invalid)%list
        end
      else Returned []
  | None => Returned []
  end.

(** Everything [traverse] pushes for one tag, in the order of the source.
    The role check is bound first because it is the one that can throw; when
    it does, the whole analysis ends and what was pushed before is lost with
    it. *)
Definition node_checks (tagName : string) (a : attrs) (children : list node)
  (ln : Z) : outcome (list violation) :=
  roles <- check_role tagName a ln ;;
  Returned
    (check_img tagName a ln
       ++ check_input tagName a ln
       ++ check_button tagName a children ln
       ++ check_link tagName a children ln
       ++ check_iframe tagName a ln
       ++ check_div_button tagName a ln
       ++ check_tabindex a ln
       ++ check_heading tagName a children ln
       ++ check_table tagName children ln
       ++ check_autoplay tagName a ln
       ++ check_captions tagName children ln
       ++ roles)%list.

(** *** [traverse]: the depth-first walk

    The walk threads two pieces of state: the line counter [lineNumber] and
    the [violations] array.  Only [tag] elements are checked and entered. *)

Record tstate : Type := TState {
  lineNumber : Z;
  violations : list violation
}.

Fixpoint traverse_node (n : node) (st : tstate) : outcome tstate :=
  match n with
  | Element Tag name a children =>
      let tagName := toLowerCase name in
      let ln := locate tagName (lineNumber st) in
      vs <- node_checks tagName a children ln ;;
      (fix traverse (nodes : list node) (st : tstate) : outcome tstate :=
         match nodes with
         | [] => Returned st
         | c :: nodes' => st' <- traverse_node c st ;; traverse nodes' st'
         end) children (TState ln (violations st ++ vs)%list)
  | _ => Returned st
  end.

Fixpoint traverse (nodes : list node) (st : tstate) : outcome tstate :=
  match nodes with
  | [] => Returned st
  | c :: nodes' => st' <- traverse_node c st ;; traverse nodes' st'
  end.

(** *** Post-traversal checks

    They run after [traverse] and read the line counter where the walk left
    it: [ln] below is that final value. *)

Section PostTraversal.
Variable ln : Z.

(** [collectIds]: the state is [idMap] (the identifiers seen so far) and the
    violations pushed. *)
Definition visit_id (n : node) (st : list string * list violation)
  : list string * list violation :=
  match n with
  | Element Tag _ a _ =>
      match attr a "id" with
      | Some id =>
          if truthy id then
            if existsb (String.eqb id) (fst st)
            then (fst st,
                  (snd st ++ [report "duplicate-id" "error" ln
                                ("Duplicate ID " ++ q ++ id ++ q ++ " found")])%list)
            else ((fst st ++ [id])%list, snd st)
          else st
      | None => st
      end
  | _ => st
  end.

Definition children_of (n : node) : list node :=
  match n with
  | Element _ _ _ children => children
  | CData children => children
  | _ => []
  end.

Fixpoint collectIds_node (n : node) (st : list string * list violation)
  : list string * list violation :=
  let st1 := visit_id n st in
  match n with
  | Element _ _ _ children | CData children =>
      (fix collectIds (nodes : list node) st :=
         match nodes with
         | [] => st
         | c :: nodes' => collectIds nodes' (collectIds_node c st)
         end) children st1
  | _ => st1
  end.

Fixpoint collectIds (nodes : list node) (st : list string * list violation)
  : list string * list violation :=
  match nodes with
  | [] => st
  | c :: nodes' => collectIds nodes' (collectIds_node c st)
  end.

(** [collectHeadings]: [level] is [parseInt(node.name[1])], [None] for
    [NaN]. *)
Record heading : Type := Heading {
  level : option Z;
  heading_line : Z
}.

Definition visit_heading (n : node) (headings : list heading)
  : list heading :=
  match n with
  | Element Tag name _ _ =>
      if test re_heading name
      then (headings ++ [Heading (parseInt (take 1 (drop 1 name))) ln])%list
      else headings
  | _ => headings
  end.

Fixpoint collectHeadings_node (n : node) (headings : list heading)
  : list heading :=
  let hs := visit_heading n headings in
  match n with
  | Element _ _ _ children | CData children =>
      (fix collectHeadings (nodes : list node) hs :=
         match nodes with
         | [] => hs
         | c :: nodes' => collectHeadings nodes' (collectHeadings_node c hs)
         end) children hs
  | _ => hs
  end.

Fixpoint collectHeadings (nodes : list node) (headings : list heading)
  : list heading :=
  match nodes with
  | [] => headings
  | c :: nodes' => collectHeadings nodes' (collectHeadings_node c headings)
  end.

(** [collectRadios] *)
Record radio : Type := Radio {
  radio_name : option string;
  radio_line : Z
}.

Definition visit_radio (n : node) (radioInputs : list radio) : list radio :=
  match n with
  | Element Tag name a _ =>
      if (String.eqb name "input" && is_str (attr a "type") "radio")%bool
      then (radioInputs ++ [Radio (attr a "name") ln])%list
      else radioInputs
  | _ => radioInputs
  end.

Fixpoint collectRadios_node (n : node) (radioInputs : list radio)
  : list radio :=
  let rs := visit_radio n radioInputs in
  match n with
  | Element _ _ _ children | CData children =>
      (fix collectRadios (nodes : list node) rs :=
         match nodes with
         | [] => rs
         | c :: nodes' => collectRadios nodes' (collectRadios_node c rs)
         end) children rs
  | _ => rs
  end.

Fixpoint collectRadios (nodes : list node) (radioInputs : list radio)
  : list radio :=
  match nodes with
  | [] => radioInputs
  | c :: nodes' => collectRadios nodes' (collectRadios_node c radioInputs)
  end.

End PostTraversal.

(** The loop over consecutive headings; [prev] is [headings[i - 1]]. *)
Definition level_text (l : option Z) : string :=
  match l with
  | Some z => DecimalString.NilZero.string_of_int (Z.to_int z)
  | None => "NaN"
  end.

Definition skips (prevLevel currLevel : option Z) : bool :=
  match prevLevel, currLevel with
  | Some p, Some c => c >? p + 1
  | _, _ => false
  end.

Fixpoint heading_loop (prev : heading) (headings : list heading)
  : list violation :=
  match headings with
  | [] => []
  | curr :: headings' =>
      (if skips (level prev) (level curr)
       then [report "heading-hierarchy" "warning" (heading_line curr)
               ("Heading hierarchy skipped from h" ++ level_text (level prev)
                  ++ " to h" ++ level_text (level curr))]
       else [])
      ++ heading_loop curr headings'
  end.

Definition check_heading_hierarchy (headings : list heading)
  : list violation :=
  match headings with
  | [] => []
  | first :: headings' => heading_loop first headings'
  end.

(** [radioGroups]: a [Map] from the group's name to the lines of its radios,
    in insertion order. *)
Fixpoint group_push (name : string) (ln : Z)
  (radioGroups : list (string * list Z)) : list (string * list Z) :=
  match radioGroups with
  | [] => [(name, [ln])]
  | (n, lns) :: radioGroups' =>
      if String.eqb n name then (n, (lns ++ [ln])%list) :: radioGroups'
      else (n, lns) :: group_push name ln radioGroups'
  end.

Fixpoint group_radios (radioInputs : list radio)
  (radioGroups : list (string * list Z)) : list (string * list Z) :=
  match radioInputs with
  | [] => radioGroups
  | r :: radioInputs' =>
      group_radios radioInputs'
        (match radio_name r with
         | Some name =>
             if truthy name then group_push name (radio_line r) radioGroups
             else radioGroups
         | None => radioGroups
         end)
  end.

Definition check_radio_group (g : string * list Z) : list violation :=
  let '(name, lns) := g in
  if (1 <? Z.of_nat (List.length lns)) then
    if negb (test re_fieldset_radio content)
    then [report "radio-missing-fieldset" "warning"
            (match lns with l :: _ => l | [] => 0 end)
            ("Radio button group " ++ q ++ name ++ q
               ++ " should be wrapped in <fieldset> with <legend>")]
    else []
  else [].

Definition check_radio_groups (radioInputs : list radio) : list violation :=
  flat_map check_radio_group (group_radios radioInputs []).

Definition check_navigation : list violation :=
  match exec_all re_nav_pattern content with
  | f :: _ =>
      if negb (test re_nav content)
      then [report "non-semantic-navigation" "warning"
              (getLineNumber (indexOf content (matched f) 0))
              "Multiple navigation links should be wrapped in <nav> element"]
      else []
  | [] => []
  end.

(** The callback given to [DomHandler], on a tree: the walk, then the
    post-traversal checks.  The result is the [violations] array when the
    callback returns. *)
Definition handler (dom : list node) (pushed : list violation)
  : outcome (list violation) :=
  st <- traverse dom (TState 1 pushed) ;;
  let ln := lineNumber st in
  Returned
    (snd (collectIds ln dom ([], violations st))
       ++ check_heading_hierarchy (collectHeadings ln dom [])
       ++ check_radio_groups (collectRadios ln dom [])
       ++ check_navigation)%list.

(** The inline-style check that runs after the parser has ended. *)
Definition check_outline : list violation :=
  map (fun f =>
         report "focus-outline-removed" "error" (getLineNumber (index f))
           "Do not remove focus outlines without providing custom visible focus styles")
      (exec_all re_outline_none content).

(** [analyzeHTML(content)], given what the parser hands to the handler. *)
Definition analyzeHTML_on (p : parsed) : logged (list violation) :=
  match p with
  | ParseError e =>
      Logged [("HTML parsing error: " ++ e)%string]
             (Returned (document_checks ++ check_outline)%list)
  | Document dom =>
      Logged []
        (vs <- handler dom document_checks ;;
         Returned (vs ++ check_outline)%list)
  end.

End Analyzer.

(** [analyzeHTML(content, filePath)] with htmlparser2 as a parameter. *)
Definition analyzeHTML (parse : string -> parsed) (content : string)
  : logged (list violation) :=
  analyzeHTML_on content (parse content).

End Html.

(** ** Node's [path.extname] (POSIX flavour)

    One pass from the end of the path to the last separator, as in Node's
    [lib/path.js]. *)

Module Path.
Import JsString.

Record scan : Type := Scan {
  startDot : Z;
  startPart : Z;
  end_ : Z;
  matchedSlash : bool;
  preDotState : Z;
  stopped : bool
}.

Definition step (i : Z) (c : ascii) (s : scan) : scan :=
  if stopped s then s
  else if Ascii.eqb c "/" then
    if negb (matchedSlash s)
    then Scan (startDot s) (i + 1) (end_ s) (matchedSlash s)
              (preDotState s) true
    else s
  else
    let s :=
      if end_ s =? -1
      then Scan (startDot s) (startPart s) (i + 1) false (preDotState s)
                false
      else s in
    if Ascii.eqb c "." then
      if startDot s =? -1
      then Scan i (startPart s) (end_ s) (matchedSlash s) (preDotState s)
                false
      else if negb (preDotState s =? 1)
      then Scan (startDot s) (startPart s) (end_ s) (matchedSlash s) 1 false
      else s
    else if negb (startDot s =? -1)
    then Scan (startDot s) (startPart s) (end_ s) (matchedSlash s) (-1) false
    else s.

(** The loop [for (i = path.length - 1; i >= 0; --i)] over the reversed
    path. *)
Fixpoint scan_from (reversed : string) (i : Z) (s : scan) : scan :=
  match reversed with
  | EmptyString => s
  | String c reversed' => scan_from reversed' (i - 1) (step i c s)
  end.

Definition extname (path : string) : string :=
  let s := scan_from (rev path) (len path - 1)
             (Scan (-1) 0 (-1) true 0 false) in
  if ((startDot s =? -1) || (end_ s =? -1) || (preDotState s =? 0)
      || ((preDotState s =? 1) && (startDot s =? end_ s - 1)
          && (startDot s =? startPart s + 1)))%bool
  then EmptyString
  else take (Z.to_nat (end_ s - startDot s)) (drop (Z.to_nat (startDot s)) path).

End Path.

(** ** The dispatcher: [src/core/hybrid-analyzer.js] *)

Module Hybrid.
Import JsString Regex JsObject Dom.

(** Table literals write the double quote as a backquote, see [Html.qq]. *)
Definition ruleToWCAG_entries : list (string * list string) :=
  [("jsx-a11y/alt-text", ["1.1.1"]);
   ("jsx-a11y/anchor-has-content", ["2.4.4"]);
   ("jsx-a11y/anchor-is-valid", ["2.4.4"]);
   ("jsx-a11y/aria-activedescendant-has-tabindex", ["4.1.2"]);
   ("jsx-a11y/aria-props", ["4.1.2"]);
   ("jsx-a11y/aria-proptypes", ["4.1.2"]);
   ("jsx-a11y/aria-role", ["4.1.2"]);
   ("jsx-a11y/aria-unsupported-elements", ["4.1.2"]);
   ("jsx-a11y/autocomplete-valid", ["1.3.5"]);
   ("jsx-a11y/click-events-have-key-events", ["2.1.1"]);
   ("jsx-a11y/control-has-associated-label", ["4.1.2"]);
   ("jsx-a11y/heading-has-content", ["2.4.6"]);
   ("jsx-a11y/html-has-lang", ["3.1.1"]);
   ("jsx-a11y/iframe-has-title", ["4.1.2"]);
   ("jsx-a11y/img-redundant-alt", ["1.1.1"]);
   ("jsx-a11y/interactive-supports-focus", ["2.1.1"]);
   ("jsx-a11y/label-has-associated-control", ["3.3.2"]);
   ("jsx-a11y/media-has-caption", ["1.2.2"]);
   ("jsx-a11y/mouse-events-have-key-events", ["2.1.1"]);
   ("jsx-a11y/no-access-key", ["2.4.1"]);
   ("jsx-a11y/no-autofocus", ["2.4.3"]);
   ("jsx-a11y/no-distracting-elements", ["2.2.2"]);
   ("jsx-a11y/no-interactive-element-to-noninteractive-role", ["4.1.2"]);
   ("jsx-a11y/no-noninteractive-element-interactions", ["4.1.2"]);
   ("jsx-a11y/no-noninteractive-element-to-interactive-role", ["4.1.2"]);
   ("jsx-a11y/no-noninteractive-tabindex", ["2.1.1"]);
   ("jsx-a11y/no-redundant-roles", ["4.1.2"]);
   ("jsx-a11y/no-static-element-interactions", ["4.1.2"]);
   ("jsx-a11y/role-has-required-aria-props", ["4.1.2"]);
   ("jsx-a11y/role-supports-aria-props", ["4.1.2"]);
   ("jsx-a11y/scope", ["1.3.1"]);
   ("jsx-a11y/tabindex-no-positive", ["2.4.3"])].

Definition fixDescriptions_entries : list (string * string) :=
  [("jsx-a11y/alt-text", "Add alt attribute with meaningful description");
   ("jsx-a11y/click-events-have-key-events",
    "Add keyboard event handlers (onKeyDown)");
   ("jsx-a11y/no-static-element-interactions",
    "Replace with semantic button or add role and keyboard support");
   ("jsx-a11y/label-has-associated-control",
    "Associate label with form control");
   ("jsx-a11y/interactive-supports-focus",
    "Make interactive element keyboard focusable");
   ("jsx-a11y/aria-role", "Use valid ARIA role from specification");
   ("jsx-a11y/media-has-caption", "Add captions to video/audio elements");
   ("jsx-a11y/no-autofocus", "Remove autoFocus attribute");
   ("jsx-a11y/tabindex-no-positive", "Remove positive tabIndex values");
   ("jsx-a11y/aria-props", "Fix ARIA property name");
   ("jsx-a11y/role-has-required-aria-props",
    "Add required ARIA properties for this role");
   ("jsx-a11y/heading-has-content", "Add text content to heading element");
   ("jsx-a11y/iframe-has-title", "Add title attribute to iframe");
   ("jsx-a11y/no-distracting-elements",
    "Remove <marquee> or <blink> elements");
   ("jsx-a11y/anchor-has-content", "Add text content or aria-label to link");
   ("jsx-a11y/anchor-is-valid", "Provide valid href or use button element");
   ("jsx-a11y/control-has-associated-label",
    "Add accessible label to form control");
   ("jsx-a11y/mouse-events-have-key-events",
    "Add keyboard equivalents for mouse events");
   ("jsx-a11y/img-redundant-alt",
    "Remove redundant words like `image` or `picture` from alt text");
   ("jsx-a11y/no-access-key", "Remove accessKey attribute");
   ("jsx-a11y/aria-activedescendant-has-tabindex",
    "Add tabIndex when using aria-activedescendant");
   ("jsx-a11y/aria-proptypes", "Use correct value type for ARIA property");
   ("jsx-a11y/aria-unsupported-elements",
    "Remove ARIA from unsupported elements");
   ("jsx-a11y/autocomplete-valid", "Use valid autocomplete value");
   ("jsx-a11y/html-has-lang", "Add lang attribute to <html> element");
   ("jsx-a11y/no-interactive-element-to-noninteractive-role",
    "Do not override interactive element semantics");
   ("jsx-a11y/no-noninteractive-element-interactions",
    "Add proper role to non-interactive element with handlers");
   ("jsx-a11y/no-noninteractive-element-to-interactive-role",
    "Use semantic interactive elements instead");
   ("jsx-a11y/no-noninteractive-tabindex",
    "Remove tabIndex from non-interactive elements");
   ("jsx-a11y/no-redundant-roles",
    "Remove redundant role that matches implicit semantics");
   ("jsx-a11y/role-supports-aria-props",
    "Remove ARIA properties not supported by role");
   ("jsx-a11y/scope", "Use scope attribute only on <th> elements")].

Definition fixSuggestions_entries : list (string * list string) :=
  [("jsx-a11y/alt-text",
    ["<img src=`/logo.png` alt=`Company logo` />";
     "<img src=`/decorative.png` alt=`` /> // For decorative images";
     "Describe what the image conveys, not just `image of...`"]);
   ("jsx-a11y/click-events-have-key-events",
    ["<div onClick={handler} onKeyDown={(e) => { if (e.key === `Enter` || e.key === ` `) handler(); }} tabIndex={0}>";
     "Or better: <button onClick={handler}>Click me</button>";
     "Keyboard users need Enter/Space key support"]);
   ("jsx-a11y/no-static-element-interactions",
    ["Replace: <button onClick={handler}>Click me</button>";
     "Or add: <div role=`button` tabIndex={0} onClick={handler} onKeyDown={keyHandler}>";
     "const keyHandler = (e) => { if (e.key === `Enter` || e.key === ` `) handler(); }"]);
   ("jsx-a11y/label-has-associated-control",
    ["<label htmlFor=`email`>Email</label><input id=`email` type=`email` />";
     "Or wrap: <label>Email <input type=`email` /></label>";
     "Or use: <input type=`email` aria-label=`Email` />"]);
   ("jsx-a11y/interactive-supports-focus",
    ["<div role=`button` tabIndex={0} onClick={handler}>";
     "Add tabIndex={0} to make element focusable";
     "Consider using <button> instead for better semantics"]);
   ("jsx-a11y/aria-role",
    ["Valid roles: button, link, menuitem, tab, checkbox, radio, dialog";
     "<div role=`button` tabIndex={0}>Click me</div>";
     "See: https://www.w3.org/TR/wai-aria-1.2/#role_definitions"]);
   ("jsx-a11y/media-has-caption",
    ["<video controls><track kind=`captions` src=`captions.vtt` /></video>";
     "<audio controls><track kind=`captions` src=`captions.vtt` /></audio>";
     "Always provide captions for accessibility"]);
   ("jsx-a11y/no-autofocus",
    ["Remove: autoFocus={true}";
     "Let users control focus flow naturally";
     "Exception: When explicitly needed (e.g., search on page load)"]);
   ("jsx-a11y/tabindex-no-positive",
    ["Remove: tabIndex={1}, tabIndex={5}, etc.";
     "Use: tabIndex={0} for natural tab order";
     "Use: tabIndex={-1} for programmatic focus only"]);
   ("jsx-a11y/aria-props",
    ["Check spelling: aria-labelledby (not aria-labeledby)";
     "Valid props: aria-label, aria-describedby, aria-hidden, etc.";
     "See: https://www.w3.org/TR/wai-aria-1.2/#state_prop_def"]);
   ("jsx-a11y/role-has-required-aria-props",
    ["role=`checkbox` requires: aria-checked";
     "role=`slider` requires: aria-valuemin, aria-valuemax, aria-valuenow";
     "Check MDN or W3C ARIA spec for role requirements"]);
   ("jsx-a11y/heading-has-content",
    ["<h1>Page Title</h1>";
     "<h2>{dynamicTitle}</h2>";
     "Headings must not be empty"]);
   ("jsx-a11y/iframe-has-title",
    ["<iframe src=`...` title=`YouTube video player` />";
     "<iframe src=`...` title=`External content from example.com` />";
     "Title helps users understand iframe purpose"]);
   ("jsx-a11y/no-distracting-elements",
    ["Remove: <marquee> and <blink>";
     "Use CSS: animation or transition instead";
     "Provide controls to pause/stop animations"]);
   ("jsx-a11y/anchor-has-content",
    ["<a href=`/about`>About Us</a>";
     "<a href=`/contact` aria-label=`Contact page`>📧</a>";
     "Links need visible text or aria-label"]);
   ("jsx-a11y/anchor-is-valid",
    ["<a href=`/page`>Go to page</a> // Valid navigation";
     "<button onClick={handler}>Do action</button> // For actions";
     "Avoid: href=`#` or href=`javascript:void(0)`"]);
   ("jsx-a11y/control-has-associated-label",
    ["<label htmlFor=`name`>Name</label><input id=`name` />";
     "<input aria-label=`Search` type=`search` />";
     "<button aria-label=`Close`>×</button>"]);
   ("jsx-a11y/mouse-events-have-key-events",
    ["onMouseEnter + onFocus";
     "onMouseLeave + onBlur";
     "<div onMouseEnter={show} onFocus={show} onMouseLeave={hide} onBlur={hide}>"]);
   ("jsx-a11y/img-redundant-alt",
    ["Avoid: alt=`image of logo` or alt=`picture of product`";
     "Better: alt=`Acme Company logo` or alt=`Blue t-shirt product`";
     "Screen readers already announce `image`"]);
   ("jsx-a11y/no-access-key",
    ["Remove: accessKey=`s`";
     "accessKey conflicts with screen readers and browser shortcuts";
     "Use visible keyboard shortcuts instead"]);
   ("jsx-a11y/aria-activedescendant-has-tabindex",
    ["<div role=`combobox` aria-activedescendant={activeId} tabIndex={0}>";
     "Element using aria-activedescendant must be focusable";
     "Add tabIndex={0} or ensure element is naturally focusable"]);
   ("jsx-a11y/aria-proptypes",
    ["aria-hidden=`true` (not `yes` or 1)";
     "aria-checked=`true` or `false` (not `checked`)";
     "aria-expanded=`true` or `false` (boolean as string)"]);
   ("jsx-a11y/aria-unsupported-elements",
    ["Remove ARIA from: <meta>, <html>, <style>, <script>";
     "These elements do not support ARIA attributes";
     "Use ARIA only on visible, interactive elements"]);
   ("jsx-a11y/autocomplete-valid",
    ["<input type=`email` autoComplete=`email` />";
     "<input type=`tel` autoComplete=`tel` />";
     "See: https://html.spec.whatwg.org/multipage/form-control-infrastructure.html#autofill"]);
   ("jsx-a11y/html-has-lang",
    ["<html lang=`en`>";
     "<html lang=`es`>";
     "Helps screen readers use correct pronunciation"]);
   ("jsx-a11y/no-interactive-element-to-noninteractive-role",
    ["Avoid: <button role=`article`>";
     "Do not override button, a, input, etc. with non-interactive roles";
     "Use semantic HTML as intended"]);
   ("jsx-a11y/no-noninteractive-element-interactions",
    ["<li onClick={handler}> → <li role=`button` tabIndex={0} onClick={handler}>";
     "Non-interactive elements need role and keyboard support";
     "Or use: <button onClick={handler}>Item</button>"]);
   ("jsx-a11y/no-noninteractive-element-to-interactive-role",
    ["Avoid: <h1 role=`button`>";
     "Use interactive elements: <button>, <a>, <input>";
     "Headings, paragraphs should not be interactive"]);
   ("jsx-a11y/no-noninteractive-tabindex",
    ["Remove: <div tabIndex={0}> (without interactive role)";
     "Add: <div role=`button` tabIndex={0}>";
     "Only focusable elements should have tabIndex"]);
   ("jsx-a11y/no-redundant-roles",
    ["Remove: <button role=`button`>";
     "Remove: <nav role=`navigation`>";
     "Semantic HTML already has implicit roles"]);
   ("jsx-a11y/role-supports-aria-props",
    ["Avoid: <div role=`button` aria-placeholder=`...`>";
     "Check ARIA spec for role-specific properties";
     "Each role supports only certain ARIA attributes"]);
   ("jsx-a11y/scope",
    ["<th scope=`col`>Header</th> // For column headers";
     "<th scope=`row`>Label</th> // For row headers";
     "Do not use scope on <td> elements"])].

Definition ruleToWCAG (rule : string) : option (list string) :=
  lookup ruleToWCAG_entries rule.
Definition fixDescriptions (rule : string) : option string :=
  option_map Html.qq (lookup fixDescriptions_entries rule).
Definition fixSuggestions (rule : string) : option (list string) :=
  option_map (map Html.qq) (lookup fixSuggestions_entries rule).

(** A message of ESLint's [lintText]; [msg_ruleId] is [None] for [null]. *)
Record lint_message : Type := LintMessage {
  msg_ruleId : option string;
  msg_severity : Z;
  msg_message : string;
  msg_line : Z;
  msg_column : Z;
  msg_endLine : option Z;
  msg_endColumn : option Z
}.

(** The normalized finding the dispatcher returns.  [fix_] is the [fix]
    property, [None] when it is [undefined]; the two end positions exist on
    findings of the delegate only. *)
Record finding : Type := Finding {
  ruleId : string;
  severity : string;
  message : string;
  description : string;
  line : Z;
  column : Z;
  endLine : option Z;
  endColumn : option Z;
  wcag : list string;
  fix_ : option string;
  suggestions : list string
}.

(** What the dispatcher calls: htmlparser2 (inside [analyzeHTML]), the two
    analyzers whose sources are not part of this development, and ESLint's
    [lintText], which answers with the messages of [results[0]] ([None] when
    there is no first result) or throws. *)
Record environment : Type := Environment {
  parseDocument : string -> parsed;
  analyzeCSS : string -> string -> logged (list Html.violation);
  analyzeJS : string -> string -> logged (list Html.violation);
  lintText : string -> string -> outcome (option (list lint_message))
}.

Definition or_default {A} (o : option A) (d : A) : A :=
  match o with Some a => a | None => d end.

(** The mapping of a delegate message, after the filter on its rule. *)
Definition of_message (rule : string) (msg : lint_message) : finding :=
  Finding rule
    (if msg_severity msg =? 2 then "error" else "warning")
    (msg_message msg) (msg_message msg)
    (msg_line msg) (msg_column msg) (msg_endLine msg) (msg_endColumn msg)
    (or_default (ruleToWCAG rule) [])
    (Some (or_default (fixDescriptions rule) "Review WCAG 2.2 documentation"))
    (or_default (fixSuggestions rule)
       ["Review WCAG 2.2 documentation";
        "Consult accessibility team for guidance"]).

Definition of_messages (messages : list lint_message) : list finding :=
  Html.filter_map
    (fun msg =>
       match msg_ruleId msg with
       | Some rule =>
           if (truthy rule && startsWith "jsx-a11y/" rule)%bool
           then Some (of_message rule msg) else None
       | None => None
       end)
    messages.

(** [analyzeFileWithESLint]: the whole body is inside [try]; the [catch]
    writes to [console.error] and returns the empty array. *)
Definition analyzeFileWithESLint (env : environment)
  (content filePath : string) : logged (list finding) :=
  match lintText env content filePath with
  | Returned results =>
      Logged [] (Returned (of_messages (or_default results [])))
  | Thrown error =>
      Logged [("ESLint analysis error: " ++ error)%string] (Returned [])
  end.

(** The mapping [violations.map(v => ...)] of the three other branches. *)
Definition of_violation (v : Html.violation) : finding :=
  Finding (Html.ruleId v) (Html.severity v) (Html.message v) (Html.message v)
    (Html.line v) (Html.column v) None None
    (or_default (Html.wcag v) [])
    (match Html.fix_ v with
     | Some f => List.hd_error f
     | None => Some "Review WCAG 2.2 documentation"
     end)
    (or_default (Html.fix_ v) ["Review WCAG 2.2 documentation"]).

Definition map_logged {A B} (f : A -> B) (x : logged A) : logged B :=
  Logged (diagnostics x)
    (match result x with
     | Returned a => Returned (f a)
     | Thrown e => Thrown e
     end).

(** [/import\s+.*\s+from\s+[quote]react[quote]/i] *)
Definition re_react_import : regex :=
  seq [lit_i "import"; plus space; star dot; plus space; lit_i "from";
       plus space; quote; lit_i "react"; quote].

(** [/return\s*\(?\s*<[A-Z]/] *)
Definition re_return_jsx : regex :=
  seq [lit "return"; star space; opt (char "("); star space; char "<";
       upper].

(** [/=>\s*<[A-Z]/] *)
Definition re_arrow_jsx : regex :=
  seq [lit "=>"; star space; char "<"; upper].

Definition hasReactImport (content : string) : bool :=
  test re_react_import content.
Definition hasJSXElement (content : string) : bool :=
  (test re_return_jsx content || test re_arrow_jsx content)%bool.

(** [analyzeFileHybrid(content, filePath)]: the chain of tests on
    [ext = path.extname(filePath).toLowerCase()] and, for [.js] and [.ts], on
    the content.  No branch has a [try] of its own, and none calls another
    analyzer than the one it selects. *)
Definition analyzeFileHybrid (env : environment) (content filePath : string)
  : logged (list finding) :=
  let ext := toLowerCase (Path.extname filePath) in
  if (String.eqb ext ".html" || String.eqb ext ".htm")%bool then
    map_logged (map of_violation)
      (Html.analyzeHTML (parseDocument env) content)
  else if (String.eqb ext ".css" || String.eqb ext ".scss")%bool then
    map_logged (map of_violation) (analyzeCSS env content filePath)
  else if (String.eqb ext ".js" || String.eqb ext ".ts")%bool then
    if (hasReactImport content || hasJSXElement content)%bool then
      analyzeFileWithESLint env content filePath
    else
      map_logged (map of_violation) (analyzeJS env content filePath)
  else
    analyzeFileWithESLint env content filePath.

(** The branch [analyzeFileHybrid] takes, and what each branch computes. *)
Inductive route : Type :=
| MarkupEvaluator
| StylesheetEvaluator
| ScriptEvaluator
| TemplatingDelegate.

Definition classify (content filePath : string) : route :=
  let ext := toLowerCase (Path.extname filePath) in
  if (String.eqb ext ".html" || String.eqb ext ".htm")%bool
  then MarkupEvaluator
  else if (String.eqb ext ".css" || String.eqb ext ".scss")%bool
  then StylesheetEvaluator
  else if (String.eqb ext ".js" || String.eqb ext ".ts")%bool
  then if (hasReactImport content || hasJSXElement content)%bool
       then TemplatingDelegate
       else ScriptEvaluator
  else TemplatingDelegate.

Definition evaluate (env : environment) (content filePath : string)
  (r : route) : logged (list finding) :=
  match r with
  | MarkupEvaluator =>
      map_logged (map of_violation)
        (Html.analyzeHTML (parseDocument env) content)
  | StylesheetEvaluator =>
      map_logged (map of_violation) (analyzeCSS env content filePath)
  | ScriptEvaluator =>
      map_logged (map of_violation) (analyzeJS env content filePath)
  | TemplatingDelegate => analyzeFileWithESLint env content filePath
  end.

(** The default of the second parameter. *)
Definition analyzeFileHybrid_default (env : environment) (content : string)
  : logged (list finding) :=
  analyzeFileHybrid env content "temp.jsx".

End Hybrid.

(** ** The batch tool: [handleCheckAccessibilityBatch] of [src/mcp-server.js] *)

Module Mcp.
Import JsString Hybrid.

(** The values of the summary objects: numbers and arrays of strings. *)
Inductive jsvalue : Type :=
| JNumber (n : Z)
| JStrings (l : list string).

(** An object literal: its properties in the order they are written. *)
Definition object : Type := list (string * jsvalue).

Definition count_severity (sev : string) (violations : list finding) : Z :=
  Z.of_nat (List.length
              (filter (fun v => String.eqb (severity v) sev) violations)).

Record file : Type := File {
  path : string;
  content : string
}.

(** An element of [results]: [summary] is missing on the entry pushed by the
    [catch], [error] on the other one. *)
Record file_result : Type := FileResult {
  filePath : string;
  violations : list finding;
  summary : option object;
  error : option string
}.

(** One turn of the loop over [files]: the [catch] stores [error.message]
    and no violations. *)
Definition check_file (env : environment) (f : file) : file_result :=
  match result (analyzeFileHybrid env (content f) (path f)) with
  | Returned violations =>
      FileResult (path f) violations
        (Some [("totalViolations", JNumber (Z.of_nat (List.length violations)));
               ("errors", JNumber (count_severity "error" violations));
               ("warnings", JNumber (count_severity "warning" violations))])
        None
  | Thrown message => FileResult (path f) [] None (Some message)
  end.

(** [r.summary?.key || 0] *)
Definition summary_number (key : string) (r : file_result) : Z :=
  match summary r with
  | Some o =>
      match JsObject.lookup o key with
      | Some (JNumber n) => n
      | _ => 0
      end
  | None => 0
  end.

Definition sum (l : list Z) : Z := fold_left Z.add l 0.

Definition overallSummary (files : list file) (results : list file_result)
  : object :=
  [("filesChecked", JNumber (Z.of_nat (List.length files)));
   ("filesWithViolations",
    JNumber (Z.of_nat (List.length
       (filter (fun r => (0 <? Z.of_nat (List.length (violations r))))
               results))));
   ("totalViolations",
    JNumber (sum (map (summary_number "totalViolations") results)));
   ("totalErrors",
    JNumber (sum (map (summary_number "errors") results)));
   ("totalWarnings",
    JNumber (sum (map (summary_number "warnings") results)))].

(** The object that the tool serializes: [{ results, summary }]. *)
Record batch_output : Type := BatchOutput {
  results : list file_result;
  batch_summary : object
}.

Definition handleCheckAccessibilityBatch (env : environment)
  (files : list file) : batch_output :=
  let results := map (check_file env) files in
  BatchOutput results (overallSummary files results).

(** The summary of the single-file tool [handleCheckAccessibility], the only
    place where the criteria are collected:
    [[...new Set(violations.flatMap(v => v.wcag || []))]]. *)
Fixpoint distinct (l seen : list string) : list string :=
  match l with
  | [] => []
  | x :: l' =>
      if existsb (String.eqb x) seen then distinct l' seen
      else x :: distinct l' (x :: seen)
  end.

Definition single_summary (violations : list finding) : object :=
  [("totalViolations", JNumber (Z.of_nat (List.length violations)));
   ("errors", JNumber (count_severity "error" violations));
   ("warnings", JNumber (count_severity "warning" violations));
   ("wcagCriteria", JStrings (distinct (flat_map wcag violations) []))].

End Mcp.

(** ** The statements of the specification, in its own words *)

Module Spec.
Import JsString Dom.

(** The extension the dispatcher looks at. *)
Definition ext (filePath : string) : string :=
  toLowerCase (Path.extname filePath).

Definition markup_extensions : list string := [".html"; ".htm"].
Definition stylesheet_extensions : list string := [".css"; ".scss"].
Definition script_extensions : list string := [".js"; ".ts"].
Definition templating_extensions : list string := [".jsx"; ".tsx"].

Definition has_extension (exts : list string) (filePath : string) : bool :=
  existsb (String.eqb (ext filePath)) exts.

(** Recognized formats: markup, stylesheet, script and templating. *)
Definition recognized (filePath : string) : bool :=
  has_extension
    (markup_extensions ++ stylesheet_extensions ++ script_extensions
       ++ templating_extensions) filePath.

(** *** Markers of the templating dialect *)

Fixpoint all_chars (p : ascii -> bool) (s : string) : Prop :=
  match s with
  | EmptyString => True
  | String c s' => p c = true /\ all_chars p s'
  end.

(** White space between two tokens, line ends included. *)
Definition blank (s : string) : Prop := all_chars is_space s.

(** A capitalized tag-like token: [<] and a capital letter. *)
Definition capitalized_tag (s : string) : Prop :=
  exists c s', s = String "<" (String c s') /\ is_upper c = true.

(** [return], optionally an opening parenthesis, then such a token. *)
Definition return_marker (content : string) : Prop :=
  exists before w1 paren w2 token,
    content = before ++ "return" ++ w1 ++ paren ++ w2 ++ token
    /\ blank w1 /\ (paren = EmptyString \/ paren = "(") /\ blank w2
    /\ capitalized_tag token.

(** An arrow-function body that opens with such a token. *)
Definition arrow_marker (content : string) : Prop :=
  exists before w token,
    content = before ++ "=>" ++ w ++ token
    /\ blank w /\ capitalized_tag token.

(** The name of the UI-templating runtime as an import declaration gives
    it: [react] between two quotes of the same kind. *)
Definition runtime_module (s : string) : Prop :=
  s = chr sq ++ "react" ++ chr sq \/ s = chr dq ++ "react" ++ chr dq.

(** The characters of what an import declaration binds: names, braces,
    commas and the star, and the white space between them, line ends
    included. *)
Definition is_binding_char (c : ascii) : bool :=
  (is_word c || is_space c
   || existsb (Ascii.eqb c) ["{"; "}"; ","; "*"; "$"]%char)%bool.

(** What an import declaration binds, taken with the white space around it:
    it is set off from the keyword before it and from the one after it, and
    it has a name in it. *)
Definition import_bindings (s : string) : Prop :=
  all_chars is_binding_char s
  /\ (exists c s',
         s = String c s'
         /\ (is_space c || Ascii.eqb c "{" || Ascii.eqb c "*")%bool = true)
  /\ (exists s' c,
         s = s' ++ chr c /\ (is_space c || Ascii.eqb c "}")%bool = true)
  /\ (exists s1 c s2, s = s1 ++ String c s2 /\ is_word c = true).

(** An import of the UI-templating runtime: an import declaration whose
    module is the runtime.  The declaration is the keyword [import], what
    it binds, the keyword [from] and the module, or [import] and the module
    alone; its tokens may stand on several lines. *)
Definition runtime_import (content : string) : Prop :=
  exists before w source after,
    blank w /\ runtime_module source
    /\ (content = before ++ "import" ++ w ++ source ++ after
        \/ exists bindings,
             import_bindings bindings
             /\ content = before ++ "import" ++ bindings ++ "from" ++ w
                           ++ source ++ after).

Definition templating_marker (content : string) : Prop :=
  runtime_import content \/ return_marker content \/ arrow_marker content.

(** *** Labels of form inputs *)

(** The tags [traverse] visits, in the order it visits them. *)
Fixpoint visited_node (n : node) : list (string * attrs * list node) :=
  match n with
  | Element Tag name a children =>
      (toLowerCase name, a, children)
        :: (fix visited (nodes : list node) :=
              match nodes with
              | [] => []
              | c :: nodes' => (visited_node c ++ visited nodes')%list
              end) children
  | _ => []
  end.

Fixpoint visited (nodes : list node) : list (string * attrs * list node) :=
  match nodes with
  | [] => []
  | c :: nodes' => (visited_node c ++ visited nodes')%list
  end.

(** Some [label] of the document has [for = id]. *)
Definition label_for (dom : list node) (id : string) : bool :=
  existsb (fun t => let '(name, a, _) := t in
                    (String.eqb name "label" && is_str (attr a "for") id)%bool)
          (visited dom).

(** A resolvable label: [id] plus [label for], [aria-label], or
    [aria-labelledby]. *)
Definition resolvable_label (dom : list node) (a : attrs) : bool :=
  (truthy_opt (attr a "aria-label")
   || truthy_opt (attr a "aria-labelledby")
   || match attr a "id" with
      | Some id => (truthy id && label_for dom id)%bool
      | None => false
      end)%bool.

Definition count_rule (rule : string) (vs : list Html.violation) : nat :=
  List.length (filter (fun v => String.eqb (Html.ruleId v) rule) vs).

Definition count_if {A} (p : A -> bool) (l : list A) : nat :=
  List.length (filter p l).

(** A checked input without a label, as the specification reads it and as
    the analyzer tests it. *)
Definition unlabeled_per_spec (dom : list node)
  (t : string * attrs * list node) : bool :=
  let '(tagName, a, _) := t in
  (Html.is_checked_input tagName a && negb (resolvable_label dom a))%bool.

Definition unlabeled_per_code (t : string * attrs * list node) : bool :=
  let '(tagName, a, _) := t in
  (Html.is_checked_input tagName a && negb (Html.input_hasLabel a))%bool.

(** *** Lines *)

Fixpoint count_char (c : ascii) (s : string) : Z :=
  match s with
  | EmptyString => 0
  | String a s' => (if Ascii.eqb a c then 1 else 0) + count_char c s'
  end.

(** The 1-based line of the character at [index]. *)
Definition line_at (content : string) (index : Z) : Z :=
  1 + count_char nl (take (Z.to_nat index) content).

(** *** The two severities that are produced *)

Definition error_or_warning (severity : string) : Prop :=
  (severity = "error" \/ severity = "warning") /\ severity <> "info".

(** *** The dispatcher and the batch tool, as the specification states
    them *)

(** The dispatcher's list is the pre-pass output followed by the output of
    the specialized evaluator. *)
Definition concatenates_prepass
  (prePass : string -> string -> list Hybrid.finding)
  (env : Hybrid.environment) : Prop :=
  forall content filePath out special,
    recognized filePath = true ->
    result (Hybrid.analyzeFileHybrid env content filePath) = Returned out ->
    result (Hybrid.evaluate env content filePath
              (Hybrid.classify content filePath)) = Returned special ->
    out = (prePass content filePath ++ special)%list.

(** A file with a script extension goes to the delegate exactly when its
    content has a templating marker, and to the script evaluator
    otherwise. *)
Definition routes_scripts_by_marker : Prop :=
  forall content filePath,
    has_extension script_extensions filePath = true ->
    (Hybrid.classify content filePath = Hybrid.TemplatingDelegate
     <-> templating_marker content)
    /\ (Hybrid.classify content filePath = Hybrid.ScriptEvaluator
        <-> ~ templating_marker content).

(** The entry point never throws. *)
Definition never_throws (env : Hybrid.environment) : Prop :=
  forall content filePath,
    exists out,
      result (Hybrid.analyzeFileHybrid env content filePath) = Returned out.

(** An unrecognized extension gives the empty list. *)
Definition unrecognized_is_empty (env : Hybrid.environment) : Prop :=
  forall content filePath,
    recognized filePath = false ->
    result (Hybrid.analyzeFileHybrid env content filePath) = Returned [].

(** One missing-label violation for every checked input without a
    resolvable label, and no other. *)
Definition flags_unresolvable_labels : Prop :=
  forall content dom vs,
    result (Html.analyzeHTML_on content (Document dom)) = Returned vs ->
    count_rule "form-input-missing-label" vs
    = count_if (unlabeled_per_spec dom) (visited dom).

(** The batch summary holds the distinct criteria of all files. *)
Definition summary_has_criteria (out : Mcp.batch_output) : Prop :=
  exists key criteria,
    In (key, Mcp.JStrings criteria) (Mcp.batch_summary out)
    /\ forall w,
         In w criteria <->
         exists r v, In r (Mcp.results out) /\ In v (Mcp.violations r)
                     /\ In w (Hybrid.wcag v).

End Spec.

(** ** What the content test finds

    The first literal of the test on the content of a [.js] or [.ts] file
    looks for a text, not for a declaration: the word [import], white
    space, characters of one line, white space, the word [from], white
    space, a quote, the word [react] and a quote.  The three words are found
    in any letter case and the two quotes need not be the same. *)

Module Markers.
Import JsString Spec.

Definition blanks (s : string) : Prop := s <> EmptyString /\ blank s.
Definition is_quote (s : string) : Prop :=
  s = chr dq \/ s = chr sq.

Definition import_text (content : string) : Prop :=
  exists before kw w1 names w2 from w3 q1 runtime q2 after,
    content = before ++ kw ++ w1 ++ names ++ w2 ++ from ++ w3 ++ q1
                ++ runtime ++ q2 ++ after
    /\ toLowerCase kw = "import" /\ blanks w1
    /\ all_chars (fun c => negb (is_line_terminator c)) names
    /\ blanks w2 /\ toLowerCase from = "from" /\ blanks w3
    /\ is_quote q1 /\ toLowerCase runtime = "react" /\ is_quote q2.

(** The texts that send a [.js] or [.ts] file to the delegate: the one
    above, [return] before a capitalized tag, and an arrow before one. *)
Definition marker_text (content : string) : Prop :=
  import_text content \/ return_marker content \/ arrow_marker content.

End Markers.

(** ** What a regular expression matches

    [matches r p s t]: [r] matches the text [s] when [p] is the character
    before it and [t] is the text after it.  The relation gives the set of
    matches; the matcher [Regex.m] explores it in priority order. *)

Module RegexSemantics.
Import JsString Regex.

(** The character before the cursor once [s] has been consumed. *)
Fixpoint last_char (p : option ascii) (s : string) : option ascii :=
  match s with
  | EmptyString => p
  | String c s' => last_char (Some c) s'
  end.

Inductive matches : regex -> option ascii -> string -> string -> Prop :=
| M_Eps p t : matches Eps p EmptyString t
| M_Chr f c p t : f c = true -> matches (Chr f) p (String c EmptyString) t
| M_Cat r1 r2 p s1 s2 t :
    matches r1 p s1 (s2 ++ t) ->
    matches r2 (last_char p s1) s2 t ->
    matches (Cat r1 r2) p (s1 ++ s2) t
| M_AltL r1 r2 p s t : matches r1 p s t -> matches (Alt r1 r2) p s t
| M_AltR r1 r2 p s t : matches r2 p s t -> matches (Alt r1 r2) p s t
| M_StarNil g r p t : matches (Star g r) p EmptyString t
| M_StarCons g r p s1 s2 t :
    s1 <> EmptyString ->
    matches r p s1 (s2 ++ t) ->
    matches (Star g r) (last_char p s1) s2 t ->
    matches (Star g r) p (s1 ++ s2) t
| M_Group n r p s t : matches r p s t -> matches (Group n r) p s t
| M_Start t : matches AssertStart None EmptyString t
| M_End p : matches AssertEnd p EmptyString EmptyString
| M_Word p t :
    xorb (word_opt p) (word_opt (head t)) = true ->
    matches WordBoundary p EmptyString t.

(** What it means for a matcher [step] to find only matches of [r]. *)
Definition sound_for (r : regex)
  (step : mstate -> (mstate -> option mstate) -> option mstate) : Prop :=
  forall st k res,
    step st k = Some res ->
    exists s t c,
      rest st = s ++ t /\ matches r (prev st) s t
      /\ k (MState (last_char (prev st) s) t c) = Some res.

(** A matcher that only looks at what its continuation answers. *)
Definition extensional
  (step : mstate -> (mstate -> option mstate) -> option mstate) : Prop :=
  forall st k1 k2, (forall st', k1 st' = k2 st') -> step st k1 = step st k2.

(** [r] matches the same texts in every context: the texts with [P]. *)
Definition context_free (r : regex) (P : string -> Prop) : Prop :=
  forall p x t, matches r p x t <-> P x.

End RegexSemantics.

(** ** The rule catalogue of the markup evaluator

    The rule and the severity of every [violations.push] of
    [html-analyzer.js], by the phase that pushes it. *)

Module Catalogue.
Import JsString Dom.

Definition document_rules : list (string * string) :=
  [("missing-lang", "error"); ("title-empty", "error");
   ("missing-main-landmark", "error"); ("marquee-element", "error")].

Definition traversal_rules : list (string * string) :=
  [("img-missing-alt", "error"); ("img-redundant-alt", "warning");
   ("form-input-missing-label", "error"); ("placeholder-as-label", "error");
   ("missing-autocomplete", "warning"); ("required-not-indicated", "warning");
   ("button-empty", "error"); ("link-empty", "error");
   ("link-non-descriptive", "warning");
   ("link-new-window-no-warning", "warning");
   ("iframe-missing-title", "error"); ("div-as-button", "error");
   ("positive-tabindex", "error"); ("heading-empty", "error");
   ("table-missing-headers", "error"); ("autoplay-media", "error");
   ("media-no-captions", "error"); ("redundant-role", "warning");
   ("invalid-aria-role", "error"); ("missing-aria-required", "error")].

(** The rules of the check on the [role] attribute. *)
Definition role_rules : list (string * string) :=
  [("redundant-role", "warning"); ("invalid-aria-role", "error");
   ("missing-aria-required", "error")].

Definition id_rules : list (string * string) :=
  [("duplicate-id", "error")].
Definition heading_rules : list (string * string) :=
  [("heading-hierarchy", "warning")].
Definition radio_rules : list (string * string) :=
  [("radio-missing-fieldset", "warning")].
Definition navigation_rules : list (string * string) :=
  [("non-semantic-navigation", "warning")].

Definition post_traversal_rules : list (string * string) :=
  id_rules ++ heading_rules ++ radio_rules ++ navigation_rules.

Definition outline_rules : list (string * string) :=
  [("focus-outline-removed", "error")].

Definition all_rules : list (string * string) :=
  document_rules ++ traversal_rules ++ post_traversal_rules ++ outline_rules.

(** [v] carries a rule of the list, with the severity listed for it. *)
Definition pushed_by (rules : list (string * string)) (v : Html.violation)
  : bool :=
  existsb (fun r => (String.eqb (fst r) (Html.ruleId v)
                     && String.eqb (snd r) (Html.severity v))%bool) rules.

(** A tag whose [role] makes the walk throw: the role is named like a
    property of [Object.prototype]. *)
Definition throwing_role (a : attrs) : bool :=
  match attr a "role" with
  | Some role =>
      (truthy role
       && match JsObject.get Html.roleRequiredAria role with
          | JsObject.Inherited => true
          | _ => false
          end)%bool
  | None => false
  end.

(** The walk only adds violations, and only of its own rules. *)
Definition appends (st st' : Html.tstate) : Prop :=
  exists vs, Html.violations st' = (Html.violations st ++ vs)%list
             /\ Forall (fun v => pushed_by traversal_rules v = true) vs.

(** The walk adds, for [rule], what [weight] says of every visited tag. *)
Definition counts (rule : string)
  (weight : string * attrs * list node -> nat)
  (nodes : list node) (st st' : Html.tstate) : Prop :=
  Spec.count_rule rule (Html.violations st')
  = (Spec.count_rule rule (Html.violations st)
     + list_sum (map weight (Spec.visited nodes)))%nat.

(** No visited tag makes the walk throw. *)
Definition safe (nodes : list node) : Prop :=
  Forall (fun t => throwing_role (snd (fst t)) = false) (Spec.visited nodes).

End Catalogue.

(** ** Document order

    The nodes the post-traversal collectors go through, in their order: every
    node, then what is below it. *)

Module DocumentOrder.
Import JsString Dom.

Fixpoint descendants_node (n : node) : list node :=
  n :: match n with
       | Element _ _ _ children | CData children =>
           (fix descendants (nodes : list node) : list node :=
              match nodes with
              | [] => []
              | c :: nodes' => (descendants_node c ++ descendants nodes')%list
              end) children
       | _ => []
       end.

Fixpoint descendants (nodes : list node) : list node :=
  match nodes with
  | [] => []
  | c :: nodes' => (descendants_node c ++ descendants nodes')%list
  end.

(** The non-empty [id] of a tag. *)
Definition id_of (n : node) : option string :=
  match n with
  | Element Tag _ a _ =>
      match attr a "id" with
      | Some id => if truthy id then Some id else None
      | None => None
      end
  | _ => None
  end.

(** The identifiers of a document, one per occurrence. *)
Definition ids (dom : list node) : list string :=
  Html.filter_map id_of (descendants dom).

(** The level of a heading tag ([None] inside is [NaN]). *)
Definition heading_level_of (n : node) : option (option Z) :=
  match n with
  | Element Tag name _ _ =>
      if Regex.test Html.re_heading name
      then Some (parseInt (take 1 (drop 1 name)))
      else None
  | _ => None
  end.

(** The heading levels of a document, in document order. *)
Definition heading_levels (dom : list node) : list (option Z) :=
  Html.filter_map heading_level_of (descendants dom).

(** The number of headings that skip a level after their predecessor. *)
Fixpoint jumps_after (prev : option Z) (levels : list (option Z)) : nat :=
  match levels with
  | [] => O
  | curr :: levels' =>
      ((if Html.skips prev curr then 1 else 0) + jumps_after curr levels')%nat
  end.

Definition jumps (levels : list (option Z)) : nat :=
  match levels with
  | [] => O
  | first :: levels' => jumps_after first levels'
  end.

(** The occurrences that follow an earlier occurrence of the same
    identifier ([seen] holds the identifiers met before). *)
Fixpoint repeated (seen ids : list string) : list string :=
  match ids with
  | [] => []
  | id :: ids' =>
      if existsb (String.eqb id) seen then id :: repeated seen ids'
      else repeated (seen ++ [id])%list ids'
  end.

Definition duplicate_message (id : string) : string :=
  "Duplicate ID " ++ Html.q ++ id ++ Html.q ++ " found".

Definition duplicate_report (ln : Z) (id : string) : Html.violation :=
  Html.report "duplicate-id" "error" ln (duplicate_message id).

Definition names_duplicate (id : string) (v : Html.violation) : bool :=
  (String.eqb (Html.ruleId v) "duplicate-id"
   && String.eqb (Html.message v) (duplicate_message id))%bool.

Fixpoint occurrences (id : string) (ids : list string) : nat :=
  match ids with
  | [] => O
  | x :: ids' =>
      ((if String.eqb x id then 1 else 0) + occurrences id ids')%nat
  end.

End DocumentOrder.

(** ** Sample inputs

    A document is given as its text together with the tree htmlparser2
    builds for it; the other collaborators of the dispatcher are given as
    the answers they return. *)

Module Examples.
Import JsString Dom Hybrid.

Definition lf : string := chr nl.

Definition parser_answering (dom : list node) : string -> parsed :=
  fun _ => Document dom.

(** An analyzer that finds nothing. *)
Definition silent : string -> string -> logged (list Html.violation) :=
  fun _ _ => Logged [] (Returned []).

Definition lint_silent
  : string -> string -> outcome (option (list lint_message)) :=
  fun _ _ => Returned (Some []).

Definition env_for (dom : list node) : environment :=
  Environment (parser_answering dom) silent silent lint_silent.

(** *** An image without a text alternative *)

Definition img_text : string := Html.qq "<img src=`logo.png` />".
Definition img_dom : list node :=
  [Element Tag "img" [("src", "logo.png")] []].

(** Modelled from the spec: the Fast Pre-Pass Evaluator, whose source
    ([regex-analyzer.js]) is not available.  Of its checks only the one that
    the repository's test suite fixes on a concrete text is modelled: the
    text [img_text] of a markup file has a finding of the missing-alt rule.
    No other text is given findings. *)
Definition prePass_sample (content filePath : string) : list finding :=
  if String.eqb content img_text
  then [Finding "img-missing-alt" "error"
          "Image is missing an alt attribute"
          "Image is missing an alt attribute" 1 1 None None ["1.1.1"]
          None []]
  else [].

(** *** A role named like a property of [Object.prototype] *)

Definition ctor_text : string := "<div role='constructor'></div>".
Definition ctor_dom : list node :=
  [Element Tag "div" [("role", "constructor")] []].

(** *** A delegate whose engine throws, and one that reports *)

Definition failing_env : environment :=
  Environment (parser_answering []) silent silent
    (fun _ _ => Thrown "Cannot read config").

Definition jsx_text : string := "const logo = <img src='a.png' />;".

Definition alt_text_message : lint_message :=
  LintMessage (Some "jsx-a11y/alt-text") 2
    "img elements must have an alt prop, either with meaningful text, or an empty string for decorative images."
    1 14 (Some 1) (Some 33).

Definition reporting_env : environment :=
  Environment (parser_answering []) silent silent
    (fun _ _ => Returned (Some [alt_text_message])).

(** *** Script files with and without an import of the runtime *)

(** An import of [react] on one line. *)
Definition one_line_import : string :=
  "import React from 'react';" ++ lf ++ "export default React.version;" ++ lf.

(** The same module imported by a declaration written on three lines. *)
Definition multi_line_import : string :=
  "import {" ++ lf ++ "  useState" ++ lf ++ "} from 'react';" ++ lf
    ++ "export default useState;" ++ lf.

(** The module imported for its effects alone. *)
Definition bare_import : string :=
  "import 'react';" ++ lf ++ "document.title = 'Start';" ++ lf.

(** A comment that speaks of the module; the file has no import. *)
Definition comment_text : string :=
  "// Import the helpers From 'React' once the build allows it" ++ lf
    ++ "document.title = 'Start';" ++ lf.

(** *** A radio group inside a fieldset *)

Definition radio_text : string :=
  "<fieldset><legend>Plan</legend>"
    ++ "<input type='radio' name='plan' value='a'>"
    ++ "<input type='radio' name='plan' value='b'></fieldset>".
Definition radio_dom : list node :=
  [Element Tag "fieldset" []
     [Element Tag "legend" [] [Text "Plan"];
      Element Tag "input" [("type", "radio"); ("name", "plan"); ("value", "a")] [];
      Element Tag "input" [("type", "radio"); ("name", "plan"); ("value", "b")] []]].

(** *** An input with an [id] and no label anywhere *)

Definition input_text : string := "<input id='q' type='search'>".
Definition input_dom : list node :=
  [Element Tag "input" [("id", "q"); ("type", "search")] []].

(** *** Headings h1, h2, h4, then two empty lines and a paragraph *)

Definition headings_text : string :=
  "<h1>Guide</h1>" ++ lf ++ "<h2>Setup</h2>" ++ lf ++ "<h4>Details</h4>"
    ++ lf ++ lf ++ lf ++ " <p>End</p>".
Definition headings_dom : list node :=
  [Element Tag "h1" [] [Text "Guide"]; Text lf;
   Element Tag "h2" [] [Text "Setup"]; Text lf;
   Element Tag "h4" [] [Text "Details"]; Text (lf ++ lf ++ lf ++ " ");
   Element Tag "p" [] [Text "End"]].

(** The same with h3 in place of h4. *)
Definition headings_ok_text : string :=
  "<h1>Guide</h1>" ++ lf ++ "<h2>Setup</h2>" ++ lf ++ "<h3>Details</h3>"
    ++ lf ++ lf ++ lf ++ " <p>End</p>".
Definition headings_ok_dom : list node :=
  [Element Tag "h1" [] [Text "Guide"]; Text lf;
   Element Tag "h2" [] [Text "Setup"]; Text lf;
   Element Tag "h3" [] [Text "Details"]; Text (lf ++ lf ++ lf ++ " ");
   Element Tag "p" [] [Text "End"]].

(** *** Two and three elements with the same [id] *)

Definition two_ids_text : string :=
  "<div id='x'>one</div>" ++ lf ++ "<div id='x'>two</div>"
    ++ lf ++ lf ++ lf ++ " <p>End</p>".
Definition two_ids_dom : list node :=
  [Element Tag "div" [("id", "x")] [Text "one"]; Text lf;
   Element Tag "div" [("id", "x")] [Text "two"];
   Text (lf ++ lf ++ lf ++ " ");
   Element Tag "p" [] [Text "End"]].

Definition three_ids_text : string :=
  "<div id='x'>one</div>" ++ lf ++ "<div id='x'>two</div>" ++ lf
    ++ "<div id='x'>three</div>" ++ lf ++ lf ++ " <p>End</p>".
Definition three_ids_dom : list node :=
  [Element Tag "div" [("id", "x")] [Text "one"]; Text lf;
   Element Tag "div" [("id", "x")] [Text "two"]; Text lf;
   Element Tag "div" [("id", "x")] [Text "three"];
   Text (lf ++ lf ++ " ");
   Element Tag "p" [] [Text "End"]].

(** What a violation shows of itself in the examples. *)
Definition brief (v : Html.violation) : string * string * Z * string :=
  (Html.ruleId v, Html.severity v, Html.line v, Html.message v).

Definition of_rule (rule : string) (l : logged (list Html.violation))
  : list (string * string * Z * string) :=
  match result l with
  | Returned vs =>
      map brief (filter (fun v => String.eqb (Html.ruleId v) rule) vs)
  | Thrown _ => []
  end.

(** *** A batch of one markup file *)

Definition batch_files : list Mcp.file :=
  [Mcp.File "index.html" img_text].

End Examples.

(** ** The shape of a pushed violation

    Every [violations.push] of the markup evaluator builds the same object:
    the rule, the severity, a line, column 1, the message and the two table
    entries of the rule.  [reported_at ln v] says that [v] is such an object
    for the line [ln]. *)

Module Report.
Import JsString Dom.

Definition reported_at (ln : Z) (v : Html.violation) : Prop :=
  v = Html.report (Html.ruleId v) (Html.severity v) ln (Html.message v).

(** [ln] is the number of a line of [content]. *)
Definition within (content : string) (ln : Z) : Prop :=
  1 <= ln <= Z.of_nat (List.length (Html.lines content)).

(** A violation built by a push, for a line of the text. *)
Definition well_placed (content : string) (v : Html.violation) : Prop :=
  exists ln, within content ln /\ reported_at ln v.

(** What the walk keeps true: the line counter is a line of the text, and
    so is the line of everything pushed so far. *)
Definition placed_state (content : string) (st : Html.tstate) : Prop :=
  within content (Html.lineNumber st)
  /\ Forall (well_placed content) (Html.violations st).

(** The character at position [i], if there is one. *)
Fixpoint char_at (s : string) (i : nat) : option ascii :=
  match s, i with
  | EmptyString, _ => None
  | String c _, O => Some c
  | String _ s', S i' => char_at s' i'
  end.

End Report.

(** ** What single checks of the walk look at

    The conditions under which [traverse] pushes some of its rules, as
    tests on a visited tag (its lower-case name, its attributes and its
    children). *)

Module Checks.
Import JsString Dom.

(** An [img] without an [alt] attribute; an empty [alt] is an attribute. *)
Definition img_without_alt (t : string * attrs * list node) : bool :=
  let '(tagName, a, _) := t in
  (String.eqb tagName "img" && negb (defined (attr a "alt")))%bool.

(** A checked input that has a placeholder and nothing the analyzer takes
    for a label. *)
Definition placeholder_only (t : string * attrs * list node) : bool :=
  let '(tagName, a, _) := t in
  (Html.is_checked_input tagName a
   && truthy_opt (attr a "placeholder")
   && negb (Html.input_hasLabel a))%bool.

(** A [video] or [audio] with an [autoplay] attribute and neither a
    non-empty [muted] nor a non-empty [controls]. *)
Definition loud_autoplay (t : string * attrs * list node) : bool :=
  let '(tagName, a, _) := t in
  (Html.is_media tagName && defined (attr a "autoplay")
   && negb (truthy_opt (attr a "muted"))
   && negb (truthy_opt (attr a "controls")))%bool.

(** The rules that have entries in both tables of the analyzer although no
    [violations.push] names them. *)
Definition unreported_rules : list string :=
  ["img-empty-alt-not-decorative"; "click-without-keyboard";
   "missing-lang-foreign"].

(** The message of the [TypeError] of the role check. *)
Definition not_iterable : string := "required is not iterable".

(** A visited tag whose role makes the role check throw. *)
Definition throws_at (t : string * attrs * list node) : Prop :=
  Catalogue.throwing_role (snd (fst t)) = true.

(** What the walk does of a node with respect to exceptions: it throws
    nothing but the exception of the role check, and throws it when one of
    the tags it visits has a throwing role. *)
Definition raises (content : string) (n : node) : Prop :=
  (forall st e,
      Html.traverse_node content n st = Thrown e -> e = not_iterable)
  /\ (forall st,
         Exists throws_at (Spec.visited_node n) ->
         Html.traverse_node content n st = Thrown not_iterable).

(** Both tables of the analyzer have a non-empty entry for the rule. *)
Definition has_entries (rule : string) : bool :=
  match Html.violationToWCAG rule, Html.fixSuggestions rule with
  | Some (_ :: _), Some (_ :: _) => true
  | _, _ => false
  end.

End Checks.

(** ** More sample inputs *)

Module Samples.
Import JsString Dom Hybrid.

(** The violations of an answer, when there is one. *)
Definition answer (content : string) (dom : list node)
  : list Html.violation :=
  match result (Html.analyzeHTML_on content (Document dom)) with
  | Returned vs => vs
  | Thrown _ => []
  end.

(** A video that plays by itself, with the two attributes written without a
    value: the parser gives them the empty string. *)
Definition video_text : string := "<video autoplay muted controls></video>".
Definition video_dom : list node :=
  [Element Tag "video"
     [("autoplay", EmptyString); ("muted", EmptyString);
      ("controls", EmptyString)] []].

(** An input with a placeholder only. *)
Definition placeholder_text : string :=
  "<input type='text' placeholder='Name'>".
Definition placeholder_dom : list node :=
  [Element Tag "input" [("type", "text"); ("placeholder", "Name")] []].

(** A role that needs a property the tag does not have. *)
Definition checkbox_attrs : attrs := [("role", "checkbox")].

(** Two lines, the second one starting with an image. *)
Definition two_lines_text : string :=
  "<p>Logo</p>" ++ Examples.lf ++ "<img src='logo.png'>".
Definition two_lines_dom : list node :=
  [Element Tag "p" [] [Text "Logo"]; Text Examples.lf;
   Element Tag "img" [("src", "logo.png")] []].

End Samples.

(** ** File names *)

Module Naming.
Import JsString.

Definition is_slash (c : ascii) : bool := Ascii.eqb c "/".
Definition is_dot (c : ascii) : bool := Ascii.eqb c ".".

(** Neither a separator nor a dot. *)
Definition plain_char (c : ascii) : bool :=
  (negb (is_slash c) && negb (is_dot c))%bool.

Definition plain (s : string) : Prop := Spec.all_chars plain_char s.
Definition no_slash (s : string) : Prop :=
  Spec.all_chars (fun c => negb (is_slash c)) s.
Definition no_dot (s : string) : Prop :=
  Spec.all_chars (fun c => negb (is_dot c)) s.

(** What stands before a base name: nothing, or a path that ends with a
    separator. *)
Definition directory (dir : string) : Prop :=
  dir = EmptyString \/ exists d, dir = d ++ "/".

End Naming.

(** ** The configuration of the delegate: [linterConfig.rules] of
    [src/core/hybrid-analyzer.js] *)

Module Linter.
Import JsString Hybrid.

Definition linterConfig_rules : list (string * string) :=
  [("jsx-a11y/alt-text", "error");
   ("jsx-a11y/anchor-has-content", "error");
   ("jsx-a11y/anchor-is-valid", "error");
   ("jsx-a11y/aria-activedescendant-has-tabindex", "error");
   ("jsx-a11y/aria-props", "error");
   ("jsx-a11y/aria-proptypes", "error");
   ("jsx-a11y/aria-role", "error");
   ("jsx-a11y/aria-unsupported-elements", "error");
   ("jsx-a11y/autocomplete-valid", "error");
   ("jsx-a11y/click-events-have-key-events", "error");
   ("jsx-a11y/control-has-associated-label", "error");
   ("jsx-a11y/heading-has-content", "error");
   ("jsx-a11y/html-has-lang", "error");
   ("jsx-a11y/iframe-has-title", "error");
   ("jsx-a11y/img-redundant-alt", "error");
   ("jsx-a11y/interactive-supports-focus", "error");
   ("jsx-a11y/label-has-associated-control", "error");
   ("jsx-a11y/media-has-caption", "error");
   ("jsx-a11y/mouse-events-have-key-events", "error");
   ("jsx-a11y/no-access-key", "error");
   ("jsx-a11y/no-autofocus", "error");
   ("jsx-a11y/no-distracting-elements", "error");
   ("jsx-a11y/no-interactive-element-to-noninteractive-role", "error");
   ("jsx-a11y/no-noninteractive-element-interactions", "error");
   ("jsx-a11y/no-noninteractive-element-to-interactive-role", "error");
   ("jsx-a11y/no-noninteractive-tabindex", "error");
   ("jsx-a11y/no-redundant-roles", "error");
   ("jsx-a11y/no-static-element-interactions", "error");
   ("jsx-a11y/role-has-required-aria-props", "error");
   ("jsx-a11y/role-supports-aria-props", "error");
   ("jsx-a11y/scope", "error");
   ("jsx-a11y/tabindex-no-positive", "error");
   ("react/react-in-jsx-scope", "off");
   ("react/prop-types", "off");
   ("react/jsx-uses-react", "off");
   ("react/jsx-uses-vars", "error")].

(** The rule is named in the configuration. *)
Definition configured (rule : string) : bool :=
  existsb (fun r => String.eqb (fst r) rule) linterConfig_rules.

(** The filter of [analyzeFileWithESLint] on a message. *)
Definition kept (msg : lint_message) : bool :=
  match msg_ruleId msg with
  | Some rule => (truthy rule && startsWith "jsx-a11y/" rule)%bool
  | None => false
  end.

(** The three tables of the dispatcher have an entry for the rule. *)
Definition has_entries (rule : string) : bool :=
  match ruleToWCAG rule, fixDescriptions rule, fixSuggestions rule with
  | Some (_ :: _), Some _, Some (_ :: _) => true
  | _, _, _ => false
  end.

(** None of them has. *)
Definition has_no_entry (rule : string) : bool :=
  match ruleToWCAG rule, fixDescriptions rule, fixSuggestions rule with
  | None, None, None => true
  | _, _, _ => false
  end.

(** The defaults of the reshaping. *)
Definition default_fix : string := "Review WCAG 2.2 documentation".
Definition default_suggestions : list string :=
  ["Review WCAG 2.2 documentation";
   "Consult accessibility team for guidance"].

(** A message of a fatal parsing error: it has no rule. *)
Definition parse_error : lint_message :=
  LintMessage None 2 "Parsing error: Unexpected token" 1 7 None None.

(** A message of a rule of the plugin that the configuration does not name,
    as a configuration comment in the linted text can turn on. *)
Definition lang_message : lint_message :=
  LintMessage (Some "jsx-a11y/lang") 1 "lang attribute must have a valid value."
    3 7 (Some 3) (Some 21).

Definition env_answering (messages : list lint_message) : environment :=
  Environment (Examples.parser_answering []) Examples.silent Examples.silent
    (fun _ _ => Returned (Some messages)).

End Linter.

(** ** The tools of [src/mcp-server.js]

    The request handler of [CallToolRequestSchema] and the two handlers that
    the batch tool leaves: [handleCheckAccessibility] and
    [handleSuggestFix].  A handler's answer is given as the object it
    serializes. *)

Module McpTools.
Import JsString JsObject Hybrid Mcp.

Inductive error_code : Type :=
| MethodNotFound
| InvalidParams
| InternalError.

(** What a handler throws: an [McpError] with its code and message, or any
    other error with its message. *)
Inductive exception : Type :=
| McpError (code : error_code) (message : string)
| OtherError (message : string).

Inductive response (A : Type) : Type :=
| Responded (a : A)
| Rejected (e : exception).
Arguments Rejected {A} e.

(** *** The request handler

    [Args] is the [arguments] object of the request and [Result] what a
    handler returns; the three handlers are the methods of the server. *)

Section CallTool.
Variables Args Result : Type.
Variables handleCheckAccessibility handleCheckAccessibilityBatch
  handleSuggestFix : Args -> response Result.

(** The [switch] on the tool's name. *)
Definition switch (name : string) (args : Args) : response Result :=
  if String.eqb name "check_accessibility"
  then handleCheckAccessibility args
  else if String.eqb name "check_accessibility_batch"
  then handleCheckAccessibilityBatch args
  else if String.eqb name "suggest_fix"
  then handleSuggestFix args
  else Rejected (McpError MethodNotFound ("Unknown tool: " ++ name)).

(** The [try] around it: an [McpError] is thrown again, any other error is
    replaced. *)
Definition CallTool (name : string) (args : Args) : response Result :=
  match switch name args with
  | Responded r => Responded r
  | Rejected (McpError code message) => Rejected (McpError code message)
  | Rejected (OtherError message) =>
      Rejected (McpError InternalError
                  ("Tool execution failed: " ++ message))
  end.

End CallTool.

Definition tool_names : list string :=
  ["check_accessibility"; "check_accessibility_batch"; "suggest_fix"].

(** *** [handleCheckAccessibility] *)

(** The two functions of [fs] the handler calls. *)
Record filesystem : Type := FileSystem {
  existsSync : string -> bool;
  readFileSync : string -> outcome string
}.

(** The chain of tests on the lower-case extension. *)
Definition fileType (ext : string) : string :=
  if existsb (String.eqb ext) [".jsx"] then "jsx"
  else if existsb (String.eqb ext) [".tsx"] then "tsx"
  else if existsb (String.eqb ext) [".js"] then "js"
  else if existsb (String.eqb ext) [".ts"] then "ts"
  else if existsb (String.eqb ext) [".html"; ".htm"] then "html"
  else if existsb (String.eqb ext) [".css"] then "css"
  else if existsb (String.eqb ext) [".scss"] then "scss"
  else "unknown".

Record check_output : Type := CheckOutput {
  out_filePath : string;
  out_fileType : string;
  out_violations : list finding;
  out_summary : object
}.

(** [content] is [None] when the request has no [content] property.  An
    error of [readFileSync] or of the analysis leaves the handler as it is
    thrown, with its message. *)
Definition handleCheckAccessibility (env : environment) (fs : filesystem)
  (filePath : string) (content : option string) : response check_output :=
  let fileContent :=
    if truthy_opt content
    then Responded (or_default content EmptyString)
    else if negb (existsSync fs filePath)
    then Rejected (McpError InvalidParams ("File not found: " ++ filePath))
    else match readFileSync fs filePath with
         | Returned text => Responded text
         | Thrown message => Rejected (OtherError message)
         end in
  match fileContent with
  | Responded fileContent =>
      match result (analyzeFileHybrid env fileContent filePath) with
      | Returned violations =>
          Responded
            (CheckOutput filePath
               (fileType (toLowerCase (Path.extname filePath)))
               violations (single_summary violations))
      | Thrown message => Rejected (OtherError message)
      end
  | Rejected e => Rejected e
  end.

(** A number of a summary object. *)
Definition number (o : object) (key : string) : Z :=
  match lookup o key with
  | Some (JNumber n) => n
  | _ => 0
  end.

(** Its array of strings. *)
Definition strings (o : object) (key : string) : list string :=
  match lookup o key with
  | Some (JStrings l) => l
  | _ => []
  end.

(** *** [handleSuggestFix] *)

Definition fixes_entries : list (string * list string) :=
  [("img-missing-alt",
    ["Add descriptive alt text: <img src=`...` alt=`Description of image content`>";
     "For decorative images, use alt=``: <img src=`...` alt=``>";
     "Consider if the image conveys meaningful information"]);
   ("div-button",
    ["Replace with semantic button: <button onClick={handler}>Text</button>";
     "If div is required, add: role=`button` tabIndex={0} onKeyDown={keyHandler}";
     "Ensure keyboard accessibility with Enter and Space key handlers"]);
   ("button-missing-accessible-name",
    ["Add text content: <button>Click me</button>";
     "Or add aria-label: <button aria-label=`Description`>...</button>";
     "For icon buttons, always include accessible text or label"]);
   ("input-missing-label",
    ["Add label element: <label htmlFor=`inputId`>Label</label><input id=`inputId` />";
     "Or use aria-label: <input aria-label=`Field description` />";
     "Labels help all users understand form fields"]);
   ("aria-invalid-role",
    ["Use a valid ARIA role from the ARIA specification";
     "Common roles: button, link, menuitem, tab, checkbox, radio";
     "See: https://www.w3.org/TR/wai-aria-1.2/#roles"]);
   ("missing-keyboard-handler",
    ["Add onKeyDown handler: onKeyDown={(e) => { if (e.key === `Enter` || e.key === ` `) { handleClick(); } }}";
     "Or use semantic <button> element which handles keyboard automatically"]);
   ("color-contrast-insufficient",
    ["Use darker text or lighter background to achieve 4.5:1 contrast";
     "For large text (18pt+), minimum is 3:1";
     "Use online contrast checkers to verify: https://webaim.org/resources/contrastchecker/"])].

(** The object literal [fixes]. *)
Definition fixes : list (string * list string) :=
  map (fun kv => (fst kv, map Html.qq (snd kv))) fixes_entries.

Definition generic_suggestions : list string :=
  ["Review WCAG 2.2 documentation for this violation";
   "Consult with accessibility team for specific guidance"].

(** The value of [suggestions]: an array of texts or, for an identifier
    named like a property of [Object.prototype], that property (a function,
    or the prototype itself), which is truthy and so is not replaced. *)
Inductive suggestions_value : Type :=
| Suggestions (texts : list string)
| PrototypeProperty.

Record fix_output : Type := FixOutput {
  fix_violationId : string;
  fix_code : string;
  fix_suggestions : suggestions_value
}.

Definition handleSuggestFix (violationId code : string)
  : response fix_output :=
  Responded
    (FixOutput violationId code
       (match get fixes violationId with
        | Own texts => Suggestions texts
        | Inherited => PrototypeProperty
        | Undefined => Suggestions generic_suggestions
        end)).

(** The numbers of the batch summary. *)
Definition batch_keys : list string :=
  ["filesChecked"; "filesWithViolations"; "totalViolations"; "totalErrors";
   "totalWarnings"].

Definition batch_number (env : environment) (files : list file)
  (key : string) : Z :=
  number (batch_summary (handleCheckAccessibilityBatch env files)) key.

(** *** Samples *)

Definition empty_disk : filesystem :=
  FileSystem (fun _ => false) (fun _ => Thrown "ENOENT").

Definition disk_with (path text : string) : filesystem :=
  FileSystem (String.eqb path)
    (fun p => if String.eqb path p then Returned text else Thrown "ENOENT").

(** Handlers that answer with a fixed response. *)
Definition answering {Args Result : Type} (r : response Result)
  : Args -> response Result :=
  fun _ => r.

End McpTools.

(** ** Configuration: [ConfigManager], with the types of [ConfigFile]

    [mergeWithDefaults] and [validateConfig]; objects are given as the list
    of their properties, in the order in which they were set. *)

Module Config.
Import JsString.

(** The value of an option of a rule. *)
Inductive value : Type :=
| VBool (b : bool)
| VNumber (n : Z)
| VString (s : string).

Record rule_config : Type := RuleConfig {
  rule_enabled : bool;
  rule_severity : string;
  rule_options : list (string * value)
}.

Record enforcement : Type := Enforcement {
  enabled : bool;
  storybookUrl : option string;
  requireApprovedComponents : bool;
  allowedExceptions : list string;
  cacheComponents : bool;
  cacheTTL : Z
}.

Record thresholds : Type := Thresholds {
  threshold_error : Z;
  threshold_warning : Z
}.

Record ConfigFile : Type := Build_ConfigFile {
  schema : option string;
  wcagLevel : string;
  wcagVersion : string;
  strictMode : bool;
  ldsEnforcement : enforcement;
  rules : list (string * rule_config);
  excludedRules : list string;
  failureThresholds : thresholds;
  ignore : list string
}.

(** [Partial<ConfigFile>]: every property may be missing. *)
Record partial : Type := Partial {
  p_schema : option string;
  p_wcagLevel : option string;
  p_wcagVersion : option string;
  p_strictMode : option bool;
  p_ldsEnforcement : option enforcement;
  p_rules : option (list (string * rule_config));
  p_excludedRules : option (list string);
  p_failureThresholds : option thresholds;
  p_ignore : option (list string)
}.

Definition DEFAULT_CONFIG : ConfigFile :=
  Build_ConfigFile None "AA" "2.2" true
    (Enforcement true (Some "https://storybook.lilly.internal") true
       ["src/legacy/**"] true 3600)
    [("aria-required", RuleConfig true "error" []);
     ("keyboard-nav",
      RuleConfig true "error"
        [("checkTabIndex", VBool true); ("requireFocusStyles", VBool true)]);
     ("semantic-html", RuleConfig true "error" []);
     ("alt-text", RuleConfig true "error" []);
     ("lds-components",
      RuleConfig true "warning" [("suggestAlternatives", VBool true)]);
     ("heading-hierarchy", RuleConfig true "warning" []);
     ("form-labels", RuleConfig true "error" []);
     ("skip-links", RuleConfig true "warning" []);
     ("focus-visible", RuleConfig true "warning" [])]
    ["color-contrast"]
    (Thresholds 0 10)
    ["src/**/*.test.tsx"; "src/**/*.stories.tsx"; "node_modules/**";
     "dist/**"; "build/**"].

(** [o[k] = v] on an object. *)
Fixpoint set {V} (k : string) (v : V) (o : list (string * V))
  : list (string * V) :=
  match o with
  | [] => [(k, v)]
  | (k', v') :: o' =>
      if String.eqb k' k then (k', v) :: o'
      else (k', v') :: set k v o'
  end.

(** The spread of [b] after [a] in an object literal. *)
Definition spread {V} (a b : list (string * V)) : list (string * V) :=
  fold_left (fun o kv => set (fst kv) (snd kv) o) b a.

Definition or_else {A} (o : option A) (d : A) : A :=
  match o with Some a => a | None => d end.

Definition first_of {A} (o d : option A) : option A :=
  match o with Some a => Some a | None => d end.

Definition mergeWithDefaults (config : partial) (defaults : ConfigFile)
  : ConfigFile :=
  Build_ConfigFile
    (first_of (p_schema config) (schema defaults))
    (or_else (p_wcagLevel config) (wcagLevel defaults))
    (or_else (p_wcagVersion config) (wcagVersion defaults))
    (or_else (p_strictMode config) (strictMode defaults))
    (match p_ldsEnforcement config with
     | Some e =>
         Enforcement (enabled e)
           (first_of (storybookUrl e)
              (storybookUrl (ldsEnforcement defaults)))
           (requireApprovedComponents e) (allowedExceptions e)
           (cacheComponents e) (cacheTTL e)
     | None => ldsEnforcement defaults
     end)
    (spread (rules defaults) (or_else (p_rules config) []))
    (or_else (p_excludedRules config) (excludedRules defaults))
    (or_else (p_failureThresholds config) (failureThresholds defaults))
    (ignore defaults ++ or_else (p_ignore config) [])%list.

(** [validateConfig] on the current configuration; [validUrl] says whether
    [new URL] accepts a text. *)
Definition validateConfig (validUrl : string -> bool) (config : ConfigFile)
  : bool * list string :=
  let errors :=
    ((if negb (existsb (String.eqb (wcagLevel config)) ["A"; "AA"; "AAA"])
      then ["Invalid wcagLevel. Must be A, AA, or AAA"] else [])
     ++ (if negb (startsWith "2." (wcagVersion config))
         then ["Invalid wcagVersion. Must start with 2."] else [])
     ++ (match storybookUrl (ldsEnforcement config) with
         | Some url =>
             if (truthy url && negb (validUrl url))%bool
             then ["Invalid ldsEnforcement.storybookUrl"] else []
         | None => []
         end)
     ++ (if ((threshold_error (failureThresholds config) <? 0)
             || (threshold_warning (failureThresholds config) <? 0))%bool
         then ["Failure thresholds must be non-negative numbers"]
         else []))%list in
  (Nat.eqb (List.length errors) 0, errors).

(** A configuration file without any property. *)
Definition nothing : partial :=
  Partial None None None None None None None None None.

(** A complete configuration as a file holds it once it was saved. *)
Definition complete (c : ConfigFile) : partial :=
  Partial (schema c) (Some (wcagLevel c)) (Some (wcagVersion c))
    (Some (strictMode c)) (Some (ldsEnforcement c)) (Some (rules c))
    (Some (excludedRules c)) (Some (failureThresholds c)) (Some (ignore c)).

(** The property [k] of an object. *)
Definition property {V} (o : list (string * V)) (k : string) : option V :=
  JsObject.lookup o k.

(** A file that turns one rule off and ignores one more directory. *)
Definition team_file : partial :=
  Partial None None None None None
    (Some [("skip-links", RuleConfig false "warning" [])])
    None None (Some ["vendor/**"]).

End Config.

(** ** The design-system integration: [LDSIntegration], with the types
    [LDSComponent], [ComponentProp], [AccessibilityRequirement] and
    [LDSValidationResult] *)

Module Lds.
Import JsString JsObject.

Record ComponentProp : Type := ComponentProp_ {
  prop_name : string;
  prop_type : string;
  prop_required : bool;
  prop_description : string;
  accessibilityNotes : option string
}.

Record AccessibilityRequirement : Type := AccessibilityRequirement_ {
  criterion : string;
  level : string;
  req_description : string;
  req_required : bool;
  testable : bool
}.

Record LDSComponent : Type := LDSComponent_ {
  name : string;
  description : string;
  props : list ComponentProp;
  accessibilityRequirements : list AccessibilityRequirement;
  storyUrl : option string;
  lastUpdated : string
}.

Record LDSValidationResult : Type := LDSValidationResult_ {
  component : string;
  valid : bool;
  issues : list string;
  suggestions : list string;
  alternatives : list string
}.

(** *** The values of the properties passed to a component

    Numbers are given as integers. *)
Inductive jsval : Type :=
| JUndefined
| JNull
| JBool (b : bool)
| JNum (n : Z)
| JStr (s : string)
| JFunction
| JObject.

Definition typeof (v : jsval) : string :=
  match v with
  | JUndefined => "undefined"
  | JNull => "object"
  | JBool _ => "boolean"
  | JNum _ => "number"
  | JStr _ => "string"
  | JFunction => "function"
  | JObject => "object"
  end.

Definition truthy_val (v : jsval) : bool :=
  match v with
  | JUndefined | JNull => false
  | JBool b => b
  | JNum n => negb (n =? 0)
  | JStr s => truthy s
  | JFunction | JObject => true
  end.

(** The entries of the [props] object, in the order of [Object.entries]. *)
Definition properties : Type := list (string * jsval).

(** [key in props] and [props[key]]: the object has [Object.prototype]
    behind it. *)
Definition has_property (p : properties) (key : string) : bool :=
  match get p key with
  | Undefined => false
  | _ => true
  end.

Definition read (p : properties) (key : string) : jsval :=
  match get p key with
  | Own v => v
  | Inherited => JFunction
  | Undefined => JUndefined
  end.

(** *** The component tables *)

Definition commonProps : list ComponentProp :=
  [ComponentProp_ "children" "ReactNode" false
         "Component children content" None;
   ComponentProp_ "className" "string" false
         "Additional CSS classes" None].

Definition getMockComponents (storybookUrl : string)
  : list (string * LDSComponent) :=
  [("Button",
    LDSComponent_ "Button" "LDS Button component for actions"
       (commonProps
        ++ [ComponentProp_ "variant" (Html.qq "`primary` | `secondary` | `tertiary`") false
              "Button visual variant" None;
            ComponentProp_ "size" (Html.qq "`sm` | `md` | `lg`") false
              "Button size variant" None;
            ComponentProp_ "onClick" "function" false
              "Click event handler" None;
            ComponentProp_ "disabled" "boolean" false
              "Whether the button is disabled" None;
            ComponentProp_ "aria-label" "string" false
              "Accessible label for the button" None])%list
       [AccessibilityRequirement_ "2.1.1" "A"
          "Must respond to keyboard events" true true;
        AccessibilityRequirement_ "1.3.1" "A"
          "Must have semantic role" true true]
       (Some (storybookUrl ++ "/?path=/docs/button"))
       "2024-01-15T10:00:00Z");
   ("Input",
    LDSComponent_ "Input" "LDS Input component for text entry"
       (commonProps
        ++ [ComponentProp_ "value" "string" false
              "Input value" None;
            ComponentProp_ "onChange" "function" false
              "Change event handler" None;
            ComponentProp_ "placeholder" "string" false
              "Placeholder text" None;
            ComponentProp_ "disabled" "boolean" false
              "Whether the input is disabled" None;
            ComponentProp_ "aria-label" "string" false
              "Accessible label for the input" None;
            ComponentProp_ "aria-describedby" "string" false
              "ID of element that describes this input" None;
            ComponentProp_ "aria-invalid" "boolean" false
              "Indicates if input has validation errors" None])%list
       [AccessibilityRequirement_ "1.3.1" "A"
          "Must have associated label" true true;
        AccessibilityRequirement_ "3.3.2" "A"
          "Must provide error identification" false true]
       (Some (storybookUrl ++ "/?path=/docs/input"))
       "2024-01-15T10:00:00Z");
   ("Modal",
    LDSComponent_ "Modal" "LDS Modal component for dialogs"
       (commonProps
        ++ [ComponentProp_ "isOpen" "boolean" true
              "Whether the modal is open" None;
            ComponentProp_ "onClose" "function" true
              "Function to close the modal" None;
            ComponentProp_ "title" "string" true
              "Modal title for accessibility" None;
            ComponentProp_ "aria-describedby" "string" false
              "ID of element describing modal content" None])%list
       [AccessibilityRequirement_ "2.4.3" "A"
          "Must have focus management" true true;
        AccessibilityRequirement_ "1.3.1" "A"
          "Must trap focus within modal" true true;
        AccessibilityRequirement_ "2.1.2" "A"
          "Must allow keyboard escape" true true]
       (Some (storybookUrl ++ "/?path=/docs/modal"))
       "2024-01-15T10:00:00Z");
   ("Select",
    LDSComponent_ "Select" "LDS Select component for dropdowns"
       (commonProps
        ++ [ComponentProp_ "value" "string" false
              "Selected value" None;
            ComponentProp_ "onChange" "function" false
              "Change event handler" None;
            ComponentProp_ "options" "Array<{value: string, label: string}>" true
              "Available options" None;
            ComponentProp_ "aria-label" "string" false
              "Accessible label for the select" None;
            ComponentProp_ "disabled" "boolean" false
              "Whether the select is disabled" None])%list
       [AccessibilityRequirement_ "1.3.1" "A"
          "Must have proper role" true true;
        AccessibilityRequirement_ "2.1.1" "A"
          "Must be keyboard accessible" true true]
       (Some (storybookUrl ++ "/?path=/docs/select"))
       "2024-01-15T10:00:00Z")].

(** [getMockComponent]: the component built for a name when the fetch
    fails; [now] is [new Date().toISOString()]. *)
Definition getMockComponent (storybookUrl now componentName : string)
  : LDSComponent :=
  LDSComponent_ componentName ("LDS " ++ componentName ++ " component")
    ([ComponentProp_ "children" "ReactNode" false
        "Component children content"
        (Some "Ensure content is accessible to screen readers");
      ComponentProp_ "className" "string" false "Additional CSS classes"
        None;
      ComponentProp_ "aria-label" "string" false
        "Accessible label for the component"
        (Some "Required if component does not have visible text");
      ComponentProp_ "aria-describedby" "string" false
        "ID of element that describes this component"
        (Some "Should reference element with additional context")]
     ++ (if includes (toLowerCase componentName) "button"
         then [ComponentProp_ "onClick" "function" false
                 "Click event handler"
                 (Some "Must be keyboard accessible (Enter/Space keys)")]
         else [])
     ++ (if includes (toLowerCase componentName) "input"
         then [ComponentProp_ "value" "string" false "Input value"
                 (Some "Should be controlled or uncontrolled properly");
               ComponentProp_ "onChange" "function" false
                 "Change event handler"
                 (Some "Should update associated label properly")]
         else []))%list
    [AccessibilityRequirement_ "1.3.1" "A"
       "Component must be keyboard accessible" true true;
     AccessibilityRequirement_ "2.1.1" "A"
       "Component must respond to keyboard input" true true;
     AccessibilityRequirement_ "4.1.2" "A"
       "Component must have proper name, role, value" true true]
    (Some (storybookUrl ++ "/?path=/docs/" ++ toLowerCase componentName))
    now.

(** What a lookup in the table of components gives: a component or, for a
    name of [Object.prototype], that property, which is truthy as well. *)
Inductive specs : Type :=
| Specification (c : LDSComponent)
| InheritedProperty.

(** [fetchComponentFromStorybook]: [mockComponents[componentName] || null].
    Nothing in it throws. *)
Definition fetchComponentFromStorybook (storybookUrl componentName : string)
  : outcome (option specs) :=
  Returned
    (match get (getMockComponents storybookUrl) componentName with
     | Own c => Some (Specification c)
     | Inherited => Some InheritedProperty
     | Undefined => None
     end).

(** *** The instance and its cache *)

Record state : Type := State {
  componentCache : list (string * specs);
  lastCacheUpdate : Z
}.

Definition initial : state := State [] 0.

(** [Map.prototype.set]: a key keeps the place of its first insertion. *)
Fixpoint cache_set (k : string) (v : specs) (m : list (string * specs))
  : list (string * specs) :=
  match m with
  | [] => [(k, v)]
  | (k', v') :: m' =>
      if String.eqb k' k then (k', v) :: m'
      else (k', v') :: cache_set k v m'
  end.

Section Instance.

(** The arguments of the constructor. *)
Variable storybookUrl : string.
Variable cacheTTL : Z.

(** [isCacheValid], when [Date.now()] is [now]. *)
Definition isCacheValid (now : Z) (st : state) : bool :=
  now - lastCacheUpdate st <? cacheTTL.

(** [getComponentSpecs]: [now1] and [now2] are the two readings of
    [Date.now()], [today] is the date of the fallback component. *)
Definition getComponentSpecs (now1 now2 : Z) (today : string) (st : state)
  (componentName : string) : option specs * state :=
  match
    (if isCacheValid now1 st
     then lookup (componentCache st) componentName else None)
  with
  | Some cached => (Some cached, st)
  | None =>
      match fetchComponentFromStorybook storybookUrl componentName with
      | Returned (Some c) =>
          (Some c,
           State (cache_set componentName c (componentCache st)) now2)
      | Returned None => (None, st)
      | Thrown _ =>
          (Some (Specification
                   (getMockComponent storybookUrl today componentName)),
           st)
      end
  end.

Definition clearCache (st : state) : state := State [] 0.

(** [getCacheStatus], when [Date.now()] is [now]. *)
Definition getCacheStatus (now : Z) (st : state) : Z * bool * Z :=
  (Z.of_nat (List.length (componentCache st)), isCacheValid now st,
   lastCacheUpdate st).

(** *** Validation *)

(** The loop over the required properties: issues and suggestions. *)
Definition required_props (c : LDSComponent) (p : properties)
  : list string * list string :=
  let missing :=
    filter (fun prop => (prop_required prop
                         && negb (has_property p (prop_name prop)))%bool)
           (props c) in
  (map (fun prop =>
          Html.qq ("Missing required prop `" ++ prop_name prop ++ "`"))
       missing,
   map (fun prop =>
          Html.qq ("Add required prop `" ++ prop_name prop ++ "` with type "
                     ++ prop_type prop))
       missing).

(** The loop over the entries of [props]: issues only. *)
Definition type_issue (c : LDSComponent) (entry : string * jsval)
  : list string :=
  let '(propName, propValue) := entry in
  match find (fun prop => String.eqb (prop_name prop) propName) (props c) with
  | Some specProp =>
      if truthy (prop_type specProp) then
        let expectedType := toLowerCase (prop_type specProp) in
        let actualType := typeof propValue in
        if (String.eqb expectedType "string"
            && negb (String.eqb actualType "string"))%bool
        then [Html.qq ("Prop `" ++ propName ++ "` should be string, got "
                         ++ actualType)]
        else if (String.eqb expectedType "boolean"
                 && negb (String.eqb actualType "boolean"))%bool
        then [Html.qq ("Prop `" ++ propName ++ "` should be boolean, got "
                         ++ actualType)]
        else if (String.eqb expectedType "number"
                 && negb (String.eqb actualType "number"))%bool
        then [Html.qq ("Prop `" ++ propName ++ "` should be number, got "
                         ++ actualType)]
        else []
      else []
  | None => []
  end.

(** The message of the [TypeError] of calling [trim] on a value that is
    not a string. *)
Definition not_a_function : string :=
  "props.aria-label.trim is not a function".

(** One requirement of [validateAccessibilityRequirements]; calling [trim]
    on a truthy value that is not a string throws. *)
Definition check_requirement (c : LDSComponent) (p : properties)
  (req : AccessibilityRequirement) : outcome (list string * list string) :=
  if negb (testable req) then Returned ([], [])
  else if String.eqb (criterion req) "1.3.1" then
    if (String.eqb (name c) "Modal"
        && (negb (truthy_val (read p "title"))
            && negb (truthy_val (read p "aria-label"))))%bool
    then Returned (["Modal missing title or aria-label"],
                   ["Add title prop or aria-label for screen reader users"])
    else Returned ([], [])
  else if String.eqb (criterion req) "2.1.1" then
    if (String.eqb (name c) "Modal"
        && negb (truthy_val (read p "onClose")))%bool
    then Returned (["Modal missing close handler"],
                   ["Add onClose prop for keyboard escape"])
    else Returned ([], [])
  else if String.eqb (criterion req) "4.1.2" then
    if truthy_val (read p "aria-label") then
      match read p "aria-label" with
      | JStr s =>
          if String.eqb (trim s) EmptyString
          then Returned (["Empty aria-label not recommended"],
                         ["Provide meaningful aria-label or remove attribute"])
          else Returned ([], [])
      | _ => Thrown not_a_function
      end
    else Returned ([], [])
  else Returned ([], []).

Fixpoint validateAccessibilityRequirements_from
  (c : LDSComponent) (p : properties) (reqs : list AccessibilityRequirement)
  (acc : list string * list string) : outcome (list string * list string) :=
  match reqs with
  | [] => Returned acc
  | req :: reqs' =>
      r <- check_requirement c p req ;;
      validateAccessibilityRequirements_from c p reqs'
        ((fst acc ++ fst r)%list, (snd acc ++ snd r)%list)
  end.

Definition validateAccessibilityRequirements (c : LDSComponent)
  (p : properties) : outcome (list string * list string) :=
  validateAccessibilityRequirements_from c p (accessibilityRequirements c)
    ([], []).

(** The message of the [TypeError] of [specs.props.forEach] when [specs]
    has no [props]. *)
Definition no_props : string :=
  "Cannot read properties of undefined (reading 'forEach')".

Definition not_found (componentName : string) : LDSValidationResult :=
  LDSValidationResult_ componentName false
    [Html.qq ("Component `" ++ componentName ++ "` not found in LDS")]
    ["Check component spelling or verify LDS availability"] [].

(** [validateComponentUsage], on given specifications. *)
Definition validate (componentName : string) (found : option specs)
  (p : properties) : outcome LDSValidationResult :=
  match found with
  | None => Returned (not_found componentName)
  | Some InheritedProperty => Thrown no_props
  | Some (Specification c) =>
      let required := required_props c p in
      let types := flat_map (type_issue c) p in
      a11yIssues <- validateAccessibilityRequirements c p ;;
      let issues := (fst required ++ types ++ fst a11yIssues)%list in
      Returned
        (LDSValidationResult_ componentName
           (Nat.eqb (List.length issues) 0) issues
           (snd required ++ snd a11yIssues)%list [])
  end.

Definition validateComponentUsage (now1 now2 : Z) (today : string)
  (st : state) (componentName : string) (p : properties)
  : outcome LDSValidationResult * state :=
  let '(found, st') := getComponentSpecs now1 now2 today st componentName in
  (validate componentName found p, st').

(** *** The states an instance goes through *)

Inductive reachable : state -> Prop :=
| reach_initial : reachable initial
| reach_specs st now1 now2 today componentName :
    reachable st ->
    reachable (snd (getComponentSpecs now1 now2 today st componentName))
| reach_validate st now1 now2 today componentName p :
    reachable st ->
    reachable (snd (validateComponentUsage now1 now2 today st
                      componentName p))
| reach_clear st : reachable st -> reachable (clearCache st).

(** Every entry of the cache is what a fetch of its name gives. *)
Definition coherent (st : state) : Prop :=
  forall k v,
    lookup (componentCache st) k = Some v ->
    fetchComponentFromStorybook storybookUrl k = Returned (Some v).

End Instance.

(** The two issues of the requirements check that need a requirement no
    component of the table has. *)
Definition dead_issues : list string :=
  ["Modal missing close handler"; "Empty aria-label not recommended"].

(** A requirement that leads to neither: it is not 4.1.2, and not 2.1.1 on
    the component named Modal. *)
Definition unguarded (c : LDSComponent) (req : AccessibilityRequirement)
  : bool :=
  (negb (String.eqb (criterion req) "4.1.2")
   && negb (String.eqb (criterion req) "2.1.1"
            && String.eqb (name c) "Modal"))%bool.

Definition component_names : list string :=
  ["Button"; "Input"; "Modal"; "Select"].

(** *** Samples *)

Definition modal_props : properties :=
  [("isOpen", JBool true); ("title", JStr EmptyString)].

Definition storybook : string := "https://storybook.lilly.internal".

End Lds.

(** * Facts *)

(** ** Strings *)

Module StringFacts.
Import JsString.

Lemma append_nil_r (s : string) : s ++ EmptyString = s.
Proof. induction s; simpl; congruence. Qed.

Lemma append_assoc (a b c : string) : (a ++ b) ++ c = a ++ (b ++ c).
Proof. induction a; simpl; congruence. Qed.

Lemma length_append (a b : string) :
  String.length (a ++ b) = (String.length a + String.length b)%nat.
Proof. induction a; simpl; congruence. Qed.

Lemma append_eq_nil (a b : string) :
  a ++ b = EmptyString -> a = EmptyString /\ b = EmptyString.
Proof. destruct a; simpl; [auto | discriminate]. Qed.

Lemma length_zero (s : string) : String.length s = O -> s = EmptyString.
Proof. destruct s; simpl; [auto | discriminate]. Qed.

Lemma toLowerCase_append (a b : string) :
  toLowerCase (a ++ b) = toLowerCase a ++ toLowerCase b.
Proof. induction a; simpl; congruence. Qed.

Lemma toLowerCase_length (s : string) :
  String.length (toLowerCase s) = String.length s.
Proof. induction s; simpl; congruence. Qed.

End StringFacts.

(** ** The matcher finds exactly the matches of [RegexSemantics.matches] *)

Module RegexFacts.
Import JsString Regex RegexSemantics StringFacts.

Lemma last_char_append (p : option ascii) (a b : string) :
  last_char p (a ++ b) = last_char (last_char p a) b.
Proof. revert p; induction a; intros; simpl; auto. Qed.

Lemma orelse_some {A} (a b : option A) (x : A) :
  orelse a b = Some x -> a = Some x \/ b = Some x.
Proof. destruct a; simpl; auto. Qed.

Lemma orelse_none_r {A} (a : option A) : orelse a None = a.
Proof. destruct a; reflexivity. Qed.

Lemma orelse_left {A} (a b : option A) : a <> None -> orelse a b <> None.
Proof. destruct a; simpl; congruence. Qed.

Lemma orelse_right {A} (a b : option A) : b <> None -> orelse a b <> None.
Proof. destruct a; simpl; congruence. Qed.

Lemma star_loop_sound (r : regex) (g : bool) step k :
  sound_for r step ->
  forall fuel st res,
    star_loop step g k fuel st = Some res ->
    exists s t c,
      rest st = s ++ t /\ matches (Star g r) (prev st) s t
      /\ k (MState (last_char (prev st) s) t c) = Some res.
Proof.
  intros Hstep. induction fuel as [|fuel IH]; intros st res H.
  - exists EmptyString, (rest st), (caps st). destruct st; simpl in *.
    repeat split; auto. constructor.
  - simpl in H.
    assert (Hk : k st = Some res ->
                 exists s t c, rest st = s ++ t
                   /\ matches (Star g r) (prev st) s t
                   /\ k (MState (last_char (prev st) s) t c) = Some res).
    { intros Hk. exists EmptyString, (rest st), (caps st).
      destruct st; simpl in *. repeat split; auto. constructor. }
    assert (Hagain : forall again,
               again = step st (fun st' =>
                 if (String.length (rest st') <? String.length (rest st))%nat
                 then star_loop step g k fuel st' else None) ->
               again = Some res ->
               exists s t c, rest st = s ++ t
                 /\ matches (Star g r) (prev st) s t
                 /\ k (MState (last_char (prev st) s) t c) = Some res).
    { intros again -> Ha. apply Hstep in Ha.
      destruct Ha as (s1 & t1 & c1 & Hrest & Hm & Hcont). simpl in Hcont.
      destruct (String.length t1 <? String.length (rest st))%nat eqn:Hlt;
        [|discriminate].
      apply IH in Hcont. destruct Hcont as (s2 & t2 & c2 & Hr2 & Hm2 & Hk2).
      simpl in Hr2, Hm2, Hk2. subst t1.
      exists (s1 ++ s2), t2, c2. repeat split.
      - rewrite Hrest. symmetry. apply append_assoc.
      - apply M_StarCons; auto.
        intros ->. simpl in Hrest. rewrite Hrest in Hlt.
        apply Nat.ltb_lt in Hlt. lia.
      - rewrite last_char_append. exact Hk2. }
    destruct g; apply orelse_some in H; destruct H as [H|H]; eauto.
Qed.

Lemma m_sound (r : regex) : sound_for r (m r).
Proof.
  induction r; intros st k res H; simpl in H.
  - exists EmptyString, (rest st), (caps st). destruct st; simpl in *.
    repeat split; auto. constructor.
  - destruct st as [pv rs cs]; simpl in *. destruct rs as [|c rs]; [discriminate|].
    destruct (p c) eqn:Hp; [|discriminate].
    exists (String c EmptyString), rs, cs. repeat split; auto. constructor; auto.
  - apply IHr1 in H. destruct H as (s1 & t1 & c1 & Hr & Hm1 & H).
    apply IHr2 in H. destruct H as (s2 & t2 & c2 & Hr2 & Hm2 & H).
    simpl in *. subst t1. exists (s1 ++ s2), t2, c2. repeat split.
    + rewrite Hr. symmetry. apply append_assoc.
    + constructor; auto.
    + rewrite last_char_append. exact H.
  - apply orelse_some in H. destruct H as [H|H].
    + apply IHr1 in H. destruct H as (s & t & c & ? & ? & ?).
      exists s, t, c. repeat split; auto. apply M_AltL; auto.
    + apply IHr2 in H. destruct H as (s & t & c & ? & ? & ?).
      exists s, t, c. repeat split; auto. apply M_AltR; auto.
  - eapply star_loop_sound; eauto.
  - apply IHr in H. destruct H as (s & t & c & ? & ? & H). simpl in H.
    eexists s, t, _. repeat split; eauto. constructor; auto.
  - destruct st as [pv rs cs]; simpl in *. destruct pv; [discriminate|].
    exists EmptyString, rs, cs. repeat split; auto. constructor.
  - destruct st as [pv rs cs]; simpl in *. destruct rs; [|discriminate].
    exists EmptyString, EmptyString, cs. repeat split; auto. constructor.
  - destruct st as [pv rs cs]; simpl in *.
    destruct (xorb (word_opt pv) (word_opt (head rs))) eqn:Hx; [|discriminate].
    exists EmptyString, rs, cs. repeat split; auto. constructor; auto.
Qed.

(** A continuation that always fails makes the matcher fail. *)
Lemma m_fail (r : regex) (st : mstate) (k : mstate -> option mstate) :
  (forall st', k st' = None) -> m r st k = None.
Proof.
  intros Hk. destruct (m r st k) eqn:H; auto.
  apply m_sound in H. destruct H as (? & ? & ? & _ & _ & H).
  rewrite Hk in H. discriminate.
Qed.

Lemma star_loop_ext step g :
  extensional step ->
  forall fuel st k1 k2,
    (forall st', k1 st' = k2 st') ->
    star_loop step g k1 fuel st = star_loop step g k2 fuel st.
Proof.
  intros Hstep. induction fuel as [|fuel IH]; intros st k1 k2 Hk; simpl.
  - apply Hk.
  - rewrite (Hk st).
    rewrite (Hstep st _ (fun st' =>
      if (String.length (rest st') <? String.length (rest st))%nat
      then star_loop step g k2 fuel st' else None)); auto.
    intros st'. destruct (_ <? _)%nat; auto.
Qed.

Lemma m_ext (r : regex) : extensional (m r).
Proof.
  induction r; intros st k1 k2 Hk; simpl.
  - apply Hk.
  - destruct (rest st); auto. destruct (p a); auto.
  - apply IHr1. intros st'. apply IHr2. auto.
  - rewrite (IHr1 st k1 k2 Hk), (IHr2 st k1 k2 Hk). reflexivity.
  - apply star_loop_ext; auto.
  - apply IHr. intros st'. apply Hk.
  - destruct (prev st); auto.
  - destruct (rest st); auto.
  - destruct (xorb _ _); auto.
Qed.

(** More fuel than the length of the text changes nothing. *)
Lemma star_loop_fuel (r : regex) (g : bool) k :
  forall f1 f2 st,
    (String.length (rest st) <= f1)%nat ->
    (String.length (rest st) <= f2)%nat ->
    star_loop (m r) g k f1 st = star_loop (m r) g k f2 st.
Proof.
  assert (Hzero : forall f st,
             String.length (rest st) = O ->
             star_loop (m r) g k f st = k st).
  { intros [|f] st Hlen; simpl; auto.
    rewrite (m_fail r st); [destruct g; simpl; auto using orelse_none_r|].
    intros st'. rewrite Hlen.
    destruct (String.length (rest st') <? 0)%nat eqn:E; auto.
    apply Nat.ltb_lt in E. lia. }
  induction f1 as [|f1 IH]; intros f2 st H1 H2.
  - rewrite !Hzero by lia. reflexivity.
  - destruct f2 as [|f2]; [rewrite !Hzero by lia; reflexivity|].
    simpl.
    rewrite (m_ext r st _ (fun st' =>
      if (String.length (rest st') <? String.length (rest st))%nat
      then star_loop (m r) g k f2 st' else None)); auto.
    intros st'.
    destruct (String.length (rest st') <? String.length (rest st))%nat eqn:E;
      auto.
    apply Nat.ltb_lt in E. apply IH; lia.
Qed.

(** Every match is found, whatever the captures are. *)
Lemma m_complete (r : regex) (p : option ascii) (s t : string) :
  matches r p s t ->
  forall c k,
    (forall c', k (MState (last_char p s) t c') <> None) ->
    m r (MState p (s ++ t) c) k <> None.
Proof.
  induction 1; intros c0 k Hk; simpl.
  - apply Hk.
  - rewrite H. apply Hk.
  - rewrite append_assoc. apply IHmatches1. intros c'.
    apply IHmatches2. intros c''. rewrite <- last_char_append. apply Hk.
  - apply orelse_left. apply IHmatches; auto.
  - apply orelse_right. apply IHmatches; auto.
  - destruct (String.length t); simpl; [apply Hk|].
    destruct g; [apply orelse_right | apply orelse_left]; apply Hk.
  - destruct s1 as [|a s1]; [congruence|]. simpl.
    assert (Hagain :
      m r (MState p (String a (s1 ++ s2 ++ t)) c0)
        (fun st' =>
           if (String.length (rest st') <? S (String.length (s1 ++ s2 ++ t)))%nat
           then star_loop (m r) g k (String.length (s1 ++ s2 ++ t)) st'
           else None) <> None).
    { apply (IHmatches1 c0). intros c'. simpl.
      assert (Hlt : (String.length (s2 ++ t)
                     <? S (String.length (s1 ++ s2 ++ t)))%nat = true).
      { apply Nat.ltb_lt. rewrite (length_append s1). lia. }
      rewrite Hlt.
      rewrite (@star_loop_fuel r g k _ (String.length (s2 ++ t)));
        simpl; try lia.
      - apply (IHmatches2 c' k). intros c''.
        rewrite <- last_char_append. apply Hk.
      - rewrite (length_append s1). lia. }
    rewrite append_assoc.
    destruct g; [apply orelse_left | apply orelse_right]; exact Hagain.
  - apply IHmatches. intros c'. simpl. apply Hk.
  - apply Hk.
  - apply Hk.
  - rewrite H. apply Hk.
Qed.

(** [test] answers whether some part of the text matches. *)
Lemma search_sound (r : regex) :
  forall s p i j st,
    search r p s i = Some (j, st) ->
    exists before mid after,
      s = before ++ mid ++ after
      /\ matches r (last_char p before) mid after.
Proof.
  induction s as [|a s IH]; intros p i j st H; simpl in H.
  - destruct (match_here r p EmptyString) eqn:E; [|discriminate].
    apply m_sound in E. destruct E as (x & t & c & Hr & Hm & _).
    simpl in *. exists EmptyString, x, t. split; auto.
  - destruct (match_here r p (String a s)) eqn:E.
    + apply m_sound in E. destruct E as (x & t & c & Hr & Hm & _).
      simpl in *. exists EmptyString, x, t. split; auto.
    + apply IH in H. destruct H as (b & x & t & -> & Hm).
      exists (String a b), x, t. split; auto.
Qed.

Lemma search_complete (r : regex) :
  forall before mid after p i,
    matches r (last_char p before) mid after ->
    search r p (before ++ mid ++ after) i <> None.
Proof.
  induction before as [|a b IH]; intros mid after p i Hm.
  - simpl in Hm. simpl.
    assert (H : match_here r p (mid ++ after) <> None).
    { apply m_complete with (1 := Hm). discriminate. }
    destruct (mid ++ after); simpl;
      destruct (match_here r p _); try congruence.
  - simpl. destruct (match_here r p _); [discriminate|].
    apply IH. exact Hm.
Qed.

Lemma test_iff (r : regex) (s : string) :
  test r s = true <->
  exists before mid after,
    s = before ++ mid ++ after /\ matches r (last_char None before) mid after.
Proof.
  unfold test. split.
  - destruct (search r None s 0) as [[j st]|] eqn:E; [|discriminate].
    intros _. eapply search_sound; eauto.
  - intros (b & x & t & -> & Hm).
    pose proof (@search_complete r b x t None 0 Hm) as H.
    destruct (search r None _ 0); congruence.
Qed.

(** A search that succeeds splits the text around the match. *)
Lemma search_split (r : regex) :
  forall s p i j st,
    search r p s i = Some (j, st) ->
    exists before mid,
      s = before ++ mid ++ rest st
      /\ matches r (last_char p before) mid (rest st)
      /\ j = i + len before.
Proof.
  assert (Hhere : forall p s st,
             match_here r p s = Some st ->
             exists mid, s = mid ++ rest st /\ matches r p mid (rest st)).
  { intros p s st E. apply m_sound in E.
    destruct E as (x & t & c & Hr & Hm & Hk). simpl in *.
    injection Hk as <-. simpl. eauto. }
  induction s as [|a s IH]; intros p i j st H; simpl in H.
  - destruct (match_here r p EmptyString) eqn:E; [|discriminate].
    injection H as <- <-. apply Hhere in E. destruct E as (mid & E & Hm).
    exists EmptyString, mid. simpl. unfold len. simpl. repeat split; auto.
    lia.
  - destruct (match_here r p (String a s)) eqn:E.
    + injection H as <- <-. apply Hhere in E. destruct E as (mid & E & Hm).
      exists EmptyString, mid. simpl. unfold len. simpl. repeat split; auto.
      lia.
    + apply IH in H. destruct H as (b & mid & E' & Hm & ->).
      exists (String a b), mid. simpl. rewrite <- E'. repeat split; auto.
      unfold len. simpl String.length. lia.
Qed.

(** For a literal that never matches the empty text, the bound on the
    number of matches is never reached: more fuel gives the same matches. *)
Lemma exec_all_from_fuel (r : regex) :
  (forall p x t, matches r p x t -> x <> EmptyString) ->
  forall f1 f2 p s i,
    (String.length s < f1)%nat -> (String.length s < f2)%nat ->
    exec_all_from f1 r p s i = exec_all_from f2 r p s i.
Proof.
  intros Hne. induction f1 as [|f1 IH]; intros f2 p s i H1 H2; [lia|].
  destruct f2 as [|f2]; [lia|]. simpl.
  destruct (search r p s i) as [[j st]|] eqn:E; auto.
  f_equal. apply search_split in E.
  destruct E as (before & mid & Es & Hm & _).
  apply Hne in Hm.
  assert (String.length (rest st) < String.length s)%nat.
  { apply (f_equal String.length) in Es. rewrite !length_append in Es.
    destruct mid; [congruence|]. simpl in Es. lia. }
  apply IH; lia.
Qed.

(** If the rest of a sequence cannot match, neither can the sequence. *)
Lemma m_cat_fail (r1 r2 : regex) (k : mstate -> option mstate) :
  (forall st, m r2 st k = None) -> forall st, m (Cat r1 r2) st k = None.
Proof. intros H st. simpl. apply m_fail. exact H. Qed.

Lemma test_false (r : regex) (s : string) :
  (forall st, m r st (fun st' => Some st') = None) -> test r s = false.
Proof.
  intros H. unfold test.
  assert (forall s p i, search r p s i = None) as Hs.
  { clear s. induction s as [|a s IH]; intros p i; simpl;
      unfold match_here; rewrite H; auto. }
  rewrite Hs. reflexivity.
Qed.

End RegexFacts.

(** ** The literals of the dispatcher and of the radio check *)

Module LiteralFacts.
Import JsString Regex RegexSemantics StringFacts RegexFacts Spec Markers.

Lemma cf_eps : context_free Eps (fun x => x = EmptyString).
Proof.
  intros p x t. split.
  - inversion 1; auto.
  - intros ->. constructor.
Qed.

Lemma cf_chr (f : ascii -> bool) :
  context_free (Chr f) (fun x => exists c, x = chr c /\ f c = true).
Proof.
  intros p x t. split.
  - inversion 1; subst. exists c. split; [reflexivity | assumption].
  - intros (c & -> & Hc). constructor; auto.
Qed.

Lemma cf_cat (r1 r2 : regex) (P1 P2 : string -> Prop) :
  context_free r1 P1 -> context_free r2 P2 ->
  context_free (Cat r1 r2)
    (fun x => exists x1 x2, x = x1 ++ x2 /\ P1 x1 /\ P2 x2).
Proof.
  intros H1 H2 p x t. split.
  - inversion 1; subst. exists s1, s2. repeat split; auto.
    + eapply H1; eauto.
    + eapply H2; eauto.
  - intros (x1 & x2 & -> & Hx1 & Hx2). constructor.
    + apply H1; auto.
    + apply H2; auto.
Qed.

Lemma cf_alt (r1 r2 : regex) (P1 P2 : string -> Prop) :
  context_free r1 P1 -> context_free r2 P2 ->
  context_free (Alt r1 r2) (fun x => P1 x \/ P2 x).
Proof.
  intros H1 H2 p x t. split.
  - inversion 1; subst; [left; eapply H1 | right; eapply H2]; eauto.
  - intros [Hx|Hx]; [apply M_AltL, H1 | apply M_AltR, H2]; auto.
Qed.

Lemma all_chars_append (f : ascii -> bool) (a b : string) :
  all_chars f (a ++ b) <-> all_chars f a /\ all_chars f b.
Proof. induction a; simpl; tauto. Qed.

Lemma cf_star_chr (g : bool) (f : ascii -> bool) :
  context_free (Star g (Chr f)) (all_chars f).
Proof.
  intros p x t. split.
  - intros H. remember (Star g (Chr f)) as r eqn:Hr.
    induction H; inversion Hr; subst; simpl; auto.
    apply all_chars_append. split; auto.
    inversion H0; subst. simpl. auto.
  - revert p. induction x as [|c x IH]; intros p Hx.
    + constructor.
    + destruct Hx as [Hc Hx].
      change (String c x) with (chr c ++ x).
      apply M_StarCons; [discriminate | constructor; auto | apply IH; auto].
Qed.

Lemma cf_lit (s : string) : context_free (lit s) (fun x => x = s).
Proof.
  induction s as [|c s IH]; intros p x t; simpl.
  - apply cf_eps.
  - rewrite (cf_cat (cf_chr (Ascii.eqb c)) IH p x t). split.
    + intros (x1 & x2 & -> & (c' & -> & Hc) & ->).
      apply Ascii.eqb_eq in Hc. subst. reflexivity.
    + intros ->. exists (chr c), s. repeat split; auto.
      exists c. split; auto. apply Ascii.eqb_refl.
Qed.

Lemma cf_lit_i (s : string) :
  context_free (lit_i s) (fun x => toLowerCase x = toLowerCase s).
Proof.
  induction s as [|c s IH]; intros p x t; simpl.
  - rewrite (cf_eps p x t). split; [intros ->; auto|].
    destruct x; simpl; [auto | discriminate].
  - unfold char_i. rewrite (cf_cat (cf_chr _) IH p x t). split.
    + intros (x1 & x2 & -> & (c' & -> & Hc) & Hx2).
      apply Ascii.eqb_eq in Hc. simpl. congruence.
    + destruct x as [|c' x]; simpl; [discriminate|]. intros Hx.
      injection Hx as Hc Hx.
      exists (chr c'), x. repeat split; auto.
      exists c'. split; auto. apply Ascii.eqb_eq. auto.
Qed.

Lemma cf_iff (r : regex) (P Q : string -> Prop) :
  context_free r P -> (forall x, P x <-> Q x) -> context_free r Q.
Proof. intros H HPQ p x t. rewrite (H p x t). apply HPQ. Qed.

(** A part of the text has [P] exactly when [test] finds a match. *)
Lemma test_context_free (r : regex) (P : string -> Prop) (s : string) :
  context_free r P ->
  (test r s = true <->
   exists before mid after, s = before ++ mid ++ after /\ P mid).
Proof.
  intros H. rewrite test_iff. split.
  - intros (b & x & t & -> & Hm). exists b, x, t. split; auto.
    eapply H; eauto.
  - intros (b & x & t & -> & Hx). exists b, x, t. split; auto.
    apply H; auto.
Qed.

Lemma cf_plus_chr (f : ascii -> bool) :
  context_free (plus (Chr f))
    (fun x => x <> EmptyString /\ all_chars f x).
Proof.
  unfold plus.
  eapply cf_iff; [apply (cf_cat (cf_chr f) (cf_star_chr true f))|].
  intros x. split.
  - intros (x1 & x2 & -> & (c & -> & Hc) & Hx2). simpl. split; auto.
    discriminate.
  - intros [Hne Hx]. destruct x as [|c x]; [congruence|].
    destruct Hx as [Hc Hx]. exists (chr c), x. repeat split; auto.
    exists c; auto.
Qed.

Lemma cf_opt_char (a : ascii) :
  context_free (opt (char a)) (fun x => x = EmptyString \/ x = chr a).
Proof.
  unfold opt, char. eapply cf_iff; [apply (cf_alt (cf_chr _) cf_eps)|].
  intros x. split.
  - intros [(c & -> & Hc)| ->]; auto.
    apply Ascii.eqb_eq in Hc. subst. auto.
  - intros [->| ->]; auto. left. exists a. split; auto.
    apply Ascii.eqb_refl.
Qed.

Lemma cf_quote : context_free quote is_quote.
Proof.
  unfold quote. eapply cf_iff; [apply cf_chr|].
  intros x. unfold is_quote. split.
  - intros (c & -> & Hc). apply orb_true_iff in Hc.
    destruct Hc as [Hc|Hc]; apply Ascii.eqb_eq in Hc; subst; auto.
  - intros [->| ->]; eexists; split; eauto.
Qed.

Lemma cf_capital :
  context_free (Cat (char "<") (Cat upper Eps))
    (fun x => exists c, x = String "<" (chr c) /\ is_upper c = true).
Proof.
  eapply cf_iff;
    [apply (cf_cat (cf_chr _) (cf_cat (cf_chr is_upper) cf_eps))|].
  intros x. split.
  - intros (x1 & x2 & -> & (c & -> & Hc) & (x3 & x4 & -> & (c' & -> & Hc') & ->)).
    apply Ascii.eqb_eq in Hc. subst. exists c'. auto.
  - intros (c & -> & Hc). exists (chr "<"), (chr c). repeat split; auto.
    + exists "<"%char. auto.
    + exists (chr c), EmptyString. repeat split; auto. exists c. auto.
Qed.

(** The literal [return ... <Capital] finds the marker of the
    specification. *)
Lemma return_marker_iff (content : string) :
  test Hybrid.re_return_jsx content = true <-> return_marker content.
Proof.
  unfold Hybrid.re_return_jsx. cbn [seq].
  rewrite (test_context_free content
             (cf_cat (cf_lit "return")
                (cf_cat (cf_star_chr true is_space)
                   (cf_cat (cf_opt_char "(")
                      (cf_cat (cf_star_chr true is_space) cf_capital))))).
  unfold return_marker, capitalized_tag, blank. split.
  - intros (b & x & t & -> & x1 & r1 & -> & -> & w1 & r2 & -> & Hw1
            & pa & r3 & -> & Hpa & w2 & r4 & -> & Hw2 & c & -> & Hc).
    exists b, w1, pa, w2, (String "<" (String c t)).
    split; [repeat rewrite append_assoc; reflexivity|].
    split; [assumption|]. split; [exact Hpa|]. split; [assumption|].
    exists c, t. auto.
  - intros (b & w1 & pa & w2 & token & -> & Hw1 & Hpa & Hw2
            & c & t & -> & Hc).
    exists b, ("return" ++ w1 ++ pa ++ w2 ++ String "<" (chr c)), t.
    split.
    + repeat rewrite append_assoc. reflexivity.
    + exists "return", (w1 ++ pa ++ w2 ++ String "<" (chr c)).
      repeat split; auto.
      exists w1, (pa ++ w2 ++ String "<" (chr c)). repeat split; auto.
      exists pa, (w2 ++ String "<" (chr c)). repeat split; auto.
      exists w2, (String "<" (chr c)). repeat split; auto.
      exists c. auto.
Qed.

Lemma arrow_marker_iff (content : string) :
  test Hybrid.re_arrow_jsx content = true <-> arrow_marker content.
Proof.
  unfold Hybrid.re_arrow_jsx. cbn [seq].
  rewrite (test_context_free content
             (cf_cat (cf_lit "=>")
                (cf_cat (cf_star_chr true is_space) cf_capital))).
  unfold arrow_marker, capitalized_tag, blank. split.
  - intros (b & x & t & -> & x1 & r1 & -> & -> & w & r2 & -> & Hw
            & c & -> & Hc).
    exists b, w, (String "<" (String c t)).
    split; [repeat rewrite append_assoc; reflexivity|].
    split; [assumption|]. exists c, t. auto.
  - intros (b & w & token & -> & Hw & c & t & -> & Hc).
    exists b, ("=>" ++ w ++ String "<" (chr c)), t. split.
    + repeat rewrite append_assoc. reflexivity.
    + exists "=>", (w ++ String "<" (chr c)). repeat split; auto.
      exists w, (String "<" (chr c)). repeat split; auto.
      exists c. auto.
Qed.

Lemma cf_dot_star :
  context_free (star dot)
    (all_chars (fun c => negb (is_line_terminator c))).
Proof. apply cf_star_chr. Qed.

(** The literal of the import test finds the text of [import_text]. *)
Lemma import_text_iff (content : string) :
  test Hybrid.re_react_import content = true <-> import_text content.
Proof.
  unfold Hybrid.re_react_import. cbn [seq].
  rewrite (test_context_free content
    (cf_cat (cf_lit_i "import")
      (cf_cat (cf_plus_chr is_space)
        (cf_cat cf_dot_star
          (cf_cat (cf_plus_chr is_space)
            (cf_cat (cf_lit_i "from")
              (cf_cat (cf_plus_chr is_space)
                (cf_cat cf_quote
                  (cf_cat (cf_lit_i "react")
                    (cf_cat cf_quote cf_eps)))))))))).
  unfold import_text, blanks, blank. split.
  - intros (b & x & t & -> & kw & r1 & -> & Hkw & w1 & r2 & -> & Hw1
            & names & r3 & -> & Hn & w2 & r4 & -> & Hw2
            & from & r5 & -> & Hfrom & w3 & r6 & -> & Hw3
            & q1 & r7 & -> & Hq1 & rt & r8 & -> & Hrt
            & q2 & r9 & -> & Hq2 & ->).
    exists b, kw, w1, names, w2, from, w3, q1, rt, q2, t.
    repeat split; try tauto.
    repeat rewrite append_assoc. reflexivity.
  - intros (b & kw & w1 & names & w2 & from & w3 & q1 & rt & q2 & t
            & -> & Hkw & Hw1 & Hn & Hw2 & Hfrom & Hw3 & Hq1 & Hrt & Hq2).
    exists b, (kw ++ w1 ++ names ++ w2 ++ from ++ w3 ++ q1 ++ rt ++ q2), t.
    split.
    + repeat rewrite append_assoc. reflexivity.
    + exists kw, (w1 ++ names ++ w2 ++ from ++ w3 ++ q1 ++ rt ++ q2).
      repeat split; auto.
      exists w1, (names ++ w2 ++ from ++ w3 ++ q1 ++ rt ++ q2).
      repeat split; try tauto.
      exists names, (w2 ++ from ++ w3 ++ q1 ++ rt ++ q2).
      repeat split; auto.
      exists w2, (from ++ w3 ++ q1 ++ rt ++ q2). repeat split; try tauto.
      exists from, (w3 ++ q1 ++ rt ++ q2). repeat split; auto.
      exists w3, (q1 ++ rt ++ q2). repeat split; try tauto.
      exists q1, (rt ++ q2). repeat split; auto.
      exists rt, q2. repeat split; auto.
      exists q2, EmptyString. repeat split; auto.
      symmetry. apply append_nil_r.
Qed.

(** The content test of the dispatcher finds the three texts. *)
Lemma marker_iff (content : string) :
  (Hybrid.hasReactImport content || Hybrid.hasJSXElement content)%bool = true
  <-> marker_text content.
Proof.
  unfold Hybrid.hasReactImport, Hybrid.hasJSXElement, marker_text.
  rewrite !orb_true_iff, import_text_iff, return_marker_iff,
    arrow_marker_iff. tauto.
Qed.

(** A word that stands in a text is found there. *)
Lemma word_found (word s before after : string) :
  s = before ++ word ++ after -> test (lit word) s = true.
Proof.
  intros ->. apply (test_context_free _ (cf_lit word)).
  exists before, word, after. auto.
Qed.

(** An import declaration has its keyword in it. *)
Lemma runtime_import_keyword (content : string) :
  runtime_import content -> test (lit "import") content = true.
Proof.
  intros (before & w & source & after & _ & _ & [E|(bindings & _ & E)]);
    eapply word_found; exact E.
Qed.

(** The literal of the fieldset test matches no text at all: after the
    end-of-input assertion it still asks for the six characters [{name}]. *)
Lemma fieldset_literal_never_matches (content : string) :
  test Html.re_fieldset_radio content = false.
Proof.
  apply test_false. unfold Html.re_fieldset_radio. cbn [seq].
  do 13 (apply m_cat_fail).
  intros [p [|c s] cs]; reflexivity.
Qed.

(** The three global literals of the markup evaluator never match the empty
    text, so [exec_all] gives all their matches. *)
Lemma starts_with_char_nonempty (f : ascii -> bool) (r : regex) p x t :
  matches (Cat (Chr f) r) p x t -> x <> EmptyString.
Proof.
  inversion 1; subst.
  match goal with
  | H : matches (Chr _) _ _ _ |- _ => inversion H; subst
  end.
  discriminate.
Qed.

Lemma starts_with_lit_nonempty (f : ascii -> bool) (r r' : regex) p x t :
  matches (Cat (Cat (Chr f) r) r') p x t -> x <> EmptyString.
Proof.
  inversion 1; subst.
  match goal with
  | H : matches (Cat (Chr _) _) _ ?s _ |- _ =>
      apply starts_with_char_nonempty in H; destruct s;
      [congruence | discriminate]
  end.
Qed.

Lemma global_literals_consume (r : regex) :
  In r [Html.re_marquee; Html.re_nav_pattern; Html.re_outline_none] ->
  forall p x t, matches r p x t -> x <> EmptyString.
Proof.
  intros [<-|[<-|[<-|[]]]] p x t.
  - apply starts_with_char_nonempty.
  - apply starts_with_lit_nonempty.
  - apply starts_with_lit_nonempty.
Qed.

Lemma exec_all_has_all_matches (r : regex) (s : string) (extra : nat) :
  In r [Html.re_marquee; Html.re_nav_pattern; Html.re_outline_none] ->
  exec_all_from (S (String.length s) + extra) r None s 0 = exec_all r s.
Proof.
  intros Hr. unfold exec_all.
  apply exec_all_from_fuel; [apply global_literals_consume; exact Hr| |]; lia.
Qed.

End LiteralFacts.

(** ** The markup evaluator *)

Module HtmlFacts.
Import JsString Regex JsObject Dom Html Spec Catalogue.
Local Open Scope list_scope.

Lemma nodes_ind' (P : node -> Prop) :
  (forall t name a cs, Forall P cs -> P (Element t name a cs)) ->
  (forall cs, Forall P cs -> P (CData cs)) ->
  (forall d, P (Text d)) ->
  (forall d, P (Comment d)) ->
  (forall n d, P (Directive n d)) ->
  forall l, Forall P l.
Proof.
  intros. induction l; constructor; auto. apply node_rect'; auto.
Qed.

Lemma count_rule_app (rule : string) (a b : list violation) :
  count_rule rule (a ++ b) = (count_rule rule a + count_rule rule b)%nat.
Proof. unfold count_rule. rewrite filter_app, length_app. reflexivity. Qed.

Lemma pushed_by_app_l rules rules' v :
  pushed_by rules v = true -> pushed_by (rules ++ rules') v = true.
Proof.
  unfold pushed_by. rewrite existsb_app. intros ->. reflexivity.
Qed.

Lemma pushed_by_app_r rules rules' v :
  pushed_by rules' v = true -> pushed_by (rules ++ rules') v = true.
Proof.
  unfold pushed_by. rewrite existsb_app. intros ->. apply orb_true_r.
Qed.

Lemma pushed_by_incl rules rules' v :
  incl rules rules' ->
  pushed_by rules v = true -> pushed_by rules' v = true.
Proof.
  unfold pushed_by. intros Hi H. apply existsb_exists in H.
  destruct H as (r & Hin & Hr). apply existsb_exists. exists r. auto.
Qed.

(** A rule that a phase does not push is not counted in its output. *)
Lemma count_rule_absent (rules : list (string * string)) (rule : string)
  (vs : list violation) :
  existsb (fun r => String.eqb (fst r) rule) rules = false ->
  Forall (fun v => pushed_by rules v = true) vs ->
  count_rule rule vs = O.
Proof.
  intros Habs H. unfold count_rule. induction H as [|v vs Hv _ IH]; auto.
  simpl. destruct (String.eqb_spec (ruleId v) rule) as [E|E]; auto.
  exfalso. unfold pushed_by in Hv. apply existsb_exists in Hv.
  destruct Hv as (r & Hin & Hr). apply andb_true_iff in Hr.
  destruct Hr as [Hr _]. apply String.eqb_eq in Hr.
  assert (existsb (fun r => String.eqb (fst r) rule) rules = true).
  { apply existsb_exists. exists r. split; auto.
    apply String.eqb_eq. congruence. }
  congruence.
Qed.

(** *** What each phase pushes *)

Section Phases.
Variable content : string.

Lemma document_checks_rules :
  Forall (fun v => pushed_by document_rules v = true)
         (document_checks content).
Proof.
  unfold document_checks, check_lang, check_title, check_main, check_marquee.
  repeat (apply Forall_app; split).
  - destruct (negb _); repeat constructor.
  - match goal with |- context [if ?c then _ else _] => destruct c end;
      repeat constructor.
  - destruct (_ && _)%bool; repeat constructor.
  - apply Forall_map, Forall_forall. intros; reflexivity.
Qed.

Lemma check_outline_rules :
  Forall (fun v => pushed_by outline_rules v = true) (check_outline content).
Proof.
  unfold check_outline. apply Forall_map, Forall_forall. intros; reflexivity.
Qed.

Lemma check_role_rules tagName a ln vs :
  check_role tagName a ln = Returned vs ->
  Forall (fun v => pushed_by role_rules v = true) vs.
Proof.
  unfold check_role. intros H.
  destruct (attr a "role") as [role|]; [|injection H as <-; constructor].
  destruct (truthy role); [|injection H as <-; constructor].
  assert (Hhead :
    Forall (fun v => pushed_by role_rules v = true)
      ((match get implicitRoles tagName with
        | Own implicitRole =>
            if String.eqb implicitRole role
            then [report "redundant-role" "warning" ln
                    ("Redundant role=" ++ q ++ role ++ q ++ " on <"
                       ++ tagName ++ "> element")%string]
            else []
        | _ => []
        end)
       ++ (if negb (existsb (String.eqb role) validAriaRoles)
           then [report "invalid-aria-role" "error" ln
                   ("Invalid ARIA role: " ++ q ++ role ++ q)%string]
           else []))).
  { apply Forall_app; split.
    - destruct (get implicitRoles tagName); repeat constructor.
      destruct (String.eqb a0 role); repeat constructor.
    - destruct (negb _); repeat constructor. }
  destruct (get roleRequiredAria role) as [required| |];
    [|discriminate|injection H as <-; exact Hhead].
  injection H as <-. rewrite app_assoc. apply Forall_app; split; auto.
  apply Forall_flat_map, Forall_forall. intros prop _.
  destruct (negb (truthy_opt (attr a prop))); repeat constructor.
Qed.

Lemma node_checks_rules tagName a children ln vs :
  node_checks tagName a children ln = Returned vs ->
  Forall (fun v => pushed_by traversal_rules v = true) vs.
Proof.
  unfold node_checks. destruct (check_role tagName a ln) as [roles|e] eqn:Hr;
    simpl; [|discriminate].
  intros H. injection H as <-. apply check_role_rules in Hr.
  assert (Hr' : Forall (fun v => pushed_by traversal_rules v = true) roles).
  { apply Forall_forall. intros v Hv.
    apply (@pushed_by_incl role_rules traversal_rules).
    - intros r Hin. simpl in Hin. simpl. tauto.
    - revert v Hv. apply Forall_forall. exact Hr. }
  clear Hr.
  repeat (apply Forall_app; split); auto.
  - unfold check_img. destruct (String.eqb tagName "img"); [|constructor].
    destruct (attr a "alt"); [|repeat constructor].
    destruct (_ && _)%bool; repeat constructor.
  - unfold check_input. destruct (is_checked_input tagName a); [|constructor].
    repeat (apply Forall_app; split).
    + destruct (negb _); repeat constructor.
    + destruct (_ && _)%bool; repeat constructor.
    + destruct (_ || _)%bool; [|constructor].
      destruct (negb _); repeat constructor.
    + destruct (defined _); [|constructor].
      destruct (negb _); repeat constructor.
  - unfold check_button. destruct (String.eqb tagName "button"); [|constructor].
    destruct (_ && _)%bool; repeat constructor.
  - unfold check_link. destruct (String.eqb tagName "a"); [|constructor].
    repeat (apply Forall_app; split).
    + destruct (_ && _)%bool; repeat constructor.
    + destruct (existsb _ children); [|constructor].
      destruct (existsb _ nonDescriptive); repeat constructor.
    + destruct (is_str _ _); [|constructor].
      destruct (negb _); repeat constructor.
  - unfold check_iframe. destruct (_ && _)%bool; repeat constructor.
  - unfold check_div_button. destruct (_ && _)%bool; [|constructor].
    destruct (_ || _)%bool; repeat constructor.
  - unfold check_tabindex. destruct (attr a "tabindex"); [|constructor].
    destruct (_ && _)%bool; repeat constructor.
  - unfold check_heading. destruct (test _ _); [|constructor].
    destruct (_ && _)%bool; repeat constructor.
  - unfold check_table. destruct (_ && _)%bool; repeat constructor.
  - unfold check_autoplay. destruct (_ && _)%bool; [|constructor].
    destruct (_ && _)%bool; repeat constructor.
  - unfold check_captions. destruct (is_media _); [|constructor].
    destruct (negb _); repeat constructor.
Qed.

(** *** The walk only appends, and only rules of the traversal *)

Lemma traverse_node_tag name a children st :
  traverse_node content (Element Tag name a children) st =
  (vs <- node_checks (toLowerCase name) a children
           (locate content (toLowerCase name) (lineNumber st)) ;;
   traverse content children
     (TState (locate content (toLowerCase name) (lineNumber st))
             (violations st ++ vs))).
Proof. reflexivity. Qed.

Lemma appends_refl st : appends st st.
Proof. exists []. split; [symmetry; apply app_nil_r | constructor]. Qed.

Lemma appends_trans a b c : appends a b -> appends b c -> appends a c.
Proof.
  intros (v1 & E1 & F1) (v2 & E2 & F2). exists (v1 ++ v2). split.
  - rewrite E2, E1. symmetry. apply app_assoc.
  - apply Forall_app; auto.
Qed.

Lemma traverse_list_appends nodes :
  Forall (fun n => forall st st',
              traverse_node content n st = Returned st' -> appends st st')
         nodes ->
  forall st st', traverse content nodes st = Returned st' -> appends st st'.
Proof.
  induction 1 as [|n nodes Hn _ IH]; intros st st' H; simpl in H.
  - injection H as <-. apply appends_refl.
  - destruct (traverse_node content n st) as [st1|] eqn:E; [|discriminate].
    simpl in H. eapply appends_trans; eauto.
Qed.

Lemma traverse_appends nodes st st' :
  traverse content nodes st = Returned st' -> appends st st'.
Proof.
  revert st st'. apply traverse_list_appends.
  apply nodes_ind'; try (intros; simpl in *; injection H as <-;
                         apply appends_refl).
  - intros t name a cs IH st st' H. destruct t;
      try (simpl in H; injection H as <-; apply appends_refl).
    rewrite traverse_node_tag in H.
    destruct (node_checks _ _ _ _) as [vs|] eqn:E; [|discriminate].
    simpl in H. apply node_checks_rules in E.
    apply (traverse_list_appends IH) in H.
    eapply appends_trans; [|exact H].
    exists vs. split; auto.
  - intros cs _ st st' H. simpl in H. injection H as <-. apply appends_refl.
Qed.

(** *** Counting one rule over the walk *)

Lemma visited_node_tag name a children :
  visited_node (Element Tag name a children)
  = (toLowerCase name, a, children) :: visited children.
Proof. reflexivity. Qed.

Section Counting.
Variable rule : string.
Variable weight : string * attrs * list node -> nat.
Hypothesis weight_spec : forall tagName a children ln vs,
    node_checks tagName a children ln = Returned vs ->
    count_rule rule vs = weight (tagName, a, children).

Local Abbreviation counts := (Catalogue.counts rule weight).

Lemma traverse_list_counts nodes :
  Forall (fun n => forall st st',
              traverse_node content n st = Returned st' ->
              counts [n] st st')
         nodes ->
  forall st st', traverse content nodes st = Returned st' ->
                 counts nodes st st'.
Proof.
  unfold counts, Catalogue.counts.
  induction 1 as [|n nodes Hn _ IH]; intros st st' H; simpl in H.
  - injection H as <-. simpl. lia.
  - destruct (traverse_node content n st) as [st1|] eqn:E; [|discriminate].
    simpl in H. apply IH in H. apply Hn in E. simpl in E.
    rewrite app_nil_r in E. simpl. rewrite map_app, list_sum_app. lia.
Qed.

Lemma traverse_counts nodes st st' :
  traverse content nodes st = Returned st' -> counts nodes st st'.
Proof.
  revert st st'. apply traverse_list_counts.
  apply nodes_ind'; try (intros; unfold counts, Catalogue.counts; simpl in *;
                         injection H as <-; simpl; lia).
  - intros t name a cs IH st st' H. destruct t;
      try (unfold counts, Catalogue.counts; simpl in *; injection H as <-;
           simpl; lia).
    rewrite traverse_node_tag in H.
    destruct (node_checks _ _ _ _) as [vs|] eqn:E; [|discriminate].
    simpl in H. apply weight_spec in E.
    apply (traverse_list_counts IH) in H. unfold counts, Catalogue.counts in *.
    simpl in H. rewrite count_rule_app in H.
    cbn [visited]. rewrite app_nil_r, visited_node_tag. simpl. lia.
  - intros cs _ st st' H. unfold counts, Catalogue.counts. simpl in *.
    injection H as <-. simpl. lia.
Qed.

End Counting.

(** *** When the walk returns *)

Lemma check_role_returns tagName a ln :
  throwing_role a = false -> exists vs, check_role tagName a ln = Returned vs.
Proof.
  unfold throwing_role, check_role.
  destruct (attr a "role") as [role|]; [|eauto].
  destruct (truthy role); [|eauto]. simpl.
  destruct (get roleRequiredAria role); eauto. discriminate.
Qed.

Lemma node_checks_returns tagName a children ln :
  throwing_role a = false ->
  exists vs, node_checks tagName a children ln = Returned vs.
Proof.
  intros H. unfold node_checks.
  destruct (@check_role_returns tagName a ln H) as (vs & ->). simpl. eauto.
Qed.

Lemma traverse_list_returns nodes :
  Forall (fun n => safe [n] ->
              forall st, exists st', traverse_node content n st = Returned st')
         nodes ->
  safe nodes ->
  forall st, exists st', traverse content nodes st = Returned st'.
Proof.
  unfold safe.
  induction 1 as [|n nodes Hn _ IH]; intros Hs st; simpl.
  - eauto.
  - simpl in Hs. apply Forall_app in Hs. destruct Hs as [Hs1 Hs2].
    destruct (Hn (ltac:(simpl; rewrite app_nil_r; exact Hs1)) st)
      as (st1 & ->). simpl. apply IH; auto.
Qed.

Lemma traverse_returns nodes :
  safe nodes -> forall st, exists st', traverse content nodes st = Returned st'.
Proof.
  apply traverse_list_returns.
  apply nodes_ind'; try solve [intros; simpl; eauto].
  intros t name a cs IH Hs st. destruct t; try solve [simpl; eauto].
  rewrite traverse_node_tag. unfold safe in Hs. cbn [visited] in Hs.
  rewrite app_nil_r, visited_node_tag in Hs.
  inversion Hs as [|x l Hx Hl]; subst. simpl in Hx.
  destruct (@node_checks_returns (toLowerCase name) a cs
              (locate content (toLowerCase name) (lineNumber st)) Hx)
    as (vs & ->). simpl.
  apply (traverse_list_returns IH). exact Hl.
Qed.

Lemma analyzeHTML_returns dom :
  safe dom ->
  exists vs, result (analyzeHTML_on content (Document dom)) = Returned vs.
Proof.
  intros Hs. simpl. unfold handler.
  destruct (traverse_returns Hs (TState 1 (document_checks content)))
    as (st & ->). simpl. eauto.
Qed.

End Phases.
End HtmlFacts.

(** ** The post-traversal collectors, in document order *)

Module CollectorFacts.
Import JsString Regex JsObject Dom Html Spec Catalogue DocumentOrder HtmlFacts.
Import StringFacts.
Local Open Scope list_scope.

Lemma descendants_element t name a cs :
  descendants_node (Element t name a cs)
  = Element t name a cs :: descendants cs.
Proof. reflexivity. Qed.

Lemma descendants_cdata cs :
  descendants_node (CData cs) = CData cs :: descendants cs.
Proof. reflexivity. Qed.

Lemma filter_map_app {A B} (f : A -> option B) (l1 l2 : list A) :
  filter_map f (l1 ++ l2) = filter_map f l1 ++ filter_map f l2.
Proof.
  induction l1 as [|x l1 IH]; simpl; auto. destruct (f x); simpl; congruence.
Qed.

(** A collector that visits a node and then its children is a fold over the
    nodes in document order. *)
Section Collector.
Variable S : Type.
Variable visit : node -> S -> S.
Variable collect_node : node -> S -> S.
Variable collect : list node -> S -> S.
Hypothesis collect_nil : forall st, collect [] st = st.
Hypothesis collect_cons : forall c nodes st,
    collect (c :: nodes) st = collect nodes (collect_node c st).
Hypothesis collect_element : forall t name a cs st,
    collect_node (Element t name a cs) st
    = collect cs (visit (Element t name a cs) st).
Hypothesis collect_cdata : forall cs st,
    collect_node (CData cs) st = collect cs (visit (CData cs) st).
Hypothesis collect_text : forall d st,
    collect_node (Text d) st = visit (Text d) st.
Hypothesis collect_comment : forall d st,
    collect_node (Comment d) st = visit (Comment d) st.
Hypothesis collect_directive : forall n d st,
    collect_node (Directive n d) st = visit (Directive n d) st.

Lemma collect_list_fold nodes :
  Forall (fun n => forall st,
              collect_node n st
              = fold_left (fun st n => visit n st) (descendants_node n) st)
         nodes ->
  forall st,
    collect nodes st
    = fold_left (fun st n => visit n st) (descendants nodes) st.
Proof.
  induction 1 as [|n nodes Hn _ IH]; intros st.
  - apply collect_nil.
  - rewrite collect_cons. simpl descendants. rewrite fold_left_app, <- Hn.
    apply IH.
Qed.

Lemma collect_fold nodes st :
  collect nodes st
  = fold_left (fun st n => visit n st) (descendants nodes) st.
Proof.
  revert st. apply collect_list_fold. apply nodes_ind'.
  - intros t name a cs IH st.
    rewrite collect_element, descendants_element. simpl fold_left.
    apply (collect_list_fold IH).
  - intros cs IH st.
    rewrite collect_cdata, descendants_cdata. simpl fold_left.
    apply (collect_list_fold IH).
  - intros d st. rewrite collect_text. reflexivity.
  - intros d st. rewrite collect_comment. reflexivity.
  - intros n d st. rewrite collect_directive. reflexivity.
Qed.

End Collector.

Lemma collectIds_fold ln nodes st :
  collectIds ln nodes st
  = fold_left (fun st n => visit_id ln n st) (descendants nodes) st.
Proof.
  apply (@collect_fold _ (visit_id ln) (collectIds_node ln) (collectIds ln));
    reflexivity.
Qed.

Lemma collectHeadings_fold ln nodes hs :
  collectHeadings ln nodes hs
  = fold_left (fun hs n => visit_heading ln n hs) (descendants nodes) hs.
Proof.
  apply (@collect_fold _ (visit_heading ln) (collectHeadings_node ln)
           (collectHeadings ln)); reflexivity.
Qed.

(** *** Identifiers *)

Lemma visit_id_spec ln n seen vs :
  visit_id ln n (seen, vs)
  = match id_of n with
    | None => (seen, vs)
    | Some id =>
        if existsb (String.eqb id) seen
        then (seen, vs ++ [duplicate_report ln id])
        else (seen ++ [id], vs)
    end.
Proof.
  unfold visit_id, id_of.
  destruct n as [[| |] name a cs| | | |]; try reflexivity.
  destruct (attr a "id") as [id|]; [|reflexivity].
  destruct (truthy id); reflexivity.
Qed.

Lemma visit_ids_fold ln nodes :
  forall seen vs,
    snd (fold_left (fun st n => visit_id ln n st) nodes (seen, vs))
    = vs ++ map (duplicate_report ln)
                (repeated seen (filter_map id_of nodes)).
Proof.
  induction nodes as [|n nodes IH]; intros seen vs; simpl.
  - rewrite app_nil_r. reflexivity.
  - rewrite visit_id_spec. destruct (id_of n) as [id|]; [|apply IH].
    simpl repeated. destruct (existsb (String.eqb id) seen).
    + rewrite IH. simpl. rewrite <- app_assoc. reflexivity.
    + apply IH.
Qed.

Lemma collectIds_duplicates ln dom vs :
  snd (collectIds ln dom ([], vs))
  = vs ++ map (duplicate_report ln) (repeated [] (ids dom)).
Proof. rewrite collectIds_fold, visit_ids_fold. reflexivity. Qed.

Lemma occurrences_repeated id :
  forall l seen,
    occurrences id (repeated seen l)
    = if existsb (String.eqb id) seen then occurrences id l
      else (occurrences id l - 1)%nat.
Proof.
  induction l as [|x l IH]; intros seen; simpl.
  - destruct (existsb _ seen); reflexivity.
  - destruct (existsb (String.eqb x) seen) eqn:Ex; simpl.
    + rewrite IH. destruct (existsb (String.eqb id) seen) eqn:Ei; auto.
      destruct (String.eqb_spec x id) as [->|Hne]; simpl; [congruence|].
      reflexivity.
    + rewrite IH. rewrite existsb_app. simpl. rewrite orb_false_r.
      rewrite (String.eqb_sym id x).
      destruct (String.eqb_spec x id) as [->|Hne]; simpl.
      * rewrite Ex. simpl. lia.
      * rewrite orb_false_r. reflexivity.
Qed.

Lemma append_cancel_r (a b s : string) :
  (a ++ s)%string = (b ++ s)%string -> a = b.
Proof.
  revert b. induction a as [|c a IH]; intros [|d b] H; simpl in H; auto.
  - exfalso. apply (f_equal String.length) in H. simpl in H.
    rewrite length_append in H. lia.
  - exfalso. apply (f_equal String.length) in H. simpl in H.
    rewrite length_append in H. lia.
  - injection H as -> H. f_equal. auto.
Qed.

Lemma duplicate_message_inj a b :
  duplicate_message a = duplicate_message b -> a = b.
Proof.
  unfold duplicate_message. simpl. intros H.
  injection H as H. eapply append_cancel_r. exact H.
Qed.

Lemma names_duplicate_count ln id l :
  List.length (filter (names_duplicate id) (map (duplicate_report ln) l))
  = occurrences id l.
Proof.
  induction l as [|x l IH]; simpl; auto.
  unfold names_duplicate at 1. simpl ruleId. simpl message.
  destruct (String.eqb_spec x id) as [->|Hne].
  - rewrite !String.eqb_refl. cbn [andb List.length]. rewrite IH.
    reflexivity.
  - destruct (String.eqb_spec (duplicate_message x) (duplicate_message id))
      as [E|E]; [apply duplicate_message_inj in E; contradiction|].
    rewrite andb_false_r. exact IH.
Qed.

(** *** Headings *)

Lemma visit_headings_fold ln nodes :
  forall hs,
    map level (fold_left (fun hs n => visit_heading ln n hs) nodes hs)
    = map level hs ++ filter_map heading_level_of nodes.
Proof.
  induction nodes as [|n nodes IH]; intros hs; simpl.
  - rewrite app_nil_r. reflexivity.
  - rewrite IH. unfold visit_heading, heading_level_of.
    destruct n as [[| |] name a cs| | | |]; auto.
    destruct (test re_heading name); auto.
    rewrite map_app, <- app_assoc. reflexivity.
Qed.

Lemma collectHeadings_levels ln dom :
  map level (collectHeadings ln dom []) = heading_levels dom.
Proof. rewrite collectHeadings_fold, visit_headings_fold. reflexivity. Qed.

Lemma heading_loop_count hs :
  forall h,
    count_rule "heading-hierarchy" (heading_loop h hs)
    = jumps_after (level h) (map level hs).
Proof.
  induction hs as [|c hs IH]; intros h; simpl; auto.
  rewrite count_rule_app, IH. destruct (skips (level h) (level c)); auto.
Qed.

Lemma check_heading_hierarchy_count hs :
  count_rule "heading-hierarchy" (check_heading_hierarchy hs)
  = jumps (map level hs).
Proof. destruct hs; simpl; auto using heading_loop_count. Qed.

(** *** What the checks after the walk push *)

Lemma duplicate_reports_rules ln l :
  Forall (fun v => pushed_by id_rules v = true) (map (duplicate_report ln) l).
Proof. apply Forall_map, Forall_forall. intros; reflexivity. Qed.

Lemma heading_loop_rules hs :
  forall h, Forall (fun v => pushed_by heading_rules v = true)
                   (heading_loop h hs).
Proof.
  induction hs as [|c hs IH]; intros h; simpl; [constructor|].
  apply Forall_app; split; auto.
  destruct (skips _ _); repeat constructor.
Qed.

Lemma check_heading_hierarchy_rules hs :
  Forall (fun v => pushed_by heading_rules v = true)
         (check_heading_hierarchy hs).
Proof. destruct hs; simpl; [constructor | apply heading_loop_rules]. Qed.

Lemma check_radio_groups_rules content rs :
  Forall (fun v => pushed_by radio_rules v = true)
         (check_radio_groups content rs).
Proof.
  unfold check_radio_groups. apply Forall_flat_map, Forall_forall.
  intros [name lns] _. unfold check_radio_group.
  destruct (1 <? _); [|constructor].
  destruct (negb _); repeat constructor.
Qed.

Lemma check_navigation_rules content :
  Forall (fun v => pushed_by navigation_rules v = true)
         (check_navigation content).
Proof.
  unfold check_navigation. destruct (exec_all _ _); [constructor|].
  destruct (negb _); repeat constructor.
Qed.

(** *** The parts of an answer *)

Section Answer.
Variable content : string.

(** The answer on a tree: the checks on the text, what the walk pushed, the
    duplicate reports, the heading, radio and navigation checks, and the
    inline-style check.  All that is pushed after the walk carries the line
    [lineNumber st] on which the walk ended. *)
Lemma analyzeHTML_parts dom vs :
  result (analyzeHTML_on content (Document dom)) = Returned vs ->
  exists st trav,
    traverse content dom (TState 1 (document_checks content)) = Returned st
    /\ violations st = document_checks content ++ trav
    /\ Forall (fun v => pushed_by traversal_rules v = true) trav
    /\ vs = document_checks content ++ trav
             ++ map (duplicate_report (lineNumber st)) (repeated [] (ids dom))
             ++ check_heading_hierarchy
                  (collectHeadings (lineNumber st) dom [])
             ++ check_radio_groups content
                  (collectRadios (lineNumber st) dom [])
             ++ check_navigation content
             ++ check_outline content.
Proof.
  simpl. unfold handler.
  destruct (traverse content dom _) as [st|] eqn:E; [|discriminate].
  simpl. intros H. injection H as <-.
  destruct (@traverse_appends content _ _ _ E) as (trav & Ev & Ft).
  simpl in Ev.
  exists st, trav. split; [reflexivity|]. split; [exact Ev|].
  split; [exact Ft|].
  rewrite collectIds_duplicates, Ev. repeat rewrite <- app_assoc.
  reflexivity.
Qed.

Lemma analyzeHTML_shape dom vs :
  result (analyzeHTML_on content (Document dom)) = Returned vs ->
  exists st trav post,
    traverse content dom (TState 1 (document_checks content)) = Returned st
    /\ violations st = document_checks content ++ trav
    /\ Forall (fun v => pushed_by traversal_rules v = true) trav
    /\ Forall (fun v => pushed_by post_traversal_rules v = true) post
    /\ vs = document_checks content ++ trav ++ post ++ check_outline content.
Proof.
  intros H. apply analyzeHTML_parts in H.
  destruct H as (st & trav & Ht & Ev & Ft & ->).
  exists st, trav,
    (map (duplicate_report (lineNumber st)) (repeated [] (ids dom))
       ++ check_heading_hierarchy (collectHeadings (lineNumber st) dom [])
       ++ check_radio_groups content (collectRadios (lineNumber st) dom [])
       ++ check_navigation content).
  split; [exact Ht|]. split; [exact Ev|]. split; [exact Ft|]. split.
  - unfold post_traversal_rules.
    apply Forall_app; split;
      [eapply Forall_impl; [|apply duplicate_reports_rules];
       intros v; apply pushed_by_app_l|].
    apply Forall_app; split;
      [eapply Forall_impl; [|apply check_heading_hierarchy_rules];
       intros v Hv; apply pushed_by_app_r, pushed_by_app_l; exact Hv|].
    apply Forall_app; split;
      [eapply Forall_impl; [|apply check_radio_groups_rules];
       intros v Hv; do 2 apply pushed_by_app_r; apply pushed_by_app_l;
       exact Hv|].
    eapply Forall_impl; [|apply check_navigation_rules].
    intros v Hv. do 3 apply pushed_by_app_r. exact Hv.
  - repeat rewrite <- app_assoc. reflexivity.
Qed.

(** Every violation of an answer carries a rule of the catalogue, with the
    severity the catalogue lists. *)
Lemma analyzeHTML_rules p vs :
  result (analyzeHTML_on content p) = Returned vs ->
  Forall (fun v => pushed_by all_rules v = true) vs.
Proof.
  assert (Hd : Forall (fun v => pushed_by all_rules v = true)
                      (document_checks content)).
  { eapply Forall_impl; [|apply document_checks_rules].
    intros v. apply pushed_by_app_l. }
  assert (Ho : Forall (fun v => pushed_by all_rules v = true)
                      (check_outline content)).
  { eapply Forall_impl; [|apply check_outline_rules].
    intros v Hv. unfold all_rules.
    do 3 apply pushed_by_app_r. exact Hv. }
  destruct p as [e|dom].
  - simpl. intros H. injection H as <-. apply Forall_app; auto.
  - intros H. apply analyzeHTML_shape in H.
    destruct H as (st & trav & post & _ & _ & Ft & Fp & ->).
    apply Forall_app; split; [exact Hd|].
    apply Forall_app; split; [|apply Forall_app; split; [|exact Ho]].
    + eapply Forall_impl; [|exact Ft]. intros v Hv. unfold all_rules.
      apply pushed_by_app_r, pushed_by_app_l. exact Hv.
    + eapply Forall_impl; [|exact Fp]. intros v Hv. unfold all_rules.
      do 2 apply pushed_by_app_r. apply pushed_by_app_l. exact Hv.
Qed.

(** The heading-hierarchy violations of an answer are as many as the
    headings that skip a level after their predecessor. *)
Lemma heading_hierarchy_count dom vs :
  result (analyzeHTML_on content (Document dom)) = Returned vs ->
  count_rule "heading-hierarchy" vs = jumps (heading_levels dom).
Proof.
  intros H. apply analyzeHTML_parts in H.
  destruct H as (st & trav & _ & _ & Ft & ->).
  repeat rewrite count_rule_app.
  rewrite (@count_rule_absent document_rules "heading-hierarchy" _ eq_refl
             (document_checks_rules content)).
  rewrite (@count_rule_absent traversal_rules "heading-hierarchy" _ eq_refl
             Ft).
  rewrite (@count_rule_absent id_rules "heading-hierarchy" _ eq_refl
             (duplicate_reports_rules _ _)).
  rewrite (@count_rule_absent radio_rules "heading-hierarchy" _ eq_refl
             (check_radio_groups_rules _ _)).
  rewrite (@count_rule_absent navigation_rules "heading-hierarchy" _ eq_refl
             (check_navigation_rules _)).
  rewrite (@count_rule_absent outline_rules "heading-hierarchy" _ eq_refl
             (check_outline_rules _)).
  rewrite check_heading_hierarchy_count, collectHeadings_levels. lia.
Qed.

(** No phase but the duplicate reports names a duplicate. *)
Lemma names_duplicate_absent rules id vs :
  existsb (fun r => String.eqb (fst r) "duplicate-id") rules = false ->
  Forall (fun v => pushed_by rules v = true) vs ->
  filter (names_duplicate id) vs = [].
Proof.
  intros Habs H. induction H as [|v vs Hv _ IH]; auto.
  simpl. rewrite IH. unfold names_duplicate.
  destruct (String.eqb_spec (ruleId v) "duplicate-id") as [E|E]; auto.
  exfalso. unfold pushed_by in Hv. apply existsb_exists in Hv.
  destruct Hv as (r & Hin & Hr). apply andb_true_iff in Hr.
  destruct Hr as [Hr _]. apply String.eqb_eq in Hr.
  assert (existsb (fun r => String.eqb (fst r) "duplicate-id") rules = true).
  { apply existsb_exists. exists r. split; auto.
    apply String.eqb_eq. congruence. }
  congruence.
Qed.

Lemma names_duplicate_reports ln id l :
  filter (names_duplicate id) (map (duplicate_report ln) l)
  = repeat (duplicate_report ln id) (occurrences id l).
Proof.
  induction l as [|x l IH]; simpl; auto.
  unfold names_duplicate at 1. simpl ruleId. simpl message.
  destruct (String.eqb_spec x id) as [->|Hne].
  - rewrite !String.eqb_refl. cbn [andb]. rewrite IH. reflexivity.
  - destruct (String.eqb_spec (duplicate_message x) (duplicate_message id))
      as [E|E]; [apply duplicate_message_inj in E; contradiction|].
    rewrite andb_false_r. exact IH.
Qed.

(** The duplicate-id violations that name an identifier: one for every
    occurrence after the first, each with the line on which the walk
    ended. *)
Lemma duplicate_id_reports dom vs id :
  result (analyzeHTML_on content (Document dom)) = Returned vs ->
  exists st,
    traverse content dom (TState 1 (document_checks content)) = Returned st
    /\ filter (names_duplicate id) vs
       = repeat (duplicate_report (lineNumber st) id)
                (occurrences id (ids dom) - 1).
Proof.
  intros H. apply analyzeHTML_parts in H.
  destruct H as (st & trav & Ht & _ & Ft & ->).
  exists st. split; [exact Ht|].
  repeat rewrite filter_app.
  rewrite (@names_duplicate_absent document_rules id _ eq_refl
             (document_checks_rules content)).
  rewrite (@names_duplicate_absent traversal_rules id _ eq_refl Ft).
  rewrite (@names_duplicate_absent heading_rules id _ eq_refl
             (check_heading_hierarchy_rules _)).
  rewrite (@names_duplicate_absent radio_rules id _ eq_refl
             (check_radio_groups_rules _ _)).
  rewrite (@names_duplicate_absent navigation_rules id _ eq_refl
             (check_navigation_rules _)).
  rewrite (@names_duplicate_absent outline_rules id _ eq_refl
             (check_outline_rules _)).
  simpl. rewrite app_nil_r, names_duplicate_reports, occurrences_repeated.
  reflexivity.
Qed.

End Answer.
End CollectorFacts.

(** ** The dispatcher *)

Module DispatcherFacts.
Import JsString Dom Hybrid Spec Markers Examples.

Lemma analyzeFileHybrid_classify env content filePath :
  analyzeFileHybrid env content filePath
  = evaluate env content filePath (classify content filePath).
Proof.
  unfold analyzeFileHybrid, classify, evaluate.
  destruct (_ || _)%bool; [reflexivity|].
  destruct (_ || _)%bool; [reflexivity|].
  destruct (_ || _)%bool; [|reflexivity].
  destruct (_ || _)%bool; reflexivity.
Qed.

Lemma delegate_returns env content filePath :
  exists out,
    result (analyzeFileWithESLint env content filePath) = Returned out.
Proof.
  unfold analyzeFileWithESLint.
  destruct (lintText env content filePath); simpl; eauto.
Qed.

Lemma unrecognized_route content filePath :
  recognized filePath = false ->
  classify content filePath = TemplatingDelegate.
Proof.
  unfold recognized, has_extension, classify, ext. simpl.
  intros H. repeat (apply orb_false_iff in H; destruct H as [? H]).
  repeat match goal with
         | E : String.eqb ?a ?b = false |- _ => rewrite E; clear E
         end.
  reflexivity.
Qed.

(** Claim C1, as amended.  For every input file the dispatcher's answer is
    the answer of the one evaluator it selects, reshaped to the shared
    schema: the markup, stylesheet or script analyzer mapped through
    [of_violation], or the delegate.  The dispatcher does not run the Fast
    Pre-Pass Evaluator, so none of its findings is part of the list. *)
Theorem dispatcher_returns_selected_evaluator_only
  (env : environment) (content filePath : string) :
  analyzeFileHybrid env content filePath
  = match classify content filePath with
    | MarkupEvaluator =>
        map_logged (map of_violation)
          (Html.analyzeHTML (parseDocument env) content)
    | StylesheetEvaluator =>
        map_logged (map of_violation) (analyzeCSS env content filePath)
    | ScriptEvaluator =>
        map_logged (map of_violation) (analyzeJS env content filePath)
    | TemplatingDelegate => analyzeFileWithESLint env content filePath
    end.
Proof. apply analyzeFileHybrid_classify. Qed.

(** Claim C1 fails as stated: on the markup file of the test suite the
    pre-pass has a finding, and the dispatcher's list is the markup
    evaluator's list alone. *)
Lemma prepass_findings_are_not_returned :
  ~ concatenates_prepass prePass_sample (env_for img_dom).
Proof.
  intros H.
  specialize (H img_text "test.html" _ _ eq_refl eq_refl eq_refl).
  apply (f_equal (@List.length finding)) in H.
  vm_compute in H. discriminate.
Qed.

(** Claim C2, as amended.  For every file routed to the templating delegate
    the entry point returns: when the delegate's engine throws, the error is
    caught, written to [console.error], and the answer is the empty list.
    For a markup file it returns as well when the parser reports an error
    (the error is logged and the findings on the raw text are returned) and
    when no visited tag has a role that makes the walk throw. *)
Theorem entry_point_returns_for_delegate_and_safe_markup
  (env : environment) (content filePath : string) :
  (classify content filePath = TemplatingDelegate ->
   (exists out,
       result (analyzeFileHybrid env content filePath) = Returned out)
   /\ (forall e,
          lintText env content filePath = Thrown e ->
          analyzeFileHybrid env content filePath
          = Logged [("ESLint analysis error: " ++ e)%string] (Returned [])))
  /\ (classify content filePath = MarkupEvaluator ->
      match parseDocument env content with
      | ParseError e =>
          analyzeFileHybrid env content filePath
          = Logged [("HTML parsing error: " ++ e)%string]
              (Returned (map of_violation
                           (Html.document_checks content
                              ++ Html.check_outline content)))
      | Document dom =>
          Catalogue.safe dom ->
          exists out,
            result (analyzeFileHybrid env content filePath) = Returned out
      end).
Proof.
  split; intros Hr; rewrite analyzeFileHybrid_classify, Hr; simpl.
  - split.
    + apply delegate_returns.
    + intros e He. unfold analyzeFileWithESLint. rewrite He. reflexivity.
  - unfold Html.analyzeHTML.
    destruct (parseDocument env content) as [e|dom]; [reflexivity|].
    intros Hs.
    destruct (@HtmlFacts.analyzeHTML_returns content dom Hs) as (vs & Hv).
    unfold map_logged. rewrite Hv. simpl. eauto.
Qed.

Lemma entry_point_returns_witness :
  classify jsx_text "App.jsx" = TemplatingDelegate
  /\ analyzeFileHybrid failing_env jsx_text "App.jsx"
     = Logged ["ESLint analysis error: Cannot read config"] (Returned []).
Proof.
  split; [reflexivity|].
  apply (proj2 (proj1 (@entry_point_returns_for_delegate_and_safe_markup
                         failing_env jsx_text "App.jsx") eq_refl)).
  reflexivity.
Defined.

(** Claim C2 fails as stated: a markup file with a role named like a
    property of [Object.prototype] makes the markup evaluator throw, and the
    dispatcher passes the exception on. *)
Lemma markup_exception_propagates : ~ never_throws (env_for ctor_dom).
Proof.
  intros H. destruct (H ctor_text "page.html") as (out & E).
  vm_compute in E. discriminate.
Qed.

(** Claim C3, as amended.  A file whose extension is not one of the eight
    recognized ones is handled like a templating file: it goes to the
    delegate, the answer is the delegate's, and the call returns. *)
Theorem unrecognized_extension_goes_to_delegate
  (env : environment) (content filePath : string) :
  recognized filePath = false ->
  classify content filePath = TemplatingDelegate
  /\ analyzeFileHybrid env content filePath
     = analyzeFileWithESLint env content filePath
  /\ exists out,
       result (analyzeFileHybrid env content filePath) = Returned out.
Proof.
  intros H. apply (unrecognized_route content) in H.
  rewrite analyzeFileHybrid_classify, H. simpl.
  repeat split. apply delegate_returns.
Qed.

Lemma unrecognized_extension_goes_to_delegate_witness :
  recognized "notes.txt" = false
  /\ analyzeFileHybrid reporting_env jsx_text "notes.txt"
     = analyzeFileWithESLint reporting_env jsx_text "notes.txt".
Proof.
  split; [reflexivity|].
  apply (@unrecognized_extension_goes_to_delegate reporting_env jsx_text
           "notes.txt" eq_refl).
Defined.

(** Claim C3 fails as stated: the delegate's finding on a file named
    [notes.txt] is returned. *)
Lemma unrecognized_extension_is_linted :
  ~ unrecognized_is_empty reporting_env.
Proof.
  intros H. specialize (H jsx_text "notes.txt" eq_refl).
  vm_compute in H. discriminate.
Qed.

(** Claim C9, as amended.  A [.js] or [.ts] file goes to the templating
    delegate exactly when its content has one of the three texts the content
    test looks for, and to the script evaluator otherwise: the word
    [import], white space, characters of one line, white space, [from],
    white space, a quote, [react] and a quote, the words in any letter case;
    or [return], optionally an opening parenthesis, and a capitalized tag;
    or an arrow and a capitalized tag.  A [.jsx] or [.tsx] file always goes
    to the delegate.  The dispatcher's answer is that of the route. *)
Theorem script_files_are_routed_by_marker
  (env : environment) (content filePath : string) :
  (has_extension script_extensions filePath = true ->
   (classify content filePath = TemplatingDelegate
    <-> marker_text content)
   /\ (classify content filePath = ScriptEvaluator
       <-> ~ marker_text content))
  /\ (has_extension templating_extensions filePath = true ->
      classify content filePath = TemplatingDelegate)
  /\ analyzeFileHybrid env content filePath
     = evaluate env content filePath (classify content filePath).
Proof.
  split; [|split; [|apply analyzeFileHybrid_classify]].
  - unfold has_extension, ext, classify. simpl. intros H.
    apply orb_true_iff in H.
    assert (Hs : (String.eqb (toLowerCase (Path.extname filePath)) ".js"
                  || String.eqb (toLowerCase (Path.extname filePath)) ".ts")%bool
                 = true).
    { destruct H as [H|H]; rewrite ?orb_false_r in H; rewrite H;
        auto using orb_true_r. }
    assert (Hm : (String.eqb (toLowerCase (Path.extname filePath)) ".html"
                  || String.eqb (toLowerCase (Path.extname filePath)) ".htm")%bool
                 = false).
    { destruct H as [H|H]; rewrite ?orb_false_r in H;
        apply String.eqb_eq in H; rewrite H; reflexivity. }
    assert (Hc : (String.eqb (toLowerCase (Path.extname filePath)) ".css"
                  || String.eqb (toLowerCase (Path.extname filePath)) ".scss")%bool
                 = false).
    { destruct H as [H|H]; rewrite ?orb_false_r in H;
        apply String.eqb_eq in H; rewrite H; reflexivity. }
    rewrite Hm, Hc, Hs.
    pose proof (LiteralFacts.marker_iff content) as Hiff.
    destruct (hasReactImport content || hasJSXElement content)%bool.
    + assert (Hy : marker_text content) by (apply Hiff; reflexivity).
      split; split; intros; auto; try discriminate; contradiction.
    + assert (Hn : ~ marker_text content).
      { intros Hx. apply Hiff in Hx. discriminate. }
      split; split; intros; auto; try discriminate; contradiction.
  - unfold has_extension, ext, classify. simpl. intros H.
    apply orb_true_iff in H.
    destruct H as [H|H]; rewrite ?orb_false_r in H;
      apply String.eqb_eq in H; rewrite H; reflexivity.
Qed.

Lemma script_files_are_routed_by_marker_witness :
  has_extension script_extensions "src/App.js" = true
  /\ classify one_line_import "src/App.js" = TemplatingDelegate
  /\ marker_text one_line_import.
Proof.
  split; [reflexivity|]. split; [reflexivity|].
  apply (proj1 (proj1 (@script_files_are_routed_by_marker reporting_env
                         one_line_import "src/App.js") eq_refl)).
  reflexivity.
Defined.

(** Claim C9 fails as stated.  A file that imports the runtime by a
    declaration written on several lines, and one that imports it without
    binding a name, are sent to the script evaluator; a file without any
    import, whose comment has the text the content test looks for, is sent
    to the delegate. *)
Lemma runtime_import_does_not_decide_the_route :
  (templating_marker multi_line_import
   /\ classify multi_line_import "src/useState.js" = ScriptEvaluator)
  /\ (templating_marker bare_import
      /\ classify bare_import "src/start.js" = ScriptEvaluator)
  /\ (~ templating_marker comment_text
      /\ classify comment_text "src/start.js" = TemplatingDelegate)
  /\ ~ routes_scripts_by_marker.
Proof.
  assert (Hm : templating_marker multi_line_import).
  { left. exists EmptyString, " ", (chr sq ++ "react" ++ chr sq),
      (";" ++ lf ++ "export default useState;" ++ lf).
    split; [vm_compute; auto|]. split; [left; reflexivity|].
    right. exists (" {" ++ lf ++ "  useState" ++ lf ++ "} ").
    split; [|reflexivity].
    split; [vm_compute; repeat split|].
    split; [exists " "%char, ("{" ++ lf ++ "  useState" ++ lf ++ "} ");
            split; reflexivity|].
    split; [exists (" {" ++ lf ++ "  useState" ++ lf ++ "}"), " "%char;
            split; reflexivity|].
    exists (" {" ++ lf ++ "  "), "u"%char, ("seState" ++ lf ++ "} ").
    split; reflexivity. }
  assert (Hb : templating_marker bare_import).
  { left. exists EmptyString, " ", (chr sq ++ "react" ++ chr sq),
      (";" ++ lf ++ "document.title = 'Start';" ++ lf).
    split; [vm_compute; auto|]. split; [left; reflexivity|].
    left. reflexivity. }
  assert (Hc : ~ templating_marker comment_text).
  { intros [H|[H|H]].
    - apply LiteralFacts.runtime_import_keyword in H.
      vm_compute in H. discriminate.
    - apply LiteralFacts.return_marker_iff in H.
      vm_compute in H. discriminate.
    - apply LiteralFacts.arrow_marker_iff in H.
      vm_compute in H. discriminate. }
  split; [split; [exact Hm|reflexivity]|].
  split; [split; [exact Hb|reflexivity]|].
  split; [split; [exact Hc|reflexivity]|].
  intros H.
  destruct (H multi_line_import "src/useState.js" eq_refl) as [_ [Hs _]].
  exact (Hs eq_refl Hm).
Qed.

(** The severities that the code of the dispatcher decides.  Every
    violation of the markup evaluator is an [error] or a [warning], and so
    is every finding returned on the markup route and on the delegate's.
    On the stylesheet and script routes a finding has the severity that the
    analyzer gave its violation: the mapping copies it. *)
Lemma severities_by_route
  (env : environment) (content filePath : string) :
  (forall vs,
      result (Html.analyzeHTML (parseDocument env) content) = Returned vs ->
      Forall (fun v => error_or_warning (Html.severity v)) vs)
  /\ (forall out,
         In (classify content filePath)
            [MarkupEvaluator; TemplatingDelegate] ->
         result (analyzeFileHybrid env content filePath) = Returned out ->
         Forall (fun f => error_or_warning (severity f)) out)
  /\ (forall out,
         classify content filePath = StylesheetEvaluator ->
         result (analyzeFileHybrid env content filePath) = Returned out ->
         exists vs,
           result (analyzeCSS env content filePath) = Returned vs
           /\ map severity out = map Html.severity vs)
  /\ (forall out,
         classify content filePath = ScriptEvaluator ->
         result (analyzeFileHybrid env content filePath) = Returned out ->
         exists vs,
           result (analyzeJS env content filePath) = Returned vs
           /\ map severity out = map Html.severity vs).
Proof.
  assert (Hhtml : forall vs,
             result (Html.analyzeHTML (parseDocument env) content)
             = Returned vs ->
             Forall (fun v => error_or_warning (Html.severity v)) vs).
  { intros vs H. apply CollectorFacts.analyzeHTML_rules in H.
    eapply Forall_impl; [|exact H]. intros v Hv.
    unfold Catalogue.pushed_by in Hv. apply existsb_exists in Hv.
    destruct Hv as (r & Hin & Hr). apply andb_true_iff in Hr.
    destruct Hr as [_ Hr]. apply String.eqb_eq in Hr. rewrite <- Hr.
    unfold error_or_warning.
    simpl in Hin.
    repeat (destruct Hin as [<-|Hin];
            [simpl; split; [auto | discriminate]|]).
    contradiction. }
  assert (Hcopy : forall (x : logged (list Html.violation)) out,
             result (map_logged (map of_violation) x) = Returned out ->
             exists vs, result x = Returned vs
                        /\ map severity out = map Html.severity vs).
  { intros x out H. unfold map_logged in H. simpl in H.
    destruct (result x) as [vs|]; [|discriminate]. injection H as <-.
    exists vs. split; [reflexivity|]. rewrite map_map. reflexivity. }
  split; [exact Hhtml|].
  split; [|split]; intros out Hr H;
    rewrite analyzeFileHybrid_classify in H.
  - destruct Hr as [Hr|[Hr|[]]]; rewrite <- Hr in H; simpl in H.
    + destruct (Hcopy _ _ H) as (vs & Hvs & Hsev).
      apply Hhtml in Hvs.
      apply Forall_forall. intros f Hf.
      apply (in_map severity) in Hf. rewrite Hsev in Hf.
      apply in_map_iff in Hf. destruct Hf as (v & <- & Hv).
      exact (proj1 (Forall_forall _ vs) Hvs v Hv).
    + unfold analyzeFileWithESLint in H.
      destruct (lintText env content filePath) as [ms|]; simpl in H;
        injection H as <-; [|constructor].
      unfold of_messages. generalize (or_default ms []). intros l.
      induction l as [|msg l IH]; simpl; [constructor|].
      destruct (msg_ruleId msg) as [rule|]; auto.
      destruct (_ && _)%bool; auto.
      constructor; auto. unfold of_message, error_or_warning. simpl.
      destruct (msg_severity msg =? 2); split; auto; discriminate.
  - rewrite Hr in H. exact (Hcopy _ _ H).
  - rewrite Hr in H. exact (Hcopy _ _ H).
Qed.

End DispatcherFacts.

(** ** The markup evaluator: labels, radio groups, headings, identifiers *)

Module MarkupFacts.
Import JsString Dom Html Spec Catalogue DocumentOrder Examples HtmlFacts
  CollectorFacts.
Local Open Scope list_scope.

Lemma count_if_sum {A} (p : A -> bool) (l : list A) :
  list_sum (map (fun x => if p x then 1%nat else 0%nat) l) = count_if p l.
Proof.
  unfold count_if. induction l as [|x l IH]; simpl; auto.
  destruct (p x); simpl; auto.
Qed.

(** What the checks of one tag contribute to the missing-label rule. *)
Lemma node_checks_missing_label tagName a children ln vs :
  node_checks tagName a children ln = Returned vs ->
  count_rule "form-input-missing-label" vs
  = if unlabeled_per_code (tagName, a, children) then 1%nat else 0%nat.
Proof.
  unfold node_checks.
  destruct (check_role tagName a ln) as [roles|e] eqn:Hr; simpl;
    [|discriminate].
  intros H. injection H as <-. apply check_role_rules in Hr.
  apply (@count_rule_absent role_rules "form-input-missing-label") in Hr;
    [|reflexivity].
  repeat rewrite count_rule_app. rewrite Hr.
  assert (H1 : count_rule "form-input-missing-label" (check_img tagName a ln)
               = O).
  { unfold check_img. destruct (String.eqb tagName "img"); auto.
    destruct (attr a "alt"); auto. destruct (_ && _)%bool; auto. }
  assert (H2 : count_rule "form-input-missing-label"
                 (check_button tagName a children ln) = O).
  { unfold check_button. destruct (String.eqb tagName "button"); auto.
    destruct (_ && _)%bool; auto. }
  assert (H3 : count_rule "form-input-missing-label"
                 (check_link tagName a children ln) = O).
  { unfold check_link. destruct (String.eqb tagName "a"); auto.
    repeat rewrite count_rule_app.
    destruct (_ && _)%bool; destruct (existsb _ children);
      try destruct (existsb _ nonDescriptive);
      destruct (is_str _ _); try destruct (negb _); reflexivity. }
  assert (H4 : count_rule "form-input-missing-label"
                 (check_iframe tagName a ln) = O).
  { unfold check_iframe. destruct (_ && _)%bool; auto. }
  assert (H5 : count_rule "form-input-missing-label"
                 (check_div_button tagName a ln) = O).
  { unfold check_div_button. destruct (_ && _)%bool; auto.
    destruct (_ || _)%bool; auto. }
  assert (H6 : count_rule "form-input-missing-label" (check_tabindex a ln)
               = O).
  { unfold check_tabindex. destruct (attr a "tabindex"); auto.
    destruct (_ && _)%bool; auto. }
  assert (H7 : count_rule "form-input-missing-label"
                 (check_heading tagName a children ln) = O).
  { unfold check_heading. destruct (Regex.test _ _); auto.
    destruct (_ && _)%bool; auto. }
  assert (H8 : count_rule "form-input-missing-label"
                 (check_table tagName children ln) = O).
  { unfold check_table. destruct (_ && _)%bool; auto. }
  assert (H9 : count_rule "form-input-missing-label"
                 (check_autoplay tagName a ln) = O).
  { unfold check_autoplay. destruct (_ && _)%bool; auto.
    destruct (_ && _)%bool; auto. }
  assert (H10 : count_rule "form-input-missing-label"
                  (check_captions tagName children ln) = O).
  { unfold check_captions. destruct (is_media _); auto.
    destruct (negb _); auto. }
  rewrite H1, H2, H3, H4, H5, H6, H7, H8, H9, H10.
  unfold unlabeled_per_code, check_input.
  destruct (is_checked_input tagName a); simpl; auto.
  repeat rewrite count_rule_app.
  destruct (input_hasLabel a); simpl;
    destruct (truthy_opt (attr a "placeholder")); simpl;
    destruct (_ || _)%bool; try destruct (negb (truthy_opt (attr a "autocomplete")));
    destruct (defined _); try destruct (negb (truthy_opt (attr a "aria-required")));
    reflexivity.
Qed.

(** Claim C5, as amended.  The number of missing-label violations of an
    answer is the number of visited inputs (not hidden, submit or button)
    that have no non-empty [aria-label], [aria-labelledby] or [id]: an [id]
    counts as a label by itself, whether or not a [label for] names it. *)
Theorem missing_label_counts_inputs_without_id_or_aria
  (content : string) (dom : list node) (vs : list violation) :
  result (analyzeHTML_on content (Document dom)) = Returned vs ->
  count_rule "form-input-missing-label" vs
  = count_if unlabeled_per_code (visited dom).
Proof.
  intros H. apply analyzeHTML_shape in H.
  destruct H as (st & trav & post & Ht & Ev & Ft & Fp & ->).
  pose proof (@traverse_counts content "form-input-missing-label"
                (fun t => if unlabeled_per_code t then 1%nat else 0%nat)
                node_checks_missing_label dom _ _ Ht) as Hc.
  unfold Catalogue.counts in Hc. simpl in Hc. rewrite Ev, count_rule_app in Hc.
  rewrite count_if_sum in Hc.
  repeat rewrite count_rule_app.
  rewrite (@count_rule_absent post_traversal_rules
             "form-input-missing-label" post eq_refl Fp).
  rewrite (@count_rule_absent outline_rules "form-input-missing-label"
             _ eq_refl (check_outline_rules content)).
  pose proof (@count_rule_absent document_rules "form-input-missing-label"
                _ eq_refl (document_checks_rules content)) as Hd.
  lia.
Qed.

Lemma missing_label_counts_inputs_without_id_or_aria_witness :
  result (analyzeHTML_on input_text (Document input_dom))
  = Returned (document_checks input_text)
  /\ count_rule "form-input-missing-label" (document_checks input_text)
     = count_if unlabeled_per_code (visited input_dom).
Proof.
  split; [reflexivity|].
  apply (@missing_label_counts_inputs_without_id_or_aria input_text
           input_dom).
  reflexivity.
Defined.

(** Claim C5 fails as stated: an input with an [id] that no [label for]
    names is not reported. *)
Lemma id_without_label_is_not_flagged : ~ flags_unresolvable_labels.
Proof.
  intros H. specialize (H input_text input_dom _ eq_refl).
  vm_compute in H. discriminate.
Qed.

(** The radio check warns about every group of two or more radios, whatever
    the text is: its fieldset test never succeeds. *)
Lemma radio_group_is_warned_whatever_the_text content name l1 l2 lns :
  map brief (check_radio_group content (name, l1 :: l2 :: lns))
  = [("radio-missing-fieldset", "warning", l1,
      ("Radio button group " ++ q ++ name ++ q
         ++ " should be wrapped in <fieldset> with <legend>")%string)].
Proof.
  unfold check_radio_group.
  rewrite LiteralFacts.fieldset_literal_never_matches.
  replace (1 <? Z.of_nat (List.length (l1 :: l2 :: lns))) with true.
  - reflexivity.
  - symmetry. apply Z.ltb_lt. simpl List.length. lia.
Qed.

(** Claim C4, the code at the failing input: two radios named [plan] inside
    a fieldset with a legend get the radio-missing-fieldset warning. *)
Theorem fieldset_wrapped_radio_group_is_warned :
  of_rule "radio-missing-fieldset"
    (analyzeHTML_on radio_text (Document radio_dom))
  = [("radio-missing-fieldset", "warning", 1,
      ("Radio button group " ++ q ++ "plan" ++ q
         ++ " should be wrapped in <fieldset> with <legend>")%string)].
Proof. vm_compute. reflexivity. Qed.

(** Every heading that [collectHeadings] records carries the line the walk
    ended on, not a line of its own. *)
Lemma collected_headings_share_one_line ln nodes :
  forall hs,
    Forall (fun h => heading_line h = ln) hs ->
    Forall (fun h => heading_line h = ln) (collectHeadings ln nodes hs).
Proof.
  assert (Hvisit : forall n hs,
             Forall (fun h => heading_line h = ln) hs ->
             Forall (fun h => heading_line h = ln) (visit_heading ln n hs)).
  { intros n hs H. unfold visit_heading.
    destruct n as [[| |] name a cs| | | |]; auto.
    destruct (Regex.test _ _); auto.
    apply Forall_app; split; auto. }
  assert (Hlist : forall nodes,
             Forall (fun n => forall hs,
                         Forall (fun h => heading_line h = ln) hs ->
                         Forall (fun h => heading_line h = ln)
                                (collectHeadings_node ln n hs)) nodes ->
             forall hs,
               Forall (fun h => heading_line h = ln) hs ->
               Forall (fun h => heading_line h = ln)
                      (collectHeadings ln nodes hs)).
  { induction 1 as [|n l Hn _ IH]; intros hs H; simpl; auto. }
  apply Hlist. apply nodes_ind'.
  - intros t name a cs IH hs H.
    change (collectHeadings_node ln (Element t name a cs) hs)
      with (collectHeadings ln cs (visit_heading ln (Element t name a cs) hs)).
    apply (Hlist cs IH). apply Hvisit. exact H.
  - intros cs IH hs H.
    change (collectHeadings_node ln (CData cs) hs)
      with (collectHeadings ln cs hs).
    apply (Hlist cs IH). exact H.
  - intros d hs H. exact H.
  - intros d hs H. exact H.
  - intros n d hs H. exact H.
Qed.

(** The count of the heading check is right for every document: one
    violation for the levels 1, 2, 4 and none for 1, 2, 3. *)
Lemma skipped_level_is_reported_once content dom vs :
  heading_levels dom = [Some 1; Some 2; Some 4] ->
  result (analyzeHTML_on content (Document dom)) = Returned vs ->
  count_rule "heading-hierarchy" vs = 1%nat.
Proof.
  intros Hl H. rewrite (heading_hierarchy_count _ _ H), Hl. reflexivity.
Qed.

Lemma consecutive_levels_are_not_reported content dom vs :
  heading_levels dom = [Some 1; Some 2; Some 3] ->
  result (analyzeHTML_on content (Document dom)) = Returned vs ->
  count_rule "heading-hierarchy" vs = O.
Proof.
  intros Hl H. rewrite (heading_hierarchy_count _ _ H), Hl. reflexivity.
Qed.

(** Claim C7, the code at the failing input: for headings h1, h2, h4 on
    lines 1, 2 and 3, followed by a paragraph on line 6, the one
    heading-hierarchy violation is reported on line 6, while the h4 stands
    on line 3; with h3 in place of h4 there is no such violation. *)
Theorem h4_violation_reports_the_last_line :
  of_rule "heading-hierarchy"
    (analyzeHTML_on headings_text (Document headings_dom))
  = [("heading-hierarchy", "warning", 6,
      "Heading hierarchy skipped from h2 to h4")]
  /\ line_at headings_text (indexOf headings_text "<h4" 0) = 3
  /\ of_rule "heading-hierarchy"
       (analyzeHTML_on headings_ok_text (Document headings_ok_dom))
     = [].
Proof. vm_compute. repeat split. Qed.

(** The count of the identifier check is right for every document: an
    identifier that occurs [k + 1] times is named by [k] violations.  All of
    them carry the line on which the walk ended. *)
Lemma repeated_id_is_reported_per_occurrence content dom vs id k :
  occurrences id (ids dom) = S k ->
  result (analyzeHTML_on content (Document dom)) = Returned vs ->
  exists ln,
    filter (names_duplicate id) vs = repeat (duplicate_report ln id) k.
Proof.
  intros Ho H. destruct (duplicate_id_reports _ _ id H) as (st & _ & E).
  exists (lineNumber st). rewrite E, Ho. simpl. rewrite Nat.sub_0_r.
  reflexivity.
Qed.

(** Claim C8, the code at the failing input: of two elements with [id] x on
    lines 1 and 2, followed by a paragraph on line 5, the one duplicate-id
    violation is reported on line 5, while the second occurrence stands on
    line 2; three such elements give two violations. *)
Theorem duplicate_id_reports_the_last_line :
  of_rule "duplicate-id" (analyzeHTML_on two_ids_text (Document two_ids_dom))
  = [("duplicate-id", "error", 5,
      ("Duplicate ID " ++ q ++ "x" ++ q ++ " found")%string)]
  /\ line_at two_ids_text (indexOf two_ids_text "<div" 1) = 2
  /\ List.length
       (of_rule "duplicate-id"
          (analyzeHTML_on three_ids_text (Document three_ids_dom)))
     = 2%nat.
Proof. vm_compute. repeat split. Qed.

End MarkupFacts.

(** ** The batch tool *)

Module BatchFacts.
Import JsString Dom Hybrid Mcp Spec Examples.
Local Open Scope list_scope.

Lemma fold_add_shift (l : list Z) (a : Z) :
  fold_left Z.add l a = a + fold_left Z.add l 0.
Proof.
  revert a. induction l as [|x l IH]; intros a; simpl; [lia|].
  rewrite (IH (a + x)), (IH x). lia.
Qed.

Lemma sum_cons (x : Z) (l : list Z) : sum (x :: l) = x + sum l.
Proof. unfold sum. simpl. apply fold_add_shift. Qed.

Lemma count_severity_app sev (a b : list finding) :
  count_severity sev (a ++ b) = count_severity sev a + count_severity sev b.
Proof.
  unfold count_severity. rewrite filter_app, length_app. lia.
Qed.

(** The three numbers of an element of [results], as the totals read
    them. *)
Lemma check_file_numbers env f :
  summary_number "totalViolations" (check_file env f)
  = Z.of_nat (List.length (violations (check_file env f)))
  /\ summary_number "errors" (check_file env f)
     = count_severity "error" (violations (check_file env f))
  /\ summary_number "warnings" (check_file env f)
     = count_severity "warning" (violations (check_file env f)).
Proof.
  unfold check_file.
  destruct (result (analyzeFileHybrid env (content f) (path f)));
    repeat split; reflexivity.
Qed.

Lemma totals env files :
  sum (map (summary_number "totalViolations") (map (check_file env) files))
  = Z.of_nat (List.length (flat_map violations (map (check_file env) files)))
  /\ sum (map (summary_number "errors") (map (check_file env) files))
     = count_severity "error"
         (flat_map violations (map (check_file env) files))
  /\ sum (map (summary_number "warnings") (map (check_file env) files))
     = count_severity "warning"
         (flat_map violations (map (check_file env) files)).
Proof.
  induction files as [|f files (IH1 & IH2 & IH3)]; simpl.
  - repeat split; reflexivity.
  - destruct (check_file_numbers env f) as (E1 & E2 & E3).
    repeat rewrite sum_cons. rewrite IH1, IH2, IH3, E1, E2, E3.
    rewrite length_app, !count_severity_app. repeat split; lia.
Qed.

(** Claim C6, as amended.  The batch tool answers with one result per file,
    in the order of the request, and a summary of exactly five numbers: the
    files checked, the files with violations, and the total, error and
    warning counts over all files.  The summary holds no set of criteria. *)
Theorem batch_summary_has_five_counts
  (env : environment) (files : list file) :
  let out := handleCheckAccessibilityBatch env files in
  let all := flat_map violations (results out) in
  map filePath (results out) = map path files
  /\ (forall f r, In (f, r) (combine files (results out)) ->
                  r = check_file env f)
  /\ batch_summary out
     = [("filesChecked", JNumber (Z.of_nat (List.length files)));
        ("filesWithViolations",
         JNumber (Z.of_nat (count_if (fun r => negb (Nat.eqb (List.length (violations r)) 0))
                              (results out))));
        ("totalViolations", JNumber (Z.of_nat (List.length all)));
        ("totalErrors", JNumber (count_severity "error" all));
        ("totalWarnings", JNumber (count_severity "warning" all))].
Proof.
  simpl. split; [|split].
  - rewrite map_map. apply map_ext. intros f. unfold check_file.
    destruct (result _); reflexivity.
  - intros f r H. induction files as [|f0 fs IH]; simpl in H; [contradiction|].
    destruct H as [H|H]; [congruence | auto].
  - unfold overallSummary.
    destruct (totals env files) as (E1 & E2 & E3). rewrite E1, E2, E3.
    repeat f_equal. unfold count_if. clear E1 E2 E3.
    induction (map (check_file env) files) as [|r rs IH]; simpl; auto.
    destruct (violations r); simpl; auto.
Qed.

(** Claim C6 fails as stated: for a batch of one markup file whose
    violations carry criteria, no property of the summary is a list. *)
Lemma batch_summary_has_no_criteria :
  ~ summary_has_criteria
      (handleCheckAccessibilityBatch (env_for img_dom) batch_files).
Proof.
  intros (key & criteria & Hin & _). vm_compute in Hin.
  repeat (destruct Hin as [Hin|Hin]; [discriminate|]). contradiction.
Qed.

End BatchFacts.

(** ** Lines: [getLineNumber] *)

Module LineFacts.
Import JsString Dom Html Spec Report StringFacts.

Lemma rev_acc_length (s : string) :
  forall acc,
    String.length (rev_acc s acc) = (String.length s + String.length acc)%nat.
Proof.
  induction s as [|c s IH]; intros acc; simpl; [reflexivity|].
  rewrite IH. simpl. lia.
Qed.

Lemma len_rev (s : string) : len (rev s) = len s.
Proof.
  unfold len, rev. rewrite rev_acc_length. simpl. f_equal. lia.
Qed.

Lemma take_nil (n : nat) : take n EmptyString = EmptyString.
Proof. destruct n; reflexivity. Qed.

Lemma count_char_nonneg (c : ascii) (s : string) : 0 <= count_char c s.
Proof.
  induction s as [|a s IH]; simpl; [lia|]. destruct (Ascii.eqb a c); lia.
Qed.

Lemma count_char_take_le (c : ascii) (s : string) :
  forall n m, (n <= m)%nat ->
    count_char c (take n s) <= count_char c (take m s).
Proof.
  induction s as [|a s IH]; intros n m H.
  - rewrite !take_nil. lia.
  - destruct n as [|n]; simpl.
    + apply count_char_nonneg.
    + destruct m as [|m]; [lia|]. simpl.
      specialize (IH n m ltac:(lia)). lia.
Qed.

Lemma take_all (s : string) :
  forall n, (String.length s <= n)%nat -> take n s = s.
Proof.
  induction s as [|a s IH]; intros n H; [apply take_nil|].
  destruct n as [|n]; simpl in *; [lia|]. rewrite IH; [reflexivity|lia].
Qed.

Lemma count_char_take_total (c : ascii) (s : string) (n : nat) :
  count_char c (take n s) <= count_char c s.
Proof.
  rewrite <- (take_all s (n := Nat.max n (String.length s))) at 2 by lia.
  apply count_char_take_le. lia.
Qed.

(** The lines of a text: one more than its line feeds. *)
Lemma split_acc_length (s : string) :
  forall cur,
    Z.of_nat (List.length (split_acc nl s cur)) = 1 + count_char nl s.
Proof.
  induction s as [|a s IH]; intros cur; [reflexivity|].
  cbn [split_acc count_char]. destruct (Ascii.eqb a nl); cbn [List.length].
  - rewrite Nat2Z.inj_succ, IH. lia.
  - rewrite IH. lia.
Qed.

Lemma lines_length (content : string) :
  Z.of_nat (List.length (lines content)) = 1 + count_char nl content.
Proof. apply split_acc_length. Qed.

(** The loop of [getLineNumber], started in the middle of a line: [cur] is
    what was read of the current line, [c] the offset at which that line
    starts and [i] the number of lines before it. *)
Lemma getLineNumber_from_split (s : string) :
  forall cur i c index,
    match getLineNumber_from (split_acc nl s cur) i c index with
    | Some n => n
    | None => i + Z.of_nat (List.length (split_acc nl s cur))
    end
    = i + 1 + count_char nl (take (Z.to_nat (index - 1 - c - len cur)) s).
Proof.
  induction s as [|a s IH]; intros cur i c index.
  - rewrite take_nil. simpl. destruct (_ >=? _); simpl; lia.
  - simpl split_acc. destruct (Ascii.eqb a nl) eqn:Ea.
    + simpl getLineNumber_from. rewrite len_rev.
      destruct (c + (len cur + 1) >=? index) eqn:Hc.
      * apply Z.geb_le in Hc.
        replace (Z.to_nat (index - 1 - c - len cur)) with O by lia.
        simpl. lia.
      * assert (Hlt : c + (len cur + 1) < index).
        { destruct (Z.geb_spec (c + (len cur + 1)) index); [discriminate|lia]. }
        specialize (IH EmptyString (i + 1) (c + (len cur + 1)) index).
        simpl List.length. rewrite Nat2Z.inj_succ.
        assert (E : Z.to_nat (index - 1 - c - len cur)
                    = S (Z.to_nat (index - 1 - (c + (len cur + 1))
                                   - len EmptyString))).
        { change (len EmptyString) with 0. lia. }
        rewrite E. cbn [take count_char]. rewrite Ea.
        destruct (getLineNumber_from _ _ _ _); lia.
    + specialize (IH (String a cur) i c index).
      rewrite IH.
      assert (El : len (String a cur) = len cur + 1).
      { unfold len. cbn [String.length]. lia. }
      rewrite El.
      destruct (Z.to_nat (index - 1 - c - len cur)) as [|k] eqn:Ek.
      * replace (Z.to_nat (index - 1 - c - (len cur + 1))) with O by lia.
        destruct s; reflexivity.
      * replace (Z.to_nat (index - 1 - c - (len cur + 1))) with k by lia.
        cbn [take count_char]. rewrite Ea. lia.
Qed.

Lemma getLineNumber_line_at (content : string) (index : Z) :
  getLineNumber content index = line_at content (index - 1).
Proof.
  unfold getLineNumber, lines, split, line_at.
  pose proof (getLineNumber_from_split content EmptyString 0 0 index) as H.
  change (len EmptyString) with 0 in H.
  replace (index - 1 - 0 - 0) with (index - 1) in H by lia.
  destruct (getLineNumber_from _ _ _ _); lia.
Qed.

Lemma take_append_length (a b : string) :
  take (String.length a) (a ++ b) = a.
Proof. induction a as [|c a IH]; simpl; [destruct b|rewrite IH]; reflexivity. Qed.

Lemma count_char_append (c : ascii) (a b : string) :
  count_char c (a ++ b) = count_char c a + count_char c b.
Proof.
  induction a as [|x a IH]; simpl; [reflexivity|]. rewrite IH. lia.
Qed.

(** Property X2.  A position that starts a line (the character before it is a line
    feed) is given the number of the line above it. *)
Theorem line_start_is_numbered_one_line_up (before after : string) :
  let content := before ++ String nl after in
  let start := len before + 1 in
  line_at content start = 2 + count_char nl before
  /\ getLineNumber content start = 1 + count_char nl before.
Proof.
  intros content start.
  assert (Et : forall k, take (String.length before + k) content
                         = before ++ take k (String nl after)).
  { intros k. unfold content. clear. induction before as [|c b IH]; simpl.
    - reflexivity.
    - rewrite IH. reflexivity. }
  split.
  - unfold line_at, start, len.
    replace (Z.to_nat (Z.of_nat (String.length before) + 1))
      with (String.length before + 1)%nat by lia.
    rewrite Et, count_char_append. cbn [take count_char].
    rewrite Ascii.eqb_refl. lia.
  - rewrite getLineNumber_line_at. unfold line_at, start, len.
    replace (Z.to_nat (Z.of_nat (String.length before) + 1 - 1))
      with (String.length before + 0)%nat by lia.
    rewrite Et, count_char_append. cbn [take count_char]. lia.
Qed.

Lemma within_getLineNumber (content : string) (index : Z) :
  within content (getLineNumber content index).
Proof.
  unfold within. rewrite getLineNumber_line_at, lines_length. unfold line_at.
  pose proof (count_char_nonneg nl (take (Z.to_nat (index - 1)) content)).
  pose proof (count_char_take_total nl content (Z.to_nat (index - 1))).
  lia.
Qed.

(** Property X1.  [getLineNumber(index)] is the line of the character BEFORE [index]:
    its comparison is made after the length of the line and its line feed
    have been added.  So an index up to 1 gives line 1, also the [-1] of a
    failed [indexOf], and an index past the end gives the last line. *)
Theorem getLineNumber_is_line_before_index (content : string) (index : Z) :
  getLineNumber content index = line_at content (index - 1)
  /\ (index <= 1 -> getLineNumber content index = 1)
  /\ (len content < index ->
      getLineNumber content index = Z.of_nat (List.length (lines content))).
Proof.
  split; [apply getLineNumber_line_at|]. split; intros H.
  - rewrite getLineNumber_line_at. unfold line_at.
    replace (Z.to_nat (index - 1)) with O by lia. destruct content; reflexivity.
  - rewrite getLineNumber_line_at, lines_length. unfold line_at.
    rewrite take_all; [reflexivity|]. unfold len in H. lia.
Qed.

Lemma getLineNumber_is_line_before_index_witness :
  getLineNumber Samples.two_lines_text 12 = line_at Samples.two_lines_text 11
  /\ getLineNumber Samples.two_lines_text (-1) = 1
  /\ getLineNumber Samples.two_lines_text 99 = 2.
Proof.
  pose proof (@getLineNumber_is_line_before_index Samples.two_lines_text)
    as H.
  split; [exact (proj1 (H 12))|]. split.
  - apply (proj1 (proj2 (H (-1)))). lia.
  - apply (proj2 (proj2 (H 99))). vm_compute. reflexivity.
Defined.

(** Property X3.  The answer of [getLineNumber] is the number of a line of the text,
    whatever the index, and it does not decrease when the index grows. *)
Theorem getLineNumber_is_a_line_and_monotone (content : string) :
  (forall index, within content (getLineNumber content index))
  /\ (forall i j, i <= j ->
        getLineNumber content i <= getLineNumber content j).
Proof.
  split; [apply within_getLineNumber|].
  intros i j Hij. rewrite !getLineNumber_line_at. unfold line_at.
  pose proof (@count_char_take_le nl content (Z.to_nat (i - 1))
                (Z.to_nat (j - 1)) ltac:(lia)).
  lia.
Qed.

Lemma getLineNumber_is_a_line_and_monotone_witness :
  within Samples.two_lines_text (getLineNumber Samples.two_lines_text 12)
  /\ getLineNumber Samples.two_lines_text 3
     <= getLineNumber Samples.two_lines_text 15.
Proof.
  pose proof (@getLineNumber_is_a_line_and_monotone Samples.two_lines_text)
    as H.
  split; [exact (proj1 H 12)|]. apply (proj2 H). lia.
Defined.

End LineFacts.

(** ** Where and how violations are pushed *)

Module ReportFacts.
Import JsString Regex JsObject Dom Html Spec Catalogue DocumentOrder Report.
Import Checks HtmlFacts CollectorFacts LineFacts.
Local Open Scope list_scope.

(** Goes through the branches of a check, down to its pushes. *)
Ltac pushes :=
  repeat match goal with
         | |- Forall _ [] => constructor
         | |- Forall _ (_ :: _) => constructor; [reflexivity|]
         | |- Forall _ (_ ++ _) => apply Forall_app; split
         | |- Forall _ (if ?b then _ else _) => destruct b
         | |- Forall _ (match ?x with _ => _ end) => destruct x
         end.

Lemma check_role_reported tagName a ln vs :
  check_role tagName a ln = Returned vs -> Forall (reported_at ln) vs.
Proof.
  unfold check_role. intros H.
  destruct (attr a "role") as [role|]; [|injection H as <-; constructor].
  destruct (truthy role); [|injection H as <-; constructor].
  destruct (get roleRequiredAria role) as [required| |];
    [|discriminate|]; injection H as <-; pushes.
  apply Forall_flat_map, Forall_forall. intros prop _. pushes.
Qed.

Lemma node_checks_reported tagName a children ln vs :
  node_checks tagName a children ln = Returned vs ->
  Forall (reported_at ln) vs.
Proof.
  unfold node_checks. destruct (check_role tagName a ln) as [roles|e] eqn:Hr;
    simpl; [|discriminate].
  intros H. injection H as <-. apply check_role_reported in Hr.
  unfold check_img, check_input, check_button, check_link, check_iframe,
    check_div_button, check_tabindex, check_heading, check_table,
    check_autoplay, check_captions.
  pushes; assumption.
Qed.

(** *** An invariant of the walk *)

Section Invariant.
Variable content : string.
Variable I : tstate -> Prop.
Hypothesis I_step : forall st tagName a children vs,
    I st ->
    node_checks tagName a children (locate content tagName (lineNumber st))
    = Returned vs ->
    I (TState (locate content tagName (lineNumber st))
              (violations st ++ vs)).

Lemma traverse_list_invariant nodes :
  Forall (fun n => forall st st',
              I st -> traverse_node content n st = Returned st' -> I st')
         nodes ->
  forall st st', I st -> traverse content nodes st = Returned st' -> I st'.
Proof.
  induction 1 as [|n nodes Hn _ IH]; intros st st' Hi H; simpl in H.
  - injection H as <-. exact Hi.
  - destruct (traverse_node content n st) as [st1|] eqn:E; [|discriminate].
    simpl in H. eauto.
Qed.

Lemma traverse_invariant nodes st st' :
  I st -> traverse content nodes st = Returned st' -> I st'.
Proof.
  revert st st'. apply traverse_list_invariant.
  apply nodes_ind';
    try (intros; simpl in *;
         match goal with H : Returned _ = Returned _ |- _ =>
           injection H as <- end; assumption).
  intros t name a cs IH st st' Hi H. destruct t;
    try (simpl in H; injection H as <-; exact Hi).
  rewrite (@traverse_node_tag content name a cs st) in H.
  destruct (node_checks _ _ _ _) as [vs|] eqn:E; [|discriminate].
  simpl in H. eapply (traverse_list_invariant IH); [|exact H].
  eapply I_step; [exact Hi|exact E].
Qed.

End Invariant.

(** *** Lines *)

Lemma within_first (content : string) : within content 1.
Proof.
  unfold within. rewrite lines_length.
  pose proof (count_char_nonneg nl content). lia.
Qed.

Lemma within_locate (content tagName : string) (ln : Z) :
  within content ln -> within content (locate content tagName ln).
Proof.
  intros H. unfold locate. destruct (negb _); [|exact H].
  apply within_getLineNumber.
Qed.

Lemma placed (content : string) (ln : Z) (vs : list violation) :
  within content ln -> Forall (reported_at ln) vs ->
  Forall (well_placed content) vs.
Proof.
  intros Hw. apply Forall_impl. intros v Hv. exists ln. split; assumption.
Qed.

Lemma document_checks_placed (content : string) :
  Forall (well_placed content) (document_checks content).
Proof.
  unfold document_checks, check_lang, check_title, check_main, check_marquee.
  repeat (apply Forall_app; split).
  - apply (placed (within_first content)). pushes.
  - destruct (match exec re_title content with Some _ => _ | None => _ end);
      [|constructor].
    apply (placed (within_getLineNumber content
                     (indexOf content "<title" 0))). pushes.
  - apply (placed (within_first content)). pushes.
  - rewrite Forall_map. apply Forall_forall. intros f _.
    exists (getLineNumber content (index f)).
    split; [apply within_getLineNumber|reflexivity].
Qed.

Lemma check_outline_placed (content : string) :
  Forall (well_placed content) (check_outline content).
Proof.
  unfold check_outline. rewrite Forall_map. apply Forall_forall. intros f _.
  exists (getLineNumber content (index f)).
  split; [apply within_getLineNumber|reflexivity].
Qed.

Lemma check_navigation_placed (content : string) :
  Forall (well_placed content) (check_navigation content).
Proof.
  unfold check_navigation. destruct (exec_all _ _) as [|f fs]; [constructor|].
  apply (placed (within_getLineNumber content
                   (indexOf content (matched f) 0))). pushes.
Qed.

(** What the collectors record carries the line they were given. *)
Lemma visited_headings_line ln nodes :
  forall hs,
    Forall (fun h => heading_line h = ln) hs ->
    Forall (fun h => heading_line h = ln)
           (fold_left (fun hs n => visit_heading ln n hs) nodes hs).
Proof.
  induction nodes as [|n nodes IH]; intros hs H; simpl; [exact H|].
  apply IH. unfold visit_heading.
  destruct n as [[| |] name a cs| | | |]; try exact H.
  destruct (test re_heading name); [|exact H].
  apply Forall_app; split; [exact H|]. repeat constructor.
Qed.

Lemma heading_loop_reported ln hs :
  Forall (fun h => heading_line h = ln) hs ->
  forall h, Forall (reported_at ln) (heading_loop h hs).
Proof.
  induction 1 as [|curr hs Hc _ IH]; intros h; simpl; [constructor|].
  apply Forall_app; split; [|apply IH].
  rewrite Hc. pushes.
Qed.

Lemma check_heading_hierarchy_reported ln dom :
  Forall (reported_at ln)
         (check_heading_hierarchy (collectHeadings ln dom [])).
Proof.
  pose proof (@visited_headings_line ln (descendants dom) []
                (Forall_nil _)) as H.
  rewrite <- collectHeadings_fold in H.
  unfold check_heading_hierarchy.
  destruct (collectHeadings ln dom []) as [|first hs]; [constructor|].
  apply heading_loop_reported. inversion H; assumption.
Qed.

Lemma collectRadios_fold ln nodes rs :
  collectRadios ln nodes rs
  = fold_left (fun rs n => visit_radio ln n rs) (descendants nodes) rs.
Proof.
  apply (@collect_fold _ (visit_radio ln) (collectRadios_node ln)
           (collectRadios ln)); reflexivity.
Qed.

Lemma visited_radios_line ln nodes :
  forall rs,
    Forall (fun r => radio_line r = ln) rs ->
    Forall (fun r => radio_line r = ln)
           (fold_left (fun rs n => visit_radio ln n rs) nodes rs).
Proof.
  induction nodes as [|n nodes IH]; intros rs H; simpl; [exact H|].
  apply IH. unfold visit_radio.
  destruct n as [[| |] name a cs| | | |]; try exact H.
  destruct (_ && _)%bool; [|exact H].
  apply Forall_app; split; [exact H|]. repeat constructor.
Qed.

Lemma group_push_lines ln name groups :
  Forall (fun g => Forall (eq ln) (snd g)) groups ->
  Forall (fun g => Forall (eq ln) (snd g)) (group_push name ln groups).
Proof.
  induction 1 as [|[n lns] groups Hg Hgs IH]; simpl.
  - repeat constructor.
  - destruct (String.eqb n name); constructor; auto.
    simpl in *. apply Forall_app; split; [exact Hg|repeat constructor].
Qed.

Lemma group_radios_lines ln rs :
  Forall (fun r => radio_line r = ln) rs ->
  forall groups,
    Forall (fun g => Forall (eq ln) (snd g)) groups ->
    Forall (fun g => Forall (eq ln) (snd g)) (group_radios rs groups).
Proof.
  induction 1 as [|r rs Hr _ IH]; intros groups Hg; simpl; [exact Hg|].
  apply IH. destruct (radio_name r) as [name|]; [|exact Hg].
  destruct (truthy name); [|exact Hg].
  rewrite Hr. apply group_push_lines, Hg.
Qed.

Lemma check_radio_groups_reported content ln dom :
  Forall (reported_at ln)
         (check_radio_groups content (collectRadios ln dom [])).
Proof.
  pose proof (@visited_radios_line ln (descendants dom) []
                (Forall_nil _)) as H.
  rewrite <- collectRadios_fold in H.
  unfold check_radio_groups. apply Forall_flat_map.
  pose proof (group_radios_lines H (Forall_nil _)) as Hg.
  revert Hg. apply Forall_impl. intros [name lns] Hl. simpl in Hl.
  unfold check_radio_group.
  destruct lns as [|l lns]; [simpl; constructor|].
  inversion Hl; subst. pushes.
Qed.

Lemma traverse_placed content nodes st st' :
  placed_state content st ->
  traverse content nodes st = Returned st' ->
  placed_state content st'.
Proof.
  apply traverse_invariant. clear. intros st tagName a children vs [Hl Hv] E.
  split; simpl.
  - apply within_locate, Hl.
  - apply Forall_app; split; [exact Hv|].
    apply node_checks_reported in E.
    exact (placed (within_locate tagName Hl) E).
Qed.

Lemma answer_is_well_placed
  (content : string) (p : parsed) (vs : list violation) :
  result (analyzeHTML_on content p) = Returned vs ->
  Forall (well_placed content) vs.
Proof.
  intros H. destruct p as [e|dom].
  - simpl in H. injection H as <-. apply Forall_app; split.
    + apply document_checks_placed.
    + apply check_outline_placed.
  - destruct (@analyzeHTML_parts content dom vs H)
      as (st & trav & Ht & Ev & _ & ->).
    assert (Hs : placed_state content st).
    { eapply traverse_placed; [|exact Ht]. split; simpl.
      - apply within_first.
      - apply document_checks_placed. }
    destruct Hs as [Hl Hv]. rewrite Ev in Hv.
    apply Forall_app in Hv. destruct Hv as [Hd Htrav].
    apply Forall_app; split; [exact Hd|].
    apply Forall_app; split; [exact Htrav|].
    apply Forall_app; split.
    { apply (placed Hl). rewrite Forall_map. apply Forall_forall.
      intros id _. reflexivity. }
    apply Forall_app; split;
      [apply (placed Hl), check_heading_hierarchy_reported|].
    apply Forall_app; split;
      [apply (placed Hl), check_radio_groups_reported|].
    apply Forall_app; split;
      [apply check_navigation_placed|apply check_outline_placed].
Qed.

(** Property X4.  Every violation of an answer is one of the analyzer's pushes
    (column 1, the table entries of its rule) and its line is the number of
    a line of the analyzed text. *)
Theorem every_violation_is_placed_on_a_line
  (content : string) (p : parsed) (vs : list violation) :
  result (analyzeHTML_on content p) = Returned vs ->
  Forall (fun v =>
            column v = 1
            /\ wcag v = violationToWCAG (ruleId v)
            /\ fix_ v = fixSuggestions (ruleId v)
            /\ within content (line v)) vs.
Proof.
  intros H. apply answer_is_well_placed in H.
  revert H. apply Forall_impl. intros v (ln & Hw & Hr).
  rewrite Hr. simpl. auto.
Qed.

Lemma every_violation_is_placed_on_a_line_witness :
  result (analyzeHTML_on Samples.two_lines_text
            (Document Samples.two_lines_dom))
  = Returned (Samples.answer Samples.two_lines_text Samples.two_lines_dom)
  /\ Forall (fun v =>
               column v = 1
               /\ wcag v = violationToWCAG (ruleId v)
               /\ fix_ v = fixSuggestions (ruleId v)
               /\ within Samples.two_lines_text (line v))
       (Samples.answer Samples.two_lines_text Samples.two_lines_dom).
Proof.
  split; [reflexivity|].
  apply (@every_violation_is_placed_on_a_line Samples.two_lines_text
           (Document Samples.two_lines_dom)).
  reflexivity.
Defined.

(** *** The tables *)

Lemma catalogue_has_entries :
  Forall (fun r => has_entries (fst r) = true) all_rules.
Proof. repeat constructor. Qed.

Lemma pushed_has_entries (v : violation) :
  pushed_by all_rules v = true -> has_entries (ruleId v) = true.
Proof.
  unfold pushed_by. intros H. apply existsb_exists in H.
  destruct H as (r & Hin & Hr). apply andb_prop in Hr. destruct Hr as [Hr _].
  apply String.eqb_eq in Hr. rewrite <- Hr. clear Hr.
  revert r Hin. apply Forall_forall. exact catalogue_has_entries.
Qed.

Lemma answer_has_entries
  (content : string) (p : parsed) (vs : list violation) :
  result (analyzeHTML_on content p) = Returned vs ->
  Forall (fun v => exists w ws s ss,
              wcag v = Some (w :: ws) /\ fix_ v = Some (s :: ss)) vs.
Proof.
  intros H. pose proof (@analyzeHTML_rules content p vs H) as Hr.
  apply answer_is_well_placed in H.
  apply Forall_forall. intros v Hv.
  pose proof (proj1 (Forall_forall _ _) Hr v Hv) as Hp.
  pose proof (proj1 (Forall_forall _ _) H v Hv) as (ln & _ & Hrep).
  apply pushed_has_entries in Hp. unfold has_entries in Hp.
  rewrite Hrep. simpl.
  destruct (violationToWCAG (ruleId v)) as [[|w ws]|]; try discriminate.
  destruct (fixSuggestions (ruleId v)) as [[|s ss]|]; try discriminate.
  eauto 8.
Qed.

(** Property X5.  The findings the dispatcher returns for a markup file all have
    criteria and suggestions, and their fix is the first suggestion: both
    tables of the markup evaluator have an entry for every rule it pushes,
    so the defaults of the reshaping are never used. *)
Theorem markup_findings_carry_criteria_and_fixes
  (env : Hybrid.environment) (content filePath : string)
  (out : list Hybrid.finding) :
  Hybrid.classify content filePath = Hybrid.MarkupEvaluator ->
  result (Hybrid.analyzeFileHybrid env content filePath) = Returned out ->
  Forall (fun f =>
            Hybrid.wcag f <> []
            /\ exists s rest,
                 Hybrid.suggestions f = s :: rest
                 /\ Hybrid.fix_ f = Some s) out.
Proof.
  unfold Hybrid.classify, Hybrid.analyzeFileHybrid.
  destruct (_ || _)%bool.
  - intros _ H. simpl in H. unfold analyzeHTML in H.
    destruct (result (analyzeHTML_on content (Hybrid.parseDocument env content)))
      as [vs|e] eqn:E; [|discriminate].
    injection H as <-. apply answer_has_entries in E.
    rewrite Forall_map. revert E. apply Forall_impl.
    intros v (w & ws & s & ss & Hw & Hf). unfold Hybrid.of_violation. simpl.
    rewrite Hw, Hf. simpl. split; [discriminate|eauto].
  - destruct (_ || _)%bool; [discriminate|].
    destruct (_ || _)%bool; [|discriminate].
    destruct (_ || _)%bool; discriminate.
Qed.

Lemma markup_findings_carry_criteria_and_fixes_witness :
  Hybrid.classify Examples.img_text "test.html" = Hybrid.MarkupEvaluator
  /\ result (Hybrid.analyzeFileHybrid (Examples.env_for Examples.img_dom)
               Examples.img_text "test.html")
     = Returned (map Hybrid.of_violation
                   (Samples.answer Examples.img_text Examples.img_dom))
  /\ Forall (fun f =>
               Hybrid.wcag f <> []
               /\ exists s rest,
                    Hybrid.suggestions f = s :: rest
                    /\ Hybrid.fix_ f = Some s)
       (map Hybrid.of_violation
          (Samples.answer Examples.img_text Examples.img_dom)).
Proof.
  split; [reflexivity|]. split; [reflexivity|].
  apply (@markup_findings_carry_criteria_and_fixes
           (Examples.env_for Examples.img_dom) Examples.img_text "test.html");
    reflexivity.
Defined.

(** Property X6.  Three rules have entries in both tables of the markup evaluator and
    are never reported: no push names them. *)
Theorem table_only_rules_are_never_reported
  (content : string) (p : parsed) (vs : list violation) :
  result (analyzeHTML_on content p) = Returned vs ->
  Forall (fun rule => has_entries rule = true /\ count_rule rule vs = O)
         unreported_rules.
Proof.
  intros H. pose proof (@analyzeHTML_rules content p vs H) as Hr.
  assert (Hc : forall rule,
             existsb (fun r => String.eqb (fst r) rule) all_rules = false ->
             count_rule rule vs = O).
  { intros rule Hn. exact (@count_rule_absent all_rules rule vs Hn Hr). }
  unfold unreported_rules.
  repeat (apply Forall_cons; [split; [reflexivity|apply Hc; reflexivity]|]).
  apply Forall_nil.
Qed.

Lemma table_only_rules_are_never_reported_witness :
  result (analyzeHTML_on Examples.img_text (Document Examples.img_dom))
  = Returned (Samples.answer Examples.img_text Examples.img_dom)
  /\ Forall (fun rule =>
               has_entries rule = true
               /\ count_rule rule
                    (Samples.answer Examples.img_text Examples.img_dom) = O)
       unreported_rules.
Proof.
  split; [reflexivity|].
  apply (@table_only_rules_are_never_reported Examples.img_text
           (Document Examples.img_dom)).
  reflexivity.
Defined.

End ReportFacts.

(** ** Counting the rules of the walk *)

Module WalkFacts.
Import JsString Regex JsObject Dom Html Spec Catalogue DocumentOrder Report.
Import Checks HtmlFacts CollectorFacts ReportFacts.
Local Open Scope list_scope.

Lemma count_rule_none rule vs :
  Forall (fun v => String.eqb (ruleId v) rule = false) vs ->
  count_rule rule vs = O.
Proof.
  unfold count_rule. induction 1 as [|v vs Hv _ IH]; simpl; [reflexivity|].
  rewrite Hv. exact IH.
Qed.

(** No push of the list under [count_rule] has the counted rule. *)
Ltac absent := apply count_rule_none; pushes.

(** Removes from a sum the checks that cannot push the counted rule. *)
Ltac others :=
  repeat match goal with
         | |- context [count_rule ?r ?l] =>
             let H := fresh in
             assert (H : count_rule r l = O)
               by (unfold check_img, check_input, check_button, check_link,
                     check_iframe, check_div_button, check_tabindex,
                     check_heading, check_table, check_autoplay,
                     check_captions; absent);
             rewrite H; clear H
         end.

Lemma indicator_sum {A} (p : A -> bool) (l : list A) :
  list_sum (map (fun x => if p x then 1%nat else 0%nat) l) = count_if p l.
Proof.
  unfold count_if. induction l as [|x l IH]; simpl; auto.
  destruct (p x); simpl; auto.
Qed.

Lemma existsb_app_false {A} (f : A -> bool) (l1 l2 : list A) :
  existsb f (l1 ++ l2) = false -> existsb f l1 = false /\ existsb f l2 = false.
Proof. rewrite existsb_app. apply orb_false_elim. Qed.

Section RuleOfTheWalk.
Variable rule : string.
Variable weight : string * attrs * list node -> nat.
Hypothesis weight_spec : forall tagName a children ln vs,
    node_checks tagName a children ln = Returned vs ->
    count_rule rule vs = weight (tagName, a, children).
Hypothesis walk_only :
  existsb (fun r => String.eqb (fst r) rule)
          (document_rules ++ post_traversal_rules ++ outline_rules) = false.

Lemma walk_rule_count content dom vs :
  result (analyzeHTML_on content (Document dom)) = Returned vs ->
  count_rule rule vs = list_sum (map weight (visited dom)).
Proof.
  intros H. apply analyzeHTML_shape in H.
  destruct H as (st & trav & post & Ht & Ev & Ft & Fp & ->).
  pose proof (@traverse_counts content rule weight weight_spec dom _ _ Ht)
    as Hc.
  unfold Catalogue.counts in Hc. simpl in Hc. rewrite Ev, count_rule_app in Hc.
  destruct (existsb_app_false _ _ _ walk_only) as [Wd W].
  destruct (existsb_app_false _ _ _ W) as [Wp Wo].
  repeat rewrite count_rule_app.
  rewrite (@count_rule_absent post_traversal_rules rule post Wp Fp).
  rewrite (@count_rule_absent outline_rules rule _ Wo
             (check_outline_rules content)).
  pose proof (@count_rule_absent document_rules rule _ Wd
                (document_checks_rules content)) as Hd.
  lia.
Qed.

End RuleOfTheWalk.

(** The checks of one tag, and the part of the role check in them. *)
Lemma node_checks_parts tagName a children ln vs :
  node_checks tagName a children ln = Returned vs ->
  exists roles,
    check_role tagName a ln = Returned roles
    /\ vs = check_img tagName a ln
              ++ check_input tagName a ln
              ++ check_button tagName a children ln
              ++ check_link tagName a children ln
              ++ check_iframe tagName a ln
              ++ check_div_button tagName a ln
              ++ check_tabindex a ln
              ++ check_heading tagName a children ln
              ++ check_table tagName children ln
              ++ check_autoplay tagName a ln
              ++ check_captions tagName children ln
              ++ roles.
Proof.
  unfold node_checks. destruct (check_role tagName a ln) as [roles|e];
    simpl; [|discriminate].
  intros H. injection H as <-. eauto.
Qed.

Lemma roles_absent rule tagName a ln roles :
  existsb (fun r => String.eqb (fst r) rule) role_rules = false ->
  check_role tagName a ln = Returned roles ->
  count_rule rule roles = O.
Proof.
  intros Hr H. apply check_role_rules in H.
  exact (@count_rule_absent role_rules rule roles Hr H).
Qed.

Lemma node_checks_missing_alt tagName a children ln vs :
  node_checks tagName a children ln = Returned vs ->
  count_rule "img-missing-alt" vs
  = if img_without_alt (tagName, a, children) then 1%nat else 0%nat.
Proof.
  intros H. destruct (@node_checks_parts tagName a children ln vs H)
    as (roles & Hr & ->).
  repeat rewrite count_rule_app.
  rewrite (@roles_absent "img-missing-alt" tagName a ln roles eq_refl Hr).
  others. unfold check_img, img_without_alt.
  destruct (String.eqb tagName "img"); [|reflexivity].
  destruct (attr a "alt") as [alt|]; [|reflexivity]. simpl.
  destruct (_ && _)%bool; reflexivity.
Qed.

(** Property X7.  The missing-alt violations of an answer are as many as the visited
    [img] tags without an [alt] attribute; an [img] whose [alt] is the empty
    string is not counted. *)
Theorem missing_alt_counts_images_without_alt_attribute
  (content : string) (dom : list node) (vs : list violation) :
  result (analyzeHTML_on content (Document dom)) = Returned vs ->
  count_rule "img-missing-alt" vs = count_if img_without_alt (visited dom).
Proof.
  intros H. rewrite <- indicator_sum.
  exact (@walk_rule_count "img-missing-alt"
           (fun t => if img_without_alt t then 1%nat else 0%nat)
           node_checks_missing_alt
           eq_refl content dom vs H).
Qed.

Lemma missing_alt_counts_images_without_alt_attribute_witness :
  result (analyzeHTML_on Examples.img_text (Document Examples.img_dom))
  = Returned (Samples.answer Examples.img_text Examples.img_dom)
  /\ count_rule "img-missing-alt"
       (Samples.answer Examples.img_text Examples.img_dom)
     = count_if img_without_alt (visited Examples.img_dom).
Proof.
  split; [reflexivity|].
  apply (@missing_alt_counts_images_without_alt_attribute Examples.img_text
           Examples.img_dom).
  reflexivity.
Defined.

Lemma node_checks_label_count tagName a children ln vs :
  node_checks tagName a children ln = Returned vs ->
  count_rule "form-input-missing-label" vs
  = if unlabeled_per_code (tagName, a, children) then 1%nat else 0%nat.
Proof.
  intros H. destruct (@node_checks_parts tagName a children ln vs H)
    as (roles & Hr & ->).
  repeat rewrite count_rule_app.
  rewrite (@roles_absent "form-input-missing-label" tagName a ln roles
             eq_refl Hr).
  others. unfold check_input, unlabeled_per_code.
  destruct (is_checked_input tagName a); [|reflexivity].
  repeat rewrite count_rule_app.
  match goal with
  | |- context [count_rule _ (if (?c || ?d)%bool then _ else _)] =>
      assert (H3 : count_rule "form-input-missing-label"
                     (if (c || d)%bool
                      then if negb (truthy_opt (attr a "autocomplete"))
                           then [report "missing-autocomplete" "warning" ln
                                   "Personal info input should have autocomplete attribute"]
                           else []
                      else []) = O) by absent
  end.
  rewrite H3.
  destruct (input_hasLabel a); simpl;
    destruct (truthy_opt (attr a "placeholder")); simpl;
    destruct (defined _);
    try destruct (negb (truthy_opt (attr a "aria-required")));
    reflexivity.
Qed.

Lemma node_checks_placeholder tagName a children ln vs :
  node_checks tagName a children ln = Returned vs ->
  count_rule "placeholder-as-label" vs
  = if placeholder_only (tagName, a, children) then 1%nat else 0%nat.
Proof.
  intros H. destruct (@node_checks_parts tagName a children ln vs H)
    as (roles & Hr & ->).
  repeat rewrite count_rule_app.
  rewrite (@roles_absent "placeholder-as-label" tagName a ln roles
             eq_refl Hr).
  others. unfold check_input, placeholder_only.
  destruct (is_checked_input tagName a); [|reflexivity].
  repeat rewrite count_rule_app.
  match goal with
  | |- context [count_rule _ (if (?c || ?d)%bool then _ else _)] =>
      assert (H3 : count_rule "placeholder-as-label"
                     (if (c || d)%bool
                      then if negb (truthy_opt (attr a "autocomplete"))
                           then [report "missing-autocomplete" "warning" ln
                                   "Personal info input should have autocomplete attribute"]
                           else []
                      else []) = O) by absent
  end.
  rewrite H3.
  destruct (input_hasLabel a); simpl;
    destruct (truthy_opt (attr a "placeholder")); simpl;
    destruct (defined _);
    try destruct (negb (truthy_opt (attr a "aria-required")));
    reflexivity.
Qed.

Lemma count_if_le {A} (p q : A -> bool) (l : list A) :
  (forall x, p x = true -> q x = true) ->
  (count_if p l <= count_if q l)%nat.
Proof.
  intros Hpq. unfold count_if. induction l as [|x l IH]; simpl; [lia|].
  destruct (p x) eqn:Hp.
  - rewrite (Hpq x Hp). simpl. lia.
  - destruct (q x); simpl; lia.
Qed.

(** Property X8.  The placeholder rule is pushed for the checked inputs that have a
    non-empty placeholder and nothing taken for a label, so never without
    the missing-label rule: no answer has more placeholder violations than
    missing-label violations. *)
Theorem placeholder_violation_comes_with_missing_label
  (content : string) (dom : list node) (vs : list violation) :
  result (analyzeHTML_on content (Document dom)) = Returned vs ->
  count_rule "placeholder-as-label" vs = count_if placeholder_only (visited dom)
  /\ (count_rule "placeholder-as-label" vs
      <= count_rule "form-input-missing-label" vs)%nat.
Proof.
  intros H.
  pose proof (@walk_rule_count "placeholder-as-label"
                (fun t => if placeholder_only t then 1%nat else 0%nat)
                node_checks_placeholder eq_refl content dom vs H) as Hp.
  pose proof (@walk_rule_count "form-input-missing-label"
                (fun t => if unlabeled_per_code t then 1%nat else 0%nat)
                node_checks_label_count eq_refl content dom vs H) as Hl.
  rewrite indicator_sum in Hp, Hl. split; [exact Hp|].
  rewrite Hp, Hl. apply count_if_le. intros [[tagName a] children].
  unfold placeholder_only, unlabeled_per_code. intros E.
  apply andb_prop in E. destruct E as [E1 E2].
  apply andb_prop in E1. destruct E1 as [E1 _]. rewrite E1, E2. reflexivity.
Qed.

Lemma placeholder_violation_comes_with_missing_label_witness :
  result (analyzeHTML_on Samples.placeholder_text
            (Document Samples.placeholder_dom))
  = Returned (Samples.answer Samples.placeholder_text Samples.placeholder_dom)
  /\ count_rule "placeholder-as-label"
       (Samples.answer Samples.placeholder_text Samples.placeholder_dom)
     = 1%nat.
Proof.
  split; [reflexivity|].
  exact (proj1 (@placeholder_violation_comes_with_missing_label
                  Samples.placeholder_text Samples.placeholder_dom _
                  eq_refl)).
Defined.

Lemma node_checks_autoplay tagName a children ln vs :
  node_checks tagName a children ln = Returned vs ->
  count_rule "autoplay-media" vs
  = if loud_autoplay (tagName, a, children) then 1%nat else 0%nat.
Proof.
  intros H. destruct (@node_checks_parts tagName a children ln vs H)
    as (roles & Hr & ->).
  repeat rewrite count_rule_app.
  rewrite (@roles_absent "autoplay-media" tagName a ln roles eq_refl Hr).
  others. unfold check_autoplay, loud_autoplay.
  destruct (is_media tagName); [|reflexivity].
  destruct (defined (attr a "autoplay")); [|reflexivity]. simpl.
  destruct (truthy_opt (attr a "muted")); [reflexivity|].
  destruct (truthy_opt (attr a "controls")); reflexivity.
Qed.

(** Property X9.  The autoplay rule counts the visited [video] and [audio] tags that
    have an [autoplay] attribute and neither a non-empty [muted] nor a
    non-empty [controls].  Presence is tested for [autoplay] only: [muted]
    and [controls] written without a value reach the analyzer as empty
    strings and do not silence the rule. *)
Theorem autoplay_counts_media_without_valued_muted_or_controls
  (content : string) (dom : list node) (vs : list violation) :
  result (analyzeHTML_on content (Document dom)) = Returned vs ->
  count_rule "autoplay-media" vs = count_if loud_autoplay (visited dom).
Proof.
  intros H. rewrite <- indicator_sum.
  exact (@walk_rule_count "autoplay-media"
           (fun t => if loud_autoplay t then 1%nat else 0%nat)
           node_checks_autoplay
           eq_refl content dom vs H).
Qed.

Lemma autoplay_counts_media_without_valued_muted_or_controls_witness :
  result (analyzeHTML_on Samples.video_text (Document Samples.video_dom))
  = Returned (Samples.answer Samples.video_text Samples.video_dom)
  /\ count_rule "autoplay-media"
       (Samples.answer Samples.video_text Samples.video_dom)
     = 1%nat.
Proof.
  split; [reflexivity|].
  exact (@autoplay_counts_media_without_valued_muted_or_controls
           Samples.video_text Samples.video_dom _ eq_refl).
Defined.

(** Property X10.  Five rules are decided on the text alone.  The rules of the
    checks on the raw text and of the inline-style check have the same
    number of violations whatever the parser hands over, a tree or an
    error: the walk and the checks after it never push them. *)
Theorem text_rules_do_not_depend_on_the_tree
  (content : string) (p1 p2 : parsed) (vs1 vs2 : list violation)
  (rule : string) :
  result (analyzeHTML_on content p1) = Returned vs1 ->
  result (analyzeHTML_on content p2) = Returned vs2 ->
  In rule (map fst (document_rules ++ outline_rules)) ->
  count_rule rule vs1 = count_rule rule vs2
  /\ count_rule rule vs1
     = (count_rule rule (document_checks content)
        + count_rule rule (check_outline content))%nat.
Proof.
  intros H1 H2 Hr.
  assert (Hw : existsb (fun r => String.eqb (fst r) rule)
                 (traversal_rules ++ post_traversal_rules) = false).
  { simpl in Hr.
    destruct Hr as [<-|[<-|[<-|[<-|[<-|[]]]]]]; reflexivity. }
  destruct (existsb_app_false _ _ _ Hw) as [Wt Wp].
  assert (Hc : forall p vs,
             result (analyzeHTML_on content p) = Returned vs ->
             count_rule rule vs
             = (count_rule rule (document_checks content)
                + count_rule rule (check_outline content))%nat).
  { intros p vs H. destruct p as [e|dom].
    - simpl in H. injection H as <-. apply count_rule_app.
    - apply analyzeHTML_shape in H.
      destruct H as (st & trav & post & _ & _ & Ft & Fp & ->).
      repeat rewrite count_rule_app.
      rewrite (@count_rule_absent traversal_rules rule trav Wt Ft).
      rewrite (@count_rule_absent post_traversal_rules rule post Wp Fp).
      lia. }
  rewrite (Hc p1 vs1 H1), (Hc p2 vs2 H2). split; reflexivity.
Qed.

Lemma text_rules_do_not_depend_on_the_tree_witness :
  result (analyzeHTML_on Examples.img_text (Document Examples.img_dom))
  = Returned (Samples.answer Examples.img_text Examples.img_dom)
  /\ count_rule "missing-lang"
       (Samples.answer Examples.img_text Examples.img_dom)
     = count_rule "missing-lang"
         (document_checks Examples.img_text
            ++ check_outline Examples.img_text).
Proof.
  split; [reflexivity|].
  apply (proj1 (@text_rules_do_not_depend_on_the_tree Examples.img_text
                  (Document Examples.img_dom) (ParseError "end of input")
                  _ _ "missing-lang" eq_refl eq_refl
                  ltac:(simpl; tauto))).
Defined.

End WalkFacts.

(** ** The role check and the exception it can raise *)

Module RoleFacts.
Import JsString Regex JsObject Dom Html Spec Catalogue DocumentOrder Report.
Import Checks HtmlFacts CollectorFacts ReportFacts WalkFacts.
Local Open Scope list_scope.

Lemma lookup_key {A} (table : list (string * A)) (key : string) (a : A) :
  lookup table key = Some a -> In key (map fst table).
Proof.
  unfold lookup. induction table as [|[k v] table IH]; simpl; [discriminate|].
  destruct (String.eqb k key) eqn:E.
  - apply String.eqb_eq in E. auto.
  - auto.
Qed.

(** Every role of [roleRequiredAria] is one of [validAriaRoles]. *)
Lemma required_roles_are_valid role required :
  lookup roleRequiredAria role = Some required ->
  existsb (String.eqb role) validAriaRoles = true.
Proof.
  intros H. apply lookup_key in H. revert role H. apply Forall_forall.
  repeat constructor.
Qed.

(** Property X11.  No tag is given both the invalid-role and the missing-required
    violations: the roles that require properties are valid roles. *)
Theorem role_is_not_both_invalid_and_incomplete
  (tagName : string) (a : attrs) (ln : Z) (vs : list violation) :
  check_role tagName a ln = Returned vs ->
  count_rule "invalid-aria-role" vs = O
  \/ count_rule "missing-aria-required" vs = O.
Proof.
  unfold check_role. intros H.
  destruct (attr a "role") as [role|]; [|injection H as <-; auto].
  destruct (truthy role); [|injection H as <-; auto].
  unfold get in H.
  destruct (lookup roleRequiredAria role) as [required|] eqn:El.
  - left. rewrite (required_roles_are_valid _ El) in H.
    cbn [negb] in H. injection H as <-. apply count_rule_none.
    pushes; apply Forall_flat_map, Forall_forall; intros prop _; pushes.
  - right.
    destruct (existsb (String.eqb role) objectPrototypeKeys);
      [discriminate|].
    injection H as <-. absent.
Qed.

Lemma role_is_not_both_invalid_and_incomplete_witness :
  check_role "div" Samples.checkbox_attrs 1
  = Returned [report "missing-aria-required" "error" 1
                (qq "Role `checkbox` requires aria-checked attribute")]
  /\ (count_rule "invalid-aria-role"
        [report "missing-aria-required" "error" 1
           (qq "Role `checkbox` requires aria-checked attribute")] = O
      \/ count_rule "missing-aria-required"
           [report "missing-aria-required" "error" 1
              (qq "Role `checkbox` requires aria-checked attribute")] = O).
Proof.
  split; [reflexivity|].
  apply (@role_is_not_both_invalid_and_incomplete "div"
           Samples.checkbox_attrs 1).
  reflexivity.
Defined.

(** *** The exception *)

Lemma check_role_throws tagName a ln :
  throwing_role a = true -> check_role tagName a ln = Thrown not_iterable.
Proof.
  unfold throwing_role, check_role.
  destruct (attr a "role") as [role|]; [|discriminate].
  destruct (truthy role); [|discriminate]. simpl.
  destruct (get roleRequiredAria role); try discriminate. reflexivity.
Qed.

Lemma check_role_thrown tagName a ln e :
  check_role tagName a ln = Thrown e -> e = not_iterable.
Proof.
  unfold check_role.
  destruct (attr a "role") as [role|]; [|discriminate].
  destruct (truthy role); [|discriminate].
  destruct (get roleRequiredAria role); try discriminate.
  intros H. injection H as <-. reflexivity.
Qed.

Lemma node_checks_thrown tagName a children ln e :
  node_checks tagName a children ln = Thrown e -> e = not_iterable.
Proof.
  unfold node_checks.
  destruct (check_role tagName a ln) as [roles|e'] eqn:E; simpl;
    [discriminate|].
  intros H. injection H as <-. exact (@check_role_thrown tagName a ln e' E).
Qed.

Section Throwing.
Variable content : string.

Lemma traverse_list_raises nodes :
  Forall (raises content) nodes ->
  (forall st e, traverse content nodes st = Thrown e -> e = not_iterable)
  /\ (forall st, Exists throws_at (visited nodes) ->
                 traverse content nodes st = Thrown not_iterable).
Proof.
  unfold raises. induction 1 as [|n nodes [Hn1 Hn2] _ [IH1 IH2]]; split.
  - intros st e H. discriminate.
  - intros st H. inversion H.
  - intros st e H. simpl in H.
    destruct (traverse_node content n st) as [st1|e1] eqn:E; simpl in H.
    + eauto.
    + injection H as <-. eauto.
  - intros st H. simpl in H. apply Exists_app in H. simpl.
    destruct (traverse_node content n st) as [st1|e1] eqn:E; simpl.
    + destruct H as [H|H]; [|auto].
      rewrite (Hn2 st H) in E. discriminate.
    + f_equal. eauto.
Qed.

Lemma traverse_raises nodes :
  (forall st e, traverse content nodes st = Thrown e -> e = not_iterable)
  /\ (forall st, Exists throws_at (visited nodes) ->
                 traverse content nodes st = Thrown not_iterable).
Proof.
  apply traverse_list_raises.
  apply nodes_ind'; unfold raises;
    try (intros; split; [discriminate|intros st' Hx; inversion Hx]).
  intros t name a cs IH.
  destruct t; try (split; [discriminate|intros st' Hx; inversion Hx]).
  destruct (traverse_list_raises IH) as [L1 L2]. split.
  - intros st e H. rewrite (@traverse_node_tag content name a cs st) in H.
    destruct (node_checks _ _ _ _) as [vs|e1] eqn:E; simpl in H.
    + eauto.
    + injection H as <-. exact (@node_checks_thrown _ _ _ _ _ E).
  - intros st H. rewrite (@traverse_node_tag content name a cs st).
    rewrite visited_node_tag in H.
    destruct (node_checks _ _ _ _) as [vs|e1] eqn:E; simpl.
    + inversion H as [x l Hx|x l Hl]; subst.
      * unfold throws_at in Hx. simpl in Hx. unfold node_checks in E.
        rewrite (@check_role_throws (toLowerCase name) a _ Hx) in E.
        discriminate.
      * auto.
    + f_equal. exact (@node_checks_thrown _ _ _ _ _ E).
Qed.

End Throwing.

(** Property X12.  On a tree, the analysis ends with an exception exactly when a
    visited tag has a role named like a property of [Object.prototype]; the
    exception is then the [TypeError] of the loop over the required
    properties, and nothing is returned. *)
Theorem analysis_throws_exactly_on_prototype_roles
  (content : string) (dom : list node) :
  (result (analyzeHTML_on content (Document dom)) = Thrown not_iterable
   <-> Exists (fun t => throwing_role (snd (fst t)) = true) (visited dom))
  /\ ((exists vs, result (analyzeHTML_on content (Document dom)) = Returned vs)
      <-> safe dom).
Proof.
  assert (Hthrow :
            Exists throws_at (visited dom) ->
            result (analyzeHTML_on content (Document dom))
            = Thrown not_iterable).
  { intros H. simpl. unfold handler.
    rewrite (proj2 (traverse_raises content dom) _ H). reflexivity. }
  assert (Hdec : Forall (fun t => throwing_role (snd (fst t)) = false)
                        (visited dom)
                 \/ Exists throws_at (visited dom)).
  { destruct (Forall_Exists_dec
                (fun t : string * attrs * list node =>
                   throwing_role (snd (fst t)) = false)
                (fun t => bool_dec _ _) (visited dom)) as [F|E].
    - left. exact F.
    - right. revert E. apply Exists_impl. intros t Ht.
      unfold throws_at. destruct (throwing_role _); congruence. }
  split; split.
  - intros H. destruct Hdec as [F|E]; [|exact E].
    destruct (@analyzeHTML_returns content dom F) as (vs & Hv).
    rewrite Hv in H. discriminate.
  - exact Hthrow.
  - intros (vs & Hv). destruct Hdec as [F|E]; [exact F|].
    rewrite (Hthrow E) in Hv. discriminate.
  - apply analyzeHTML_returns.
Qed.

Lemma analysis_throws_exactly_on_prototype_roles_witness :
  Exists (fun t => throwing_role (snd (fst t)) = true)
         (visited Examples.ctor_dom)
  /\ result (analyzeHTML_on Examples.ctor_text (Document Examples.ctor_dom))
     = Thrown not_iterable.
Proof.
  assert (E : Exists (fun t => throwing_role (snd (fst t)) = true)
                     (visited Examples.ctor_dom)).
  { constructor. reflexivity. }
  split; [exact E|].
  exact (proj2 (proj1 (@analysis_throws_exactly_on_prototype_roles
                         Examples.ctor_text Examples.ctor_dom)) E).
Defined.

End RoleFacts.

(** ** Extensions and routes *)

Module PathFacts.
Import JsString Dom Hybrid Spec Naming Path StringFacts LiteralFacts LineFacts.

Lemma rev_acc_spec (s : string) :
  forall acc, rev_acc s acc = rev s ++ acc.
Proof.
  unfold rev. induction s as [|c s IH]; intros acc; simpl; [reflexivity|].
  rewrite IH, (IH (String c EmptyString)), append_assoc. reflexivity.
Qed.

Lemma rev_cons (c : ascii) (s : string) : rev (String c s) = rev s ++ chr c.
Proof. unfold rev at 1. simpl. apply rev_acc_spec. Qed.

Lemma rev_append (a b : string) : rev (a ++ b) = rev b ++ rev a.
Proof.
  induction a as [|c a IH]; simpl.
  - symmetry. apply append_nil_r.
  - rewrite !rev_cons, IH, append_assoc. reflexivity.
Qed.

Lemma all_chars_rev (f : ascii -> bool) (s : string) :
  all_chars f s -> all_chars f (rev s).
Proof.
  induction s as [|c s IH]; simpl; [auto|]. intros [Hc Hs].
  rewrite rev_cons. apply all_chars_append. simpl. auto.
Qed.

Lemma rev_nonempty (s : string) : s <> EmptyString -> rev s <> EmptyString.
Proof.
  intros H E. apply H. apply length_zero.
  pose proof (len_rev s) as L. unfold len in L. rewrite E in L. simpl in L.
  lia.
Qed.

Lemma len_append (a b : string) : len (a ++ b) = len a + len b.
Proof. unfold len. rewrite length_append. lia. Qed.

Lemma len_cons (c : ascii) (s : string) : len (String c s) = len s + 1.
Proof. unfold len. cbn [String.length]. lia. Qed.

Lemma scan_from_append (a b : string) :
  forall i s, scan_from (a ++ b) i s = scan_from b (i - len a) (scan_from a i s).
Proof.
  induction a as [|c a IH]; intros i s; simpl.
  - f_equal. change (len EmptyString) with 0. lia.
  - rewrite IH, len_cons. f_equal. lia.
Qed.

Lemma plain_char_spec (c : ascii) :
  plain_char c = true -> Ascii.eqb c "/" = false /\ Ascii.eqb c "." = false.
Proof.
  unfold plain_char, is_slash, is_dot. intros H. apply andb_prop in H.
  destruct H as [H1 H2]. apply negb_true_iff in H1. apply negb_true_iff in H2.
  auto.
Qed.

(** The characters after the last dot: the end of the name is fixed at the
    first of them, nothing else changes. *)
Lemma scan_plain (r : string) :
  plain r ->
  forall i e, e <> -1 ->
    scan_from r i (Scan (-1) 0 e false 0 false) = Scan (-1) 0 e false 0 false.
Proof.
  induction r as [|c r IH]; simpl; [reflexivity|]. intros [Hc Hr] i e He.
  destruct (plain_char_spec _ Hc) as [H1 H2].
  unfold step. simpl. rewrite H1, H2.
  destruct (Z.eqb_spec e (-1)); [contradiction|]. simpl. apply IH; assumption.
Qed.

Lemma scan_plain_first (r : string) (i : Z) :
  plain r -> r <> EmptyString -> 0 <= i ->
  scan_from r i (Scan (-1) 0 (-1) true 0 false)
  = Scan (-1) 0 (i + 1) false 0 false.
Proof.
  destruct r as [|c r]; [contradiction|]. intros [Hc Hr] _ Hi. simpl.
  destruct (plain_char_spec _ Hc) as [H1 H2].
  unfold step. simpl. rewrite H1, H2. simpl. apply scan_plain; [exact Hr|lia].
Qed.

(** The characters before the dot, up to the separator: they only say
    whether something stands before the dot. *)
Lemma scan_base (r : string) :
  no_slash r ->
  forall i d e p, d <> -1 -> e <> -1 ->
    exists p',
      scan_from r i (Scan d 0 e false p false) = Scan d 0 e false p' false
      /\ (r = EmptyString -> p' = p)
      /\ (r <> EmptyString -> p' = 1 \/ p' = -1).
Proof.
  induction r as [|c r IH]; simpl; intros Hr i d e p Hd He.
  - exists p. split; [reflexivity|]. split; [auto|contradiction].
  - destruct Hr as [Hc Hr]. unfold is_slash in Hc. apply negb_true_iff in Hc.
    assert (Hs : exists p1,
               step i c (Scan d 0 e false p false) = Scan d 0 e false p1 false
               /\ (p1 = 1 \/ p1 = -1)).
    { unfold step. simpl. rewrite Hc.
      destruct (Z.eqb_spec e (-1)); [contradiction|]. simpl.
      destruct (Z.eqb_spec d (-1)); [contradiction|]. simpl.
      destruct (Ascii.eqb c "."); [|eauto].
      destruct (Z.eqb_spec p 1); simpl; [subst p|]; eauto. }
    destruct Hs as (p1 & -> & Hp1).
    destruct (IH Hr (i - 1) d e p1 Hd He) as (p' & -> & Hnil & Hcons).
    exists p'. split; [reflexivity|]. split; [discriminate|]. intros _.
    destruct r as [|c' r']; [rewrite (Hnil eq_refl); exact Hp1|].
    apply Hcons. discriminate.
Qed.

Lemma scan_stopped (r : string) :
  forall i s, stopped s = true -> scan_from r i s = s.
Proof.
  induction r as [|c r IH]; intros i s Hs; simpl; [reflexivity|].
  unfold step. rewrite Hs. apply IH, Hs.
Qed.

(** What is before the base name: the scan stops at its separator. *)
Lemma scan_directory (dir : string) (i d e p : Z) :
  directory dir ->
  exists sp st,
    scan_from (rev dir) i (Scan d 0 e false p false) = Scan d sp e false p st.
Proof.
  intros [->|(d0 & ->)].
  - simpl. eauto.
  - rewrite rev_append. simpl. unfold step at 1. simpl.
    rewrite scan_stopped by reflexivity. eauto.
Qed.

Lemma drop_append_length (a b : string) : drop (String.length a) (a ++ b) = b.
Proof. induction a as [|c a IH]; simpl; [destruct b; reflexivity|exact IH]. Qed.

Lemma take_whole (s : string) : take (String.length s) s = s.
Proof. apply take_all. lia. Qed.

Lemma step_dot (i e : Z) :
  e <> -1 ->
  step i "." (Scan (-1) 0 e false 0 false) = Scan i 0 e false 0 false.
Proof.
  intros He. unfold step. simpl.
  destruct (Z.eqb_spec e (-1)); [contradiction|]. reflexivity.
Qed.

(** The scan of a name with something before its last dot. *)
Lemma scan_of_name (dir base e : string) :
  directory dir -> no_slash base -> base <> EmptyString ->
  plain e -> e <> EmptyString ->
  let path := dir ++ base ++ String "." e in
  exists sp p st,
    scan_from (rev path) (len path - 1) (Scan (-1) 0 (-1) true 0 false)
    = Scan (len dir + len base) sp (len path) false p st
    /\ (p = 1 \/ p = -1).
Proof.
  intros Hdir Hbase Hb He Hne path.
  assert (Hrev : rev path
                 = rev e ++ String "." (rev base ++ rev dir)).
  { unfold path. rewrite !rev_append, rev_cons, !append_assoc. reflexivity. }
  assert (Hlen : len path = len dir + len base + 1 + len e).
  { unfold path. rewrite !len_append, len_cons. lia. }
  assert (Hpos : 0 <= len dir /\ 0 <= len base /\ 0 < len e).
  { unfold len. repeat split; try lia.
    destruct e; [contradiction|simpl; lia]. }
  rewrite Hrev, scan_from_append.
  rewrite (scan_plain_first (all_chars_rev _ _ He) (rev_nonempty Hne))
    by lia.
  cbn [scan_from]. rewrite len_rev, step_dot by lia.
  rewrite scan_from_append.
  replace (len path - 1 - len e) with (len dir + len base) by lia.
  replace (len path - 1 + 1) with (len path) by lia.
  destruct (@scan_base (rev base) (all_chars_rev _ _ Hbase)
              (len dir + len base - 1) (len dir + len base)
              (len path) 0 ltac:(lia) ltac:(lia))
    as (p & -> & _ & Hp).
  specialize (Hp (rev_nonempty Hb)).
  destruct (@scan_directory dir (len dir + len base - 1 - len (rev base))
              (len dir + len base) (len path) p Hdir)
    as (sp & st & ->).
  eauto.
Qed.

(** The extension of a name with something before its last dot. *)
Lemma extname_of_name (dir base e : string) :
  directory dir -> no_slash base -> base <> EmptyString ->
  plain e -> e <> EmptyString ->
  extname (dir ++ base ++ String "." e) = String "." e.
Proof.
  intros Hdir Hbase Hb He Hne.
  destruct (scan_of_name Hdir Hbase Hb He Hne) as (sp & p & st & Hs & Hp).
  unfold extname. rewrite Hs. simpl.
  assert (Hlen : len (dir ++ base ++ String "." e)
                 = len dir + len base + 1 + len e).
  { rewrite !len_append, len_cons. lia. }
  assert (Hpos : 0 <= len dir /\ 0 < len base /\ 0 < len e).
  { unfold len. repeat split; try lia.
    - destruct base; [contradiction|simpl; lia].
    - destruct e; [contradiction|simpl; lia]. }
  rewrite Hlen.
  destruct (Z.eqb_spec (len dir + len base) (-1)); [lia|].
  destruct (Z.eqb_spec (len dir + len base + 1 + len e) (-1)); [lia|].
  destruct (Z.eqb_spec p 0); [lia|].
  destruct (Z.eqb_spec (len dir + len base)
              (len dir + len base + 1 + len e - 1)); [lia|].
  rewrite andb_false_r. simpl.
  replace (Z.to_nat (len dir + len base)) with (String.length (dir ++ base))
    by (unfold len; rewrite length_append; lia).
  replace (Z.to_nat (len dir + len base + 1 + len e - (len dir + len base)))
    with (String.length (String "." e))
    by (unfold len; simpl; lia).
  rewrite <- append_assoc, drop_append_length.
  apply take_whole.
Qed.

(** A base name that starts with its only dot has no extension. *)
Lemma extname_of_dot_file (dir e : string) :
  directory dir -> plain e -> e <> EmptyString ->
  extname (dir ++ String "." e) = EmptyString.
Proof.
  intros Hdir He Hne.
  assert (Hs : exists sp st,
             scan_from (rev (dir ++ String "." e))
               (len (dir ++ String "." e) - 1)
               (Scan (-1) 0 (-1) true 0 false)
             = Scan (len dir) sp (len (dir ++ String "." e)) false 0 st).
  { set (path := dir ++ String "." e).
    assert (Hrev : rev path = rev e ++ String "." (rev dir)).
    { unfold path. rewrite rev_append, rev_cons, append_assoc. reflexivity. }
    assert (Hlen : len path = len dir + 1 + len e).
    { unfold path. rewrite len_append, len_cons. lia. }
    assert (Hpos : 0 <= len dir /\ 0 < len e).
    { unfold len. split; [lia|]. destruct e; [contradiction|simpl; lia]. }
    rewrite Hrev, scan_from_append.
    rewrite (scan_plain_first (all_chars_rev _ _ He) (rev_nonempty Hne))
      by lia.
    cbn [scan_from]. rewrite len_rev, step_dot by lia.
    replace (len path - 1 - len e) with (len dir) by lia.
    replace (len path - 1 + 1) with (len path) by lia.
    destruct (@scan_directory dir (len dir - 1) (len dir) (len path) 0 Hdir)
      as (sp & st & ->).
    eauto. }
  destruct Hs as (sp & st & Hs). unfold extname. rewrite Hs. simpl.
  destruct (len dir =? -1); simpl; [reflexivity|].
  destruct (len (dir ++ String "." e) =? -1); reflexivity.
Qed.

(** A path without any dot has no extension. *)
Lemma scan_no_dot (r : string) :
  no_dot r ->
  forall i s, startDot s = -1 -> startDot (scan_from r i s) = -1.
Proof.
  induction r as [|c r IH]; simpl; [auto|]. intros [Hc Hr] i s Hs.
  apply IH; [exact Hr|]. unfold is_dot in Hc. apply negb_true_iff in Hc.
  destruct s as [sd sp e ms pd st]. simpl in Hs. subst sd.
  unfold step. simpl. rewrite Hc.
  destruct st; [reflexivity|]. destruct (Ascii.eqb c "/").
  - destruct ms; reflexivity.
  - destruct (e =? -1); reflexivity.
Qed.

Lemma extname_without_dot (path : string) :
  no_dot path -> extname path = EmptyString.
Proof.
  intros H. unfold extname.
  rewrite (@scan_no_dot (rev path) (all_chars_rev _ _ H) (len path - 1)
             (Scan (-1) 0 (-1) true 0 false) eq_refl).
  reflexivity.
Qed.

End PathFacts.

(** ** The delegate and the routes *)

Module DelegateFacts.
Import JsString Dom Hybrid Spec Naming Linter StringFacts PathFacts.
Local Open Scope list_scope.

Lemma of_messages_kept (messages : list lint_message) :
  of_messages messages
  = map (fun msg => of_message (or_default (msg_ruleId msg) EmptyString) msg)
        (filter kept messages).
Proof.
  unfold of_messages.
  induction messages as [|msg messages IH]; [reflexivity|].
  cbn [Html.filter_map filter]. unfold kept at 1.
  destruct (msg_ruleId msg) as [rule|] eqn:Er; [|exact IH].
  destruct (truthy rule && startsWith "jsx-a11y/" rule)%bool;
    cbn [map]; rewrite IH, ?Er; reflexivity.
Qed.

Lemma delegate_answer env content filePath :
  result (analyzeFileWithESLint env content filePath)
  = Returned
      (match lintText env content filePath with
       | Returned results => of_messages (or_default results [])
       | Thrown _ => []
       end).
Proof.
  unfold analyzeFileWithESLint.
  destruct (lintText env content filePath); reflexivity.
Qed.

Lemma kept_rule (msg : lint_message) :
  kept msg = true ->
  exists rule, msg_ruleId msg = Some rule
               /\ startsWith "jsx-a11y/" rule = true.
Proof.
  unfold kept. destruct (msg_ruleId msg) as [rule|]; [|discriminate].
  intros H. apply andb_prop in H. destruct H as [_ H]. eauto.
Qed.

Lemma lookup_in {A} (table : list (string * A)) (key : string) (a : A) :
  JsObject.lookup table key = Some a -> In (key, a) table.
Proof.
  unfold JsObject.lookup.
  induction table as [|[k v] table IH]; simpl; [discriminate|].
  destruct (String.eqb k key) eqn:E.
  - apply String.eqb_eq in E. simpl. intros H. injection H as <-.
    subst k. auto.
  - auto.
Qed.

Lemma suggestions_are_not_empty (rule : string) (l : list string) :
  fixSuggestions rule = Some l -> l <> [].
Proof.
  unfold fixSuggestions.
  destruct (JsObject.lookup fixSuggestions_entries rule) as [l0|] eqn:E;
    [|discriminate].
  simpl. intros H. injection H as <-. apply lookup_in in E.
  assert (F : Forall (fun kv => snd kv <> []) fixSuggestions_entries).
  { repeat constructor; discriminate. }
  pose proof (proj1 (Forall_forall _ _) F _ E) as Hn. simpl in Hn.
  destruct l0; [contradiction|discriminate].
Qed.

(** Property X13.  The findings of the delegate are the messages of the plugin's
    rules, one finding per message and in their order; each has a fix and
    at least one suggestion.  Messages without a rule, as the one of a
    fatal parsing error, are dropped. *)
Theorem delegate_reports_the_messages_of_its_plugin
  (env : environment) (content filePath : string)
  (messages : list lint_message) :
  lintText env content filePath = Returned (Some messages) ->
  exists out,
    result (analyzeFileWithESLint env content filePath) = Returned out
    /\ map (fun f => Some (ruleId f)) out
       = map msg_ruleId (filter kept messages)
    /\ map line out = map msg_line (filter kept messages)
    /\ Forall (fun f => startsWith "jsx-a11y/" (ruleId f) = true
                        /\ fix_ f <> None /\ suggestions f <> []) out.
Proof.
  intros H. exists (of_messages messages). split.
  { rewrite delegate_answer, H. reflexivity. }
  rewrite of_messages_kept. rewrite !map_map. split; [|split].
  - apply map_ext_in. intros msg Hm. apply filter_In in Hm.
    destruct Hm as [_ Hk]. destruct (kept_rule _ Hk) as (rule & -> & _).
    reflexivity.
  - apply map_ext. reflexivity.
  - rewrite Forall_map. apply Forall_forall. intros msg Hm.
    apply filter_In in Hm. destruct Hm as [_ Hk].
    destruct (kept_rule _ Hk) as (rule & -> & Hr). simpl.
    split; [exact Hr|]. split; [discriminate|].
    unfold or_default.
    destruct (fixSuggestions rule) as [l|] eqn:E; [|discriminate].
    exact (suggestions_are_not_empty _ E).
Qed.

Lemma delegate_reports_the_messages_of_its_plugin_witness :
  exists out,
    result (analyzeFileWithESLint
              (env_answering [parse_error; Examples.alt_text_message])
              Examples.jsx_text "App.jsx") = Returned out
    /\ map (fun f => Some (ruleId f)) out = [Some "jsx-a11y/alt-text"]
    /\ map line out = [1]
    /\ Forall (fun f => startsWith "jsx-a11y/" (ruleId f) = true
                        /\ fix_ f <> None /\ suggestions f <> []) out.
Proof.
  exact (@delegate_reports_the_messages_of_its_plugin
           (env_answering [parse_error; Examples.alt_text_message])
           Examples.jsx_text "App.jsx"
           [parse_error; Examples.alt_text_message] eq_refl).
Defined.

(** *** The tables of the delegate *)

Lemma configured_has_entries (rule : string) :
  configured rule = true -> startsWith "jsx-a11y/" rule = true ->
  has_entries rule = true.
Proof.
  unfold configured. intros H Hp. apply existsb_exists in H.
  destruct H as (r & Hin & Hr). apply String.eqb_eq in Hr. subst rule.
  revert r Hin Hp.
  apply (proj1 (Forall_forall
                  (fun r : string * string =>
                     startsWith "jsx-a11y/" (fst r) = true ->
                     has_entries (fst r) = true)
                  linterConfig_rules)).
  unfold linterConfig_rules.
  repeat (apply Forall_cons;
          [intros Hs; vm_compute in Hs; try discriminate Hs; reflexivity|]).
  apply Forall_nil.
Qed.

Lemma entry_is_configured {A} (table : list (string * A)) (rule : string) :
  forallb (fun kv => configured (fst kv)) table = true ->
  configured rule = false -> JsObject.lookup table rule = None.
Proof.
  intros Hf Hc. destruct (JsObject.lookup table rule) as [a|] eqn:E;
    [|reflexivity].
  apply lookup_in in E.
  pose proof (proj1 (forallb_forall _ _) Hf _ E) as Hk. simpl in Hk.
  congruence.
Qed.

Lemma unconfigured_has_no_entry (rule : string) :
  configured rule = false -> has_no_entry rule = true.
Proof.
  intros H. unfold has_no_entry, ruleToWCAG, fixDescriptions, fixSuggestions.
  rewrite (@entry_is_configured _ ruleToWCAG_entries rule eq_refl H).
  rewrite (@entry_is_configured _ fixDescriptions_entries rule eq_refl H).
  rewrite (@entry_is_configured _ fixSuggestions_entries rule eq_refl H).
  reflexivity.
Qed.

(** Property X14.  A finding of the delegate has criteria, its own fix and its own
    suggestions exactly when its rule is named in the configuration of the
    delegate; a finding of another rule of the plugin has no criteria and
    the two default texts. *)
Theorem delegate_findings_have_entries_iff_configured
  (env : environment) (content filePath : string) (out : list finding) :
  result (analyzeFileWithESLint env content filePath) = Returned out ->
  Forall (fun f =>
            if configured (ruleId f)
            then wcag f <> [] /\ fix_ f = fixDescriptions (ruleId f)
                 /\ Some (suggestions f) = fixSuggestions (ruleId f)
            else wcag f = [] /\ fix_ f = Some default_fix
                 /\ suggestions f = default_suggestions) out.
Proof.
  rewrite delegate_answer. intros H. injection H as <-.
  destruct (lintText env content filePath) as [results|e]; [|constructor].
  rewrite of_messages_kept, Forall_map. apply Forall_forall. intros msg Hm.
  apply filter_In in Hm. destruct Hm as [_ Hk].
  destruct (kept_rule _ Hk) as (rule & -> & Hr). simpl.
  destruct (configured rule) eqn:Hc.
  - pose proof (configured_has_entries _ Hc Hr) as He.
    unfold has_entries in He.
    destruct (ruleToWCAG rule) as [[|w ws]|]; try discriminate.
    destruct (fixDescriptions rule) as [d|]; try discriminate.
    destruct (fixSuggestions rule) as [[|s ss]|]; try discriminate.
    simpl. repeat split. discriminate.
  - pose proof (unconfigured_has_no_entry _ Hc) as He.
    unfold has_no_entry in He.
    destruct (ruleToWCAG rule); try discriminate.
    destruct (fixDescriptions rule); try discriminate.
    destruct (fixSuggestions rule); try discriminate.
    simpl. repeat split.
Qed.

Lemma delegate_findings_have_entries_iff_configured_witness :
  result (analyzeFileWithESLint
            (env_answering [Examples.alt_text_message; lang_message])
            Examples.jsx_text "App.jsx")
  = Returned (of_messages [Examples.alt_text_message; lang_message])
  /\ Forall (fun f =>
               if configured (ruleId f)
               then wcag f <> [] /\ fix_ f = fixDescriptions (ruleId f)
                    /\ Some (suggestions f) = fixSuggestions (ruleId f)
               else wcag f = [] /\ fix_ f = Some default_fix
                    /\ suggestions f = default_suggestions)
       (of_messages [Examples.alt_text_message; lang_message]).
Proof.
  split; [reflexivity|].
  apply (@delegate_findings_have_entries_iff_configured
           (env_answering [Examples.alt_text_message; lang_message])
           Examples.jsx_text "App.jsx").
  reflexivity.
Defined.

(** *** Routes *)

Lemma lower_dot (e : string) :
  toLowerCase (String "." e) = String "." (toLowerCase e).
Proof. reflexivity. Qed.

Lemma classify_of_ext (content filePath x : string) :
  ext filePath = x ->
  classify content filePath
  = if (String.eqb x ".html" || String.eqb x ".htm")%bool
    then MarkupEvaluator
    else if (String.eqb x ".css" || String.eqb x ".scss")%bool
    then StylesheetEvaluator
    else if (String.eqb x ".js" || String.eqb x ".ts")%bool
    then if (hasReactImport content || hasJSXElement content)%bool
         then TemplatingDelegate
         else ScriptEvaluator
    else TemplatingDelegate.
Proof. intros <-. reflexivity. Qed.

(** Property X15.  A file is routed by what follows the last dot of its base name,
    in any letter case, when something stands before that dot. *)
Theorem named_files_are_routed_by_their_last_extension
  (content dir base e : string) :
  directory dir -> no_slash base -> base <> EmptyString ->
  plain e -> e <> EmptyString ->
  let filePath := (dir ++ base ++ String "." e)%string in
  ext filePath = String "." (toLowerCase e)
  /\ (In (toLowerCase e) ["html"; "htm"] ->
      classify content filePath = MarkupEvaluator)
  /\ (In (toLowerCase e) ["css"; "scss"] ->
      classify content filePath = StylesheetEvaluator)
  /\ (In (toLowerCase e) ["jsx"; "tsx"] ->
      classify content filePath = TemplatingDelegate)
  /\ (~ In (toLowerCase e) ["html"; "htm"; "css"; "scss"; "js"; "ts"] ->
      classify content filePath = TemplatingDelegate).
Proof.
  intros Hdir Hbase Hb He Hne filePath.
  assert (Hx : ext filePath = String "." (toLowerCase e)).
  { unfold ext, filePath. rewrite (extname_of_name Hdir Hbase Hb He Hne).
    apply lower_dot. }
  split; [exact Hx|].
  rewrite (@classify_of_ext content filePath _ Hx).
  repeat split; simpl; intros H.
  - destruct H as [<-|[<-|[]]]; reflexivity.
  - destruct H as [<-|[<-|[]]]; reflexivity.
  - destruct H as [<-|[<-|[]]]; reflexivity.
  - repeat match goal with
           | |- context [String.eqb ?a ?b] =>
               destruct (String.eqb_spec a b) as [E|_];
               [exfalso; apply H; rewrite E; tauto|]
           end.
    reflexivity.
Qed.

Lemma named_files_are_routed_by_their_last_extension_witness :
  ext "docs/Guide.v2.HTML" = ".html"
  /\ classify "<h1>Guide</h1>" "docs/Guide.v2.HTML" = MarkupEvaluator.
Proof.
  pose proof (@named_files_are_routed_by_their_last_extension
                "<h1>Guide</h1>" "docs/" "Guide.v2" "HTML"
                (or_intror (ex_intro _ "docs" eq_refl))
                ltac:(repeat split) ltac:(discriminate)
                ltac:(repeat split) ltac:(discriminate)) as H.
  split; [exact (proj1 H)|].
  apply (proj1 (proj2 H)). simpl. auto.
Defined.

(** Property X16.  A file whose name has no dot, or whose base name starts with its
    only dot, has no extension for the dispatcher: whatever follows the dot
    and whatever the content, it is handed to the delegate. *)
Theorem files_without_extension_go_to_the_delegate
  (content filePath : string) :
  no_dot filePath
  \/ (exists dir e, directory dir /\ plain e /\ e <> EmptyString
                    /\ filePath = (dir ++ String "." e)%string) ->
  ext filePath = EmptyString
  /\ recognized filePath = false
  /\ classify content filePath = TemplatingDelegate.
Proof.
  intros H.
  assert (Hx : ext filePath = EmptyString).
  { unfold ext. destruct H as [H|(dir & e & Hdir & He & Hne & ->)].
    - rewrite (extname_without_dot _ H). reflexivity.
    - rewrite (extname_of_dot_file Hdir He Hne). reflexivity. }
  split; [exact Hx|]. split.
  - unfold recognized, has_extension. rewrite Hx. reflexivity.
  - rewrite (@classify_of_ext content filePath _ Hx). reflexivity.
Qed.

Lemma files_without_extension_go_to_the_delegate_witness :
  ext "site/.html" = EmptyString
  /\ recognized "site/.html" = false
  /\ classify "<html></html>" "site/.html" = TemplatingDelegate.
Proof.
  apply (@files_without_extension_go_to_the_delegate "<html></html>"
           "site/.html").
  right. exists "site/", "html". split.
  - right. exists "site". reflexivity.
  - split; [repeat split|]. split; [discriminate|reflexivity].
Defined.

End DelegateFacts.

(** ** The tools of the server *)

Module ToolFacts.
Import JsString JsObject Dom Hybrid Mcp Spec Catalogue McpTools Linter.
Import StringFacts DelegateFacts.
Local Open Scope list_scope.

(** *** The request handler *)

Section Handlers.
Variables Args Result : Type.
Variables check batch suggest : Args -> response Result.

Lemma unknown_tool (name : string) (args : Args) :
  ~ In name tool_names ->
  switch check batch suggest name args
  = Rejected (McpError MethodNotFound ("Unknown tool: " ++ name)%string).
Proof.
  unfold tool_names, switch. intros H.
  repeat match goal with
         | |- context [String.eqb name ?b] =>
             destruct (String.eqb_spec name b) as [E|_];
             [exfalso; apply H; rewrite E; simpl; tauto|]
         end.
  reflexivity.
Qed.

End Handlers.

(** Property X17.  Whatever the three handlers do, the request handler throws nothing
    but protocol errors: an [McpError] of a handler passes unchanged, any
    other error becomes an internal error with the prefixed message, and a
    name that is none of the three tools is a method-not-found error. *)
Theorem call_tool_throws_only_protocol_errors
  (Args Result : Type) (check batch suggest : Args -> response Result)
  (name : string) (args : Args) :
  (forall e, CallTool check batch suggest name args = Rejected e ->
             exists code message, e = McpError code message)
  /\ (forall code message,
         switch check batch suggest name args
         = Rejected (McpError code message) ->
         CallTool check batch suggest name args
         = Rejected (McpError code message))
  /\ (forall message,
         switch check batch suggest name args
         = Rejected (OtherError message) ->
         CallTool check batch suggest name args
         = Rejected (McpError InternalError
                       ("Tool execution failed: " ++ message)%string))
  /\ (~ In name tool_names ->
      CallTool check batch suggest name args
      = Rejected (McpError MethodNotFound ("Unknown tool: " ++ name)%string)).
Proof.
  unfold CallTool. repeat split.
  - intros e. destruct (switch _ _ _ _ _) as [r|[code message|message]];
      intros H; try discriminate; injection H as <-; eauto.
  - intros code message ->. reflexivity.
  - intros message ->. reflexivity.
  - intros H. rewrite unknown_tool by exact H. reflexivity.
Qed.

Lemma call_tool_throws_only_protocol_errors_witness :
  CallTool (answering (Rejected (OtherError Checks.not_iterable)))
    (answering (Responded 0)) (answering (Responded 1))
    "check_accessibility" tt
  = Rejected (McpError InternalError
                "Tool execution failed: required is not iterable")
  /\ CallTool (answering (Rejected (OtherError Checks.not_iterable)))
       (answering (Responded 0)) (answering (Responded 1)) "lint" tt
     = Rejected (McpError MethodNotFound "Unknown tool: lint").
Proof.
  pose proof (@call_tool_throws_only_protocol_errors unit Z
                (answering (Rejected (OtherError Checks.not_iterable)))
                (answering (Responded 0)) (answering (Responded 1)))
    as H.
  split.
  - apply (proj1 (proj2 (proj2 (H "check_accessibility" tt)))). reflexivity.
  - apply (proj2 (proj2 (proj2 (H "lint" tt)))). simpl.
    intros [E|[E|[E|[]]]]; discriminate E.
Defined.

(** An analysis that throws, under the request handler and in the batch
    tool: the two [catch] blocks read the message of the error. *)
Example thrown_analysis_is_reported_by_its_message :
  CallTool
    (fun a => handleCheckAccessibility (Examples.env_for Examples.ctor_dom)
                empty_disk (fst a) (snd a))
    (answering (Rejected (OtherError EmptyString)))
    (answering (Rejected (OtherError EmptyString)))
    "check_accessibility" ("page.html", Some Examples.ctor_text)
  = Rejected (McpError InternalError
                "Tool execution failed: required is not iterable")
  /\ Mcp.error (check_file (Examples.env_for Examples.ctor_dom)
                  (File "page.html" Examples.ctor_text))
     = Some "required is not iterable".
Proof. split; reflexivity. Qed.

(** *** The fix tool *)

Lemma get_inherited {A} (table : list (string * A)) (key : string) :
  get table key = Inherited ->
  existsb (String.eqb key) objectPrototypeKeys = true.
Proof.
  unfold get. destruct (lookup table key); [discriminate|].
  destruct (existsb _ _); [reflexivity|discriminate].
Qed.

Lemma fixes_have_texts (key : string) (texts : list string) :
  lookup fixes key = Some texts -> (2 <= List.length texts)%nat.
Proof.
  intros H. apply lookup_in in H.
  assert (F : Forall (fun kv : string * list string =>
                        (2 <= List.length (snd kv))%nat) fixes).
  { repeat constructor. }
  exact (proj1 (Forall_forall _ _) F _ H).
Qed.

Lemma fixes_are_not_inherited (key : string) (texts : list string) :
  lookup fixes key = Some texts ->
  existsb (String.eqb key) objectPrototypeKeys = false.
Proof.
  intros H. apply lookup_in in H.
  assert (F : Forall (fun kv : string * list string =>
                        existsb (String.eqb (fst kv)) objectPrototypeKeys
                        = false) fixes).
  { repeat constructor. }
  exact (proj1 (Forall_forall _ _) F _ H).
Qed.

(** Property X18.  The fix tool answers every request.  Its [suggestions] are an
    array of at least two texts unless the identifier is the name of a
    property of [Object.prototype]: then the lookup in the object literal
    finds that property, which is truthy, and there is no array at all. *)
Theorem suggest_fix_answers_with_texts_unless_inherited
  (violationId code : string) :
  exists o,
    handleSuggestFix violationId code = Responded o
    /\ fix_violationId o = violationId /\ fix_code o = code
    /\ (fix_suggestions o = PrototypeProperty
        <-> In violationId objectPrototypeKeys)
    /\ (forall texts, fix_suggestions o = Suggestions texts ->
                      (2 <= List.length texts)%nat)
    /\ (lookup fixes violationId = None ->
        ~ In violationId objectPrototypeKeys ->
        fix_suggestions o = Suggestions generic_suggestions).
Proof.
  unfold handleSuggestFix. eexists. split; [reflexivity|]. simpl.
  split; [reflexivity|]. split; [reflexivity|].
  assert (Hin : existsb (String.eqb violationId) objectPrototypeKeys = true
                <-> In violationId objectPrototypeKeys).
  { rewrite existsb_exists. split.
    - intros (x & Hx & E). apply String.eqb_eq in E. subst x. exact Hx.
    - intros H. exists violationId. split; [exact H|apply String.eqb_refl]. }
  unfold get. destruct (lookup fixes violationId) as [texts|] eqn:El.
  - split; [|split].
    + split; [discriminate|]. intros H. apply Hin in H.
      rewrite (fixes_are_not_inherited _ El) in H. discriminate.
    + intros l H. injection H as <-. exact (fixes_have_texts _ El).
    + discriminate.
  - destruct (existsb (String.eqb violationId) objectPrototypeKeys) eqn:Ep.
    + split; [|split].
      * split; [intros _; apply Hin; reflexivity|reflexivity].
      * discriminate.
      * intros _ H. exfalso. apply H, Hin. reflexivity.
    + split; [|split].
      * split; [discriminate|]. intros H. apply Hin in H. discriminate.
      * intros l H. injection H as <-. simpl. lia.
      * reflexivity.
Qed.

Lemma suggest_fix_answers_with_texts_unless_inherited_witness :
  exists o,
    handleSuggestFix "constructor" "<div />" = Responded o
    /\ fix_suggestions o = PrototypeProperty.
Proof.
  destruct (@suggest_fix_answers_with_texts_unless_inherited
              "constructor" "<div />")
    as (o & Ho & _ & _ & Hp & _).
  exists o. split; [exact Ho|]. apply Hp. simpl. tauto.
Defined.

Lemma not_a_fix_key (rule : string) :
  forallb (fun kv : string * list string => negb (String.eqb (fst kv) rule))
          fixes = true ->
  lookup fixes rule = None.
Proof.
  intros H. destruct (lookup fixes rule) as [texts|] eqn:E; [|reflexivity].
  apply lookup_in in E.
  pose proof (proj1 (forallb_forall _ _) H _ E) as Hk. simpl in Hk.
  rewrite String.eqb_refl in Hk. discriminate.
Qed.

Lemma startsWith_eq (p s s' : string) :
  s = s' -> startsWith p s = startsWith p s'.
Proof. intros ->. reflexivity. Qed.

Lemma plugin_rule_is_generic (rule : string) :
  startsWith "jsx-a11y/" rule = true ->
  get fixes rule = Undefined.
Proof.
  intros H. unfold get.
  assert (Hk : forall (keys : list string),
             forallb (fun k => negb (startsWith "jsx-a11y/" k)) keys = true ->
             existsb (String.eqb rule) keys = false).
  { intros keys Hf. destruct (existsb (String.eqb rule) keys) eqn:E;
      [|reflexivity].
    apply existsb_exists in E. destruct E as (k & Hin & E).
    apply String.eqb_eq in E. subst k.
    pose proof (proj1 (forallb_forall _ _) Hf _ Hin) as Hn.
    cbv beta in Hn. rewrite H in Hn. discriminate. }
  destruct (lookup fixes rule) as [texts|] eqn:E.
  - apply lookup_in in E.
    assert (F : Forall (fun kv : string * list string =>
                          startsWith "jsx-a11y/" (fst kv) = false) fixes).
    { repeat constructor. }
    pose proof (proj1 (Forall_forall _ _) F _ E) as Hn.
    cbv beta in Hn. change (fst (rule, texts)) with rule in Hn.
    rewrite H in Hn. discriminate.
  - rewrite (Hk objectPrototypeKeys eq_refl). reflexivity.
Qed.

(** Property X19.  For the rules that the analyzers report, the fix tool has one
    entry only.  Every rule of the markup evaluator other than
    [img-missing-alt], and every rule of the delegate's plugin, gets the two
    generic texts: the other six entries of the tool are for identifiers
    that neither of the two reports. *)
Theorem suggest_fix_is_generic_for_the_reported_rules
  (rule code : string) :
  (In rule (map fst all_rules) \/ startsWith "jsx-a11y/" rule = true) ->
  rule <> "img-missing-alt" ->
  handleSuggestFix rule code
  = Responded (FixOutput rule code (Suggestions generic_suggestions)).
Proof.
  intros H Hn. unfold handleSuggestFix. destruct H as [H|H].
  - revert rule H Hn.
    apply (proj1 (Forall_forall
                    (fun rule =>
                       rule <> "img-missing-alt" ->
                       Responded
                         (FixOutput rule code
                            match get fixes rule with
                            | Own texts => Suggestions texts
                            | Inherited => PrototypeProperty
                            | Undefined => Suggestions generic_suggestions
                            end)
                       = Responded
                           (FixOutput rule code
                              (Suggestions generic_suggestions)))
                    (map fst all_rules))).
    repeat (apply Forall_cons;
            [intros Hn; try reflexivity; exfalso; apply Hn; reflexivity|]).
    apply Forall_nil.
  - rewrite (plugin_rule_is_generic _ H). reflexivity.
Qed.

Lemma suggest_fix_is_generic_for_the_reported_rules_witness :
  handleSuggestFix "form-input-missing-label" "<input>"
  = Responded (FixOutput "form-input-missing-label" "<input>"
                 (Suggestions generic_suggestions))
  /\ handleSuggestFix "jsx-a11y/alt-text" "<img />"
     = Responded (FixOutput "jsx-a11y/alt-text" "<img />"
                    (Suggestions generic_suggestions)).
Proof.
  split.
  - apply (@suggest_fix_is_generic_for_the_reported_rules
             "form-input-missing-label" "<input>").
    + left. simpl. tauto.
    + discriminate.
  - apply (@suggest_fix_is_generic_for_the_reported_rules
             "jsx-a11y/alt-text" "<img />").
    + right. reflexivity.
    + discriminate.
Defined.

(** *** The single-file tool *)

(** Property X20.  An empty [content] is not analyzed as an empty file.  It is falsy,
    so the request is handled as if it had no content: the file is read
    from disk, and the request fails with an invalid-params error when the
    path does not exist.  A non-empty [content] is analyzed without any
    access to the disk. *)
Theorem empty_content_is_read_from_disk
  (env : environment) (fs : filesystem) (filePath : string) :
  handleCheckAccessibility env fs filePath (Some EmptyString)
  = handleCheckAccessibility env fs filePath None
  /\ (existsSync fs filePath = false ->
      handleCheckAccessibility env fs filePath (Some EmptyString)
      = Rejected (McpError InvalidParams
                    ("File not found: " ++ filePath)%string))
  /\ (forall text,
         existsSync fs filePath = true ->
         readFileSync fs filePath = Returned text ->
         text <> EmptyString ->
         handleCheckAccessibility env fs filePath (Some EmptyString)
         = handleCheckAccessibility env empty_disk filePath (Some text))
  /\ (forall text fs',
         text <> EmptyString ->
         handleCheckAccessibility env fs filePath (Some text)
         = handleCheckAccessibility env fs' filePath (Some text)).
Proof.
  unfold handleCheckAccessibility. simpl. repeat split.
  - intros ->. reflexivity.
  - intros text -> -> Hn. destruct text; [contradiction|]. reflexivity.
  - intros text fs' Hn. destruct text; [contradiction|]. reflexivity.
Qed.

Lemma empty_content_is_read_from_disk_witness :
  handleCheckAccessibility (Examples.env_for []) empty_disk "index.html"
    (Some EmptyString)
  = Rejected (McpError InvalidParams "File not found: index.html")
  /\ handleCheckAccessibility (Examples.env_for [])
       (disk_with "index.html" "<p>Hello</p>") "index.html"
       (Some EmptyString)
     = handleCheckAccessibility (Examples.env_for []) empty_disk
         "index.html" (Some "<p>Hello</p>").
Proof.
  split.
  - apply (proj1 (proj2 (@empty_content_is_read_from_disk
                           (Examples.env_for []) empty_disk "index.html"))).
    reflexivity.
  - apply (proj1 (proj2 (proj2 (@empty_content_is_read_from_disk
                                  (Examples.env_for [])
                                  (disk_with "index.html" "<p>Hello</p>")
                                  "index.html")))).
    + reflexivity.
    + reflexivity.
    + discriminate.
Defined.

Lemma existsb_in (x : string) (l : list string) :
  existsb (String.eqb x) l = true <-> In x l.
Proof.
  rewrite existsb_exists. split.
  - intros (y & Hy & E). apply String.eqb_eq in E. subst y. exact Hy.
  - intros H. exists x. split; [exact H|apply String.eqb_refl].
Qed.

(** [distinct] keeps the first occurrence of every string that is not in
    [seen]. *)
Lemma distinct_spec (l : list string) :
  forall seen,
    NoDup (distinct l seen)
    /\ (forall x, In x (distinct l seen) <-> In x l /\ ~ In x seen).
Proof.
  induction l as [|a l IH]; intros seen; simpl.
  - split; [constructor|]. intros x. tauto.
  - destruct (existsb (String.eqb a) seen) eqn:E.
    + apply existsb_in in E. destruct (IH seen) as [Hn Hi].
      split; [exact Hn|]. intros x. rewrite Hi. split.
      * tauto.
      * intros [[<-|H] Hs]; [contradiction|tauto].
    + assert (Ha : ~ In a seen).
      { intros H. apply existsb_in in H. congruence. }
      destruct (IH (a :: seen)) as [Hn Hi]. split.
      * constructor; [|exact Hn]. rewrite Hi. simpl. tauto.
      * intros x. simpl. rewrite Hi. simpl. split.
        -- intros [<-|[H Hs]]; [tauto|]. tauto.
        -- intros [[<-|H] Hs]; [tauto|].
           destruct (string_dec a x) as [<-|Hd]; [tauto|]. tauto.
Qed.

Lemma count_two_severities (violations : list finding) :
  count_severity "error" violations + count_severity "warning" violations
  <= Z.of_nat (List.length violations)
  /\ (Forall (fun f => severity f = "error" \/ severity f = "warning")
             violations ->
      count_severity "error" violations + count_severity "warning" violations
      = Z.of_nat (List.length violations)).
Proof.
  unfold count_severity.
  induction violations as [|f l [IH1 IH2]]; simpl; [split; [lia|auto]|].
  destruct (String.eqb_spec (severity f) "error") as [E|E];
    destruct (String.eqb_spec (severity f) "warning") as [W|W];
    simpl List.length; try (rewrite E in W; discriminate W).
  - split; [lia|]. intros H. inversion H; subst. specialize (IH2 H3). lia.
  - split; [lia|]. intros H. inversion H; subst. specialize (IH2 H3). lia.
  - split; [lia|]. intros H. inversion H; subst. tauto.
Qed.

(** Property X21.  The summary of the single-file tool.  Its criteria are the
    criteria of the findings without repetition; its errors and warnings
    never exceed the total, and add up to it when every finding is an error
    or a warning. *)
Theorem single_file_summary_counts_and_criteria
  (env : environment) (fs : filesystem) (filePath : string)
  (content : option string) (o : check_output) :
  handleCheckAccessibility env fs filePath content = Responded o ->
  let s := out_summary o in
  out_filePath o = filePath
  /\ number s "totalViolations" = Z.of_nat (List.length (out_violations o))
  /\ number s "errors" + number s "warnings" <= number s "totalViolations"
  /\ (Forall (fun f => severity f = "error" \/ severity f = "warning")
             (out_violations o) ->
      number s "errors" + number s "warnings" = number s "totalViolations")
  /\ NoDup (strings s "wcagCriteria")
  /\ (forall w, In w (strings s "wcagCriteria")
                <-> exists f, In f (out_violations o) /\ In w (wcag f)).
Proof.
  unfold handleCheckAccessibility.
  destruct (if truthy_opt content then _ else _) as [text|e];
    [|discriminate].
  destruct (result (analyzeFileHybrid env text filePath)) as [vs|e];
    [|discriminate].
  intros H. injection H as <-. simpl.
  change (number (single_summary vs) "totalViolations")
    with (Z.of_nat (List.length vs)).
  change (number (single_summary vs) "errors")
    with (count_severity "error" vs).
  change (number (single_summary vs) "warnings")
    with (count_severity "warning" vs).
  change (strings (single_summary vs) "wcagCriteria")
    with (distinct (flat_map wcag vs) []).
  destruct (count_two_severities vs) as [C1 C2].
  destruct (distinct_spec (flat_map wcag vs) []) as [Hn Hi].
  repeat split; auto.
  - intros H. apply Hi in H. destruct H as [H _].
    apply in_flat_map in H. exact H.
  - intros H. apply Hi. split; [|auto]. apply in_flat_map. exact H.
Qed.

Lemma single_file_summary_counts_and_criteria_witness :
  exists o,
    handleCheckAccessibility (Examples.env_for Examples.img_dom) empty_disk
      "index.html" (Some Examples.img_text) = Responded o
    /\ number (out_summary o) "totalViolations" = 4
    /\ number (out_summary o) "errors" = 4
    /\ strings (out_summary o) "wcagCriteria"
       = ["3.1.1"; "2.4.2"; "1.3.1"; "1.1.1"]
    /\ NoDup (strings (out_summary o) "wcagCriteria").
Proof.
  eexists. split; [reflexivity|].
  split; [reflexivity|]. split; [reflexivity|]. split; [reflexivity|].
  exact (proj1 (proj2 (proj2 (proj2 (proj2
           (@single_file_summary_counts_and_criteria
              (Examples.env_for Examples.img_dom) empty_disk "index.html"
              (Some Examples.img_text) _ eq_refl)))))).
Defined.

(** Property X22.  The file type the single-file tool reports and the evaluator the
    dispatcher selects are decided by the same extension.  The type is
    [html] exactly for the markup evaluator and [css] or [scss] exactly for
    the stylesheet evaluator; a file of type [unknown] is linted by the
    delegate like a [jsx] or [tsx] file; the types [js] and [ts] do not say
    which of the two other evaluators ran. *)
Theorem file_type_and_route (content filePath : string) :
  let type := fileType (ext filePath) in
  In type ["jsx"; "tsx"; "js"; "ts"; "html"; "css"; "scss"; "unknown"]
  /\ (type = "html" <-> classify content filePath = MarkupEvaluator)
  /\ (type = "css" \/ type = "scss"
      <-> classify content filePath = StylesheetEvaluator)
  /\ (type = "unknown" <-> recognized filePath = false)
  /\ (In type ["jsx"; "tsx"; "unknown"] ->
      classify content filePath = TemplatingDelegate)
  /\ (classify content filePath = ScriptEvaluator ->
      type = "js" \/ type = "ts").
Proof.
  intros type. subst type.
  rewrite (@classify_of_ext content filePath (ext filePath) eq_refl).
  unfold recognized, has_extension, fileType. simpl.
  generalize (ext filePath). intros x.
  destruct (String.eqb x ".jsx") eqn:E1;
    [apply String.eqb_eq in E1; subst x; simpl;
     intuition (try discriminate; auto)|].
  destruct (String.eqb x ".tsx") eqn:E2;
    [apply String.eqb_eq in E2; subst x; simpl;
     intuition (try discriminate; auto)|].
  destruct (String.eqb x ".js") eqn:E3;
    [apply String.eqb_eq in E3; subst x; simpl;
     destruct (_ || _)%bool; intuition (try discriminate; auto)|].
  destruct (String.eqb x ".ts") eqn:E4;
    [apply String.eqb_eq in E4; subst x; simpl;
     destruct (_ || _)%bool; intuition (try discriminate; auto)|].
  destruct (String.eqb x ".html") eqn:E5;
    [apply String.eqb_eq in E5; subst x; simpl;
     intuition (try discriminate; auto)|].
  destruct (String.eqb x ".htm") eqn:E6;
    [apply String.eqb_eq in E6; subst x; simpl;
     intuition (try discriminate; auto)|].
  destruct (String.eqb x ".css") eqn:E7;
    [apply String.eqb_eq in E7; subst x; simpl;
     intuition (try discriminate; auto)|].
  destruct (String.eqb x ".scss") eqn:E8;
    [apply String.eqb_eq in E8; subst x; simpl;
     intuition (try discriminate; auto)|].
  simpl. intuition (try discriminate; auto).
Qed.

Lemma file_type_and_route_witness :
  fileType (ext "src/legacy.HTM") = "html"
  /\ classify "<p>Hello</p>" "src/legacy.HTM" = MarkupEvaluator.
Proof.
  split; [reflexivity|].
  apply (proj1 (proj1 (proj2 (@file_type_and_route "<p>Hello</p>"
                                "src/legacy.HTM")))).
  reflexivity.
Defined.

(** *** The batch tool *)

Lemma sum_app (a b : list Z) : sum (a ++ b) = sum a + sum b.
Proof.
  unfold sum. rewrite fold_left_app.
  assert (H : forall l z, fold_left Z.add l z = z + fold_left Z.add l 0).
  { induction l as [|x l IH]; intros z; cbn [fold_left]; [lia|].
    rewrite IH, (IH (0 + x)). lia. }
  apply H.
Qed.

Lemma batch_numbers (env : environment) (files : list file) :
  let rs := map (check_file env) files in
  batch_number env files "filesChecked" = Z.of_nat (List.length files)
  /\ batch_number env files "filesWithViolations"
     = Z.of_nat (List.length
         (filter (fun r => 0 <? Z.of_nat (List.length (violations r))) rs))
  /\ batch_number env files "totalViolations"
     = sum (map (summary_number "totalViolations") rs)
  /\ batch_number env files "totalErrors"
     = sum (map (summary_number "errors") rs)
  /\ batch_number env files "totalWarnings"
     = sum (map (summary_number "warnings") rs).
Proof. repeat split. Qed.

(** Property X23.  The batch tool handles its files one by one.  The results of two
    lists of files put together are the results of the first followed by
    those of the second, and each of the five numbers of the summary is the
    sum of the two; a file on which the dispatcher throws adds one to the
    number of files checked and nothing to the four others. *)
Theorem batch_summary_adds_up (env : environment) (a b : list file) :
  results (handleCheckAccessibilityBatch env (a ++ b))
  = results (handleCheckAccessibilityBatch env a)
      ++ results (handleCheckAccessibilityBatch env b)
  /\ (forall key, In key batch_keys ->
         batch_number env (a ++ b) key
         = batch_number env a key + batch_number env b key)
  /\ (forall f e key,
         result (analyzeFileHybrid env (content f) (path f)) = Thrown e ->
         In key batch_keys ->
         batch_number env [f] key
         = if String.eqb key "filesChecked" then 1 else 0).
Proof.
  split; [apply map_app|]. split.
  - intros key Hk.
    destruct (batch_numbers env (a ++ b)) as (A1 & A2 & A3 & A4 & A5).
    destruct (batch_numbers env a) as (B1 & B2 & B3 & B4 & B5).
    destruct (batch_numbers env b) as (C1 & C2 & C3 & C4 & C5).
    cbv zeta in *. rewrite map_app in A2, A3, A4, A5.
    rewrite filter_app, length_app in A2. rewrite length_app in A1.
    rewrite map_app, sum_app in A3, A4, A5.
    simpl in Hk.
    destruct Hk as [<-|[<-|[<-|[<-|[<-|[]]]]]]; lia.
  - intros f e key He Hk.
    assert (Hf : check_file env f = FileResult (path f) [] None (Some e)).
    { unfold check_file. rewrite He. reflexivity. }
    destruct (batch_numbers env [f]) as (A1 & A2 & A3 & A4 & A5).
    cbv zeta in *. simpl map in *. rewrite Hf in *. simpl in Hk.
    destruct Hk as [<-|[<-|[<-|[<-|[<-|[]]]]]]; assumption.
Qed.

Lemma batch_summary_adds_up_witness :
  In "totalViolations" batch_keys
  /\ batch_number (Examples.env_for Examples.img_dom)
       (Examples.batch_files ++ Examples.batch_files) "totalViolations"
     = batch_number (Examples.env_for Examples.img_dom) Examples.batch_files
         "totalViolations"
       + batch_number (Examples.env_for Examples.img_dom)
           Examples.batch_files "totalViolations".
Proof.
  assert (K : In "totalViolations" batch_keys) by (simpl; tauto).
  split; [exact K|].
  exact (proj1 (proj2 (@batch_summary_adds_up
                         (Examples.env_for Examples.img_dom)
                         Examples.batch_files Examples.batch_files))
           "totalViolations" K).
Defined.

End ToolFacts.

(** ** Configuration *)

Module ConfigFacts.
Import JsString JsObject Config.
Local Open Scope list_scope.

Lemma property_set {V} (k : string) (v : V) (o : list (string * V))
  (k' : string) :
  property (set k v o) k'
  = if String.eqb k k' then Some v else property o k'.
Proof.
  unfold property, lookup. induction o as [|[k0 v0] o IH]; simpl.
  - destruct (String.eqb k k'); reflexivity.
  - destruct (String.eqb_spec k0 k) as [->|Hk]; simpl.
    + destruct (String.eqb k k'); reflexivity.
    + destruct (String.eqb_spec k0 k') as [->|Hk']; simpl.
      * destruct (String.eqb_spec k k') as [E|_]; [congruence|reflexivity].
      * exact IH.
Qed.

Lemma keys_set {V} (k : string) (v : V) (o : list (string * V)) (k' : string) :
  In k' (map fst (set k v o)) <-> k' = k \/ In k' (map fst o).
Proof.
  induction o as [|[k0 v0] o IH]; simpl.
  - intuition.
  - destruct (String.eqb_spec k0 k) as [->|Hk]; simpl.
    + intuition.
    + rewrite IH. intuition.
Qed.

Lemma find_append {A} (f : A -> bool) (l1 l2 : list A) :
  find f (l1 ++ l2)
  = match find f l1 with Some x => Some x | None => find f l2 end.
Proof.
  induction l1 as [|x l1 IH]; simpl; [reflexivity|].
  destruct (f x); [reflexivity|exact IH].
Qed.

(** A property of a spread: the last assignment of [b], else what [a]
    has. *)
Lemma property_spread {V} (b : list (string * V)) :
  forall a k,
    property (spread a b) k
    = match property (List.rev b) k with
      | Some v => Some v
      | None => property a k
      end.
Proof.
  unfold spread.
  induction b as [|[k0 v0] b IH]; intros a k; simpl; [reflexivity|].
  rewrite IH, property_set. unfold property, lookup. rewrite find_append.
  destruct (find _ (List.rev b)) as [[k1 v1]|]; simpl; [reflexivity|].
  destruct (String.eqb k0 k); reflexivity.
Qed.

Lemma keys_spread {V} (b : list (string * V)) :
  forall a k,
    In k (map fst (spread a b)) <-> In k (map fst a) \/ In k (map fst b).
Proof.
  unfold spread.
  induction b as [|[k0 v0] b IH]; intros a k; simpl; [intuition|].
  rewrite IH, keys_set. intuition.
Qed.

Lemma spread_nil {V} (a : list (string * V)) : spread a [] = a.
Proof. reflexivity. Qed.

(** Property X24.  What [mergeWithDefaults] keeps of the defaults.  A file without
    properties gives the defaults; whatever the file holds, the ignore list
    of the defaults stands in front of the merged one, and every rule of
    the defaults still has an entry: a file can add ignore patterns and
    override or add rules, it cannot remove any. *)
Theorem merge_keeps_the_default_patterns_and_rules
  (config : partial) (defaults : ConfigFile) :
  mergeWithDefaults nothing defaults = defaults
  /\ firstn (List.length (ignore defaults))
       (ignore (mergeWithDefaults config defaults))
     = ignore defaults
  /\ (forall k, In k (map fst (rules defaults)) ->
                In k (map fst (rules (mergeWithDefaults config defaults))))
  /\ (forall k r,
         property (or_else (p_rules config) []) k = None ->
         property (rules defaults) k = Some r ->
         property (rules (mergeWithDefaults config defaults)) k = Some r).
Proof.
  split; [|split; [|split]].
  - destruct defaults. unfold mergeWithDefaults. simpl.
    rewrite app_nil_r. destruct ldsEnforcement0. reflexivity.
  - simpl. rewrite firstn_app, Nat.sub_diag, firstn_all. simpl.
    apply app_nil_r.
  - intros k H. simpl. apply keys_spread. auto.
  - intros k r Hc Hd. simpl. rewrite property_spread.
    assert (Hr : property (List.rev (or_else (p_rules config) [])) k = None).
    { unfold property, lookup in *.
      destruct (find _ (List.rev _)) as [[k1 v1]|] eqn:E; [|reflexivity].
      apply find_some in E. destruct E as [Hin Hk]. apply in_rev in Hin.
      destruct (find _ (or_else _ _)) as [kv|] eqn:E2; [discriminate|].
      pose proof (find_none _ _ E2 _ Hin) as Hn. simpl in *. congruence. }
    rewrite Hr. exact Hd.
Qed.

Lemma merge_keeps_the_default_patterns_and_rules_witness :
  property (or_else (p_rules team_file) []) "alt-text" = None
  /\ property (rules (mergeWithDefaults team_file DEFAULT_CONFIG)) "alt-text"
     = Some (RuleConfig true "error" []).
Proof.
  split; [reflexivity|].
  apply (proj2 (proj2 (proj2 (@merge_keeps_the_default_patterns_and_rules
                                team_file DEFAULT_CONFIG))));
    reflexivity.
Defined.

(** Property X25.  Merging is not idempotent.  When a merged configuration is merged
    with the same defaults again, as happens when it was saved and is
    loaded, every property is kept but one: the ignore patterns of the
    defaults are repeated in front of the list. *)
Theorem merging_again_repeats_the_default_ignores
  (config : partial) (defaults : ConfigFile) :
  let once := mergeWithDefaults config defaults in
  let twice := mergeWithDefaults (complete once) defaults in
  ignore twice = ignore defaults ++ ignore once
  /\ List.length (ignore twice)
     = (2 * List.length (ignore defaults)
        + List.length (or_else (p_ignore config) []))%nat
  /\ schema twice = schema once
  /\ wcagLevel twice = wcagLevel once
  /\ wcagVersion twice = wcagVersion once
  /\ strictMode twice = strictMode once
  /\ ldsEnforcement twice = ldsEnforcement once
  /\ excludedRules twice = excludedRules once
  /\ failureThresholds twice = failureThresholds once
  /\ (forall k, In k (map fst (rules twice)) <-> In k (map fst (rules once))).
Proof.
  intros once twice. unfold twice, once. simpl.
  repeat split.
  - rewrite !length_app. lia.
  - destruct (p_schema config), (schema defaults); reflexivity.
  - destruct (p_ldsEnforcement config) as [e|].
    + simpl. destruct (storybookUrl e), (storybookUrl (ldsEnforcement defaults));
        reflexivity.
    + destruct (ldsEnforcement defaults) as [en url ra ae cc ttl].
      simpl. destruct url; reflexivity.
  - intros H. apply keys_spread in H. destruct H as [H|H]; [|exact H].
    apply keys_spread. auto.
  - intros H. apply keys_spread. auto.
Qed.

Lemma merging_again_repeats_the_default_ignores_witness :
  ignore (mergeWithDefaults
            (complete (mergeWithDefaults team_file DEFAULT_CONFIG))
            DEFAULT_CONFIG)
  = ignore DEFAULT_CONFIG ++ ignore DEFAULT_CONFIG ++ ["vendor/**"].
Proof.
  exact (proj1 (@merging_again_repeats_the_default_ignores team_file
                  DEFAULT_CONFIG)).
Defined.

(** Property X26.  Validation looks at four properties only.  A file that sets none
    of the level, the version, the design-system block and the thresholds
    gives a configuration that is valid whenever the defaults are. *)
Theorem files_without_the_validated_properties_stay_valid
  (validUrl : string -> bool) (config : partial) (defaults : ConfigFile) :
  p_wcagLevel config = None -> p_wcagVersion config = None ->
  p_ldsEnforcement config = None -> p_failureThresholds config = None ->
  validateConfig validUrl (mergeWithDefaults config defaults)
  = validateConfig validUrl defaults.
Proof.
  intros H1 H2 H3 H4. unfold validateConfig, mergeWithDefaults. simpl.
  rewrite H1, H2, H3, H4. reflexivity.
Qed.

Lemma files_without_the_validated_properties_stay_valid_witness :
  validateConfig (startsWith "https://")
    (mergeWithDefaults team_file DEFAULT_CONFIG)
  = (true, []).
Proof.
  rewrite (@files_without_the_validated_properties_stay_valid
             (startsWith "https://") team_file DEFAULT_CONFIG
             eq_refl eq_refl eq_refl eq_refl).
  reflexivity.
Defined.

End ConfigFacts.

(** ** The design-system integration *)

Module LdsFacts.
Import JsString JsObject Lds.
Local Open Scope list_scope.

Lemma lookup_cache_set (k : string) (v : specs) (m : list (string * specs))
  (k' : string) :
  lookup (cache_set k v m) k'
  = if String.eqb k k' then Some v else lookup m k'.
Proof.
  unfold lookup. induction m as [|[k0 v0] m IH]; simpl.
  - destruct (String.eqb k k'); reflexivity.
  - destruct (String.eqb_spec k0 k) as [->|Hk]; simpl.
    + destruct (String.eqb k k'); reflexivity.
    + destruct (String.eqb_spec k0 k') as [->|Hk']; simpl.
      * destruct (String.eqb_spec k k') as [E|_]; [congruence|reflexivity].
      * exact IH.
Qed.

Section Instance.
Variable storybookUrl : string.
Variable cacheTTL : Z.

Lemma getComponentSpecs_coherent now1 now2 today st componentName :
  coherent storybookUrl st ->
  coherent storybookUrl
    (snd (getComponentSpecs storybookUrl cacheTTL now1 now2 today st
            componentName)).
Proof.
  intros H. unfold getComponentSpecs.
  destruct (if isCacheValid cacheTTL now1 st then _ else None) as [c|];
    [exact H|].
  destruct (fetchComponentFromStorybook storybookUrl componentName)
    as [[c|]|e] eqn:E; try exact H.
  intros k v. simpl. rewrite lookup_cache_set.
  destruct (String.eqb_spec componentName k) as [<-|_]; [|apply H].
  intros Hv. injection Hv as <-. exact E.
Qed.

Lemma reachable_coherent st :
  reachable storybookUrl cacheTTL st -> coherent storybookUrl st.
Proof.
  induction 1 as [|st n1 n2 today cn _ IH|st n1 n2 today cn p _ IH|st _ IH].
  - intros k v H. discriminate.
  - apply getComponentSpecs_coherent, IH.
  - unfold validateComponentUsage.
    pose proof (@getComponentSpecs_coherent n1 n2 today st cn IH) as H.
    destruct (getComponentSpecs _ _ _ _ _ _ _) as [found st']. exact H.
  - intros k v H. discriminate.
Qed.

Lemma coherent_answer now1 now2 today st componentName :
  coherent storybookUrl st ->
  Returned (fst (getComponentSpecs storybookUrl cacheTTL now1 now2 today st
                   componentName))
  = fetchComponentFromStorybook storybookUrl componentName.
Proof.
  intros H. unfold getComponentSpecs.
  destruct (if isCacheValid cacheTTL now1 st then _ else None) as [c|] eqn:E.
  - simpl. symmetry. apply H.
    destruct (isCacheValid cacheTTL now1 st); [exact E|discriminate].
  - destruct (fetchComponentFromStorybook storybookUrl componentName)
      as [[c|]|e] eqn:Ef; try reflexivity.
    discriminate.
Qed.

End Instance.

Lemma reachable_answer
  (storybookUrl : string) (cacheTTL : Z) (st : state)
  (now1 now2 : Z) (today componentName : string) :
  reachable storybookUrl cacheTTL st ->
  fst (getComponentSpecs storybookUrl cacheTTL now1 now2 today st
         componentName)
  = match get (getMockComponents storybookUrl) componentName with
    | Own c => Some (Specification c)
    | Inherited => Some InheritedProperty
    | Undefined => None
    end.
Proof.
  intros H. apply reachable_coherent in H.
  pose proof (@coherent_answer storybookUrl cacheTTL now1 now2 today st
                componentName H) as E.
  unfold fetchComponentFromStorybook in E. injection E as E. exact E.
Qed.

Lemma lookup_entry {A} (table : list (string * A)) (key : string) (a : A) :
  lookup table key = Some a -> In (key, a) table.
Proof.
  unfold lookup.
  induction table as [|[k v] table IH]; simpl; [discriminate|].
  destruct (String.eqb k key) eqn:E.
  - apply String.eqb_eq in E. simpl. intros H. injection H as <-.
    subst k. auto.
  - auto.
Qed.

(** No component of the table has a requirement that guards the two
    issues. *)
Lemma table_is_unguarded (storybookUrl componentName : string)
  (c : LDSComponent) :
  lookup (getMockComponents storybookUrl) componentName = Some c ->
  forallb (unguarded c) (accessibilityRequirements c) = true.
Proof.
  intros H. apply lookup_entry in H.
  assert (F : Forall (fun kv : string * LDSComponent =>
                        forallb (unguarded (snd kv))
                                (accessibilityRequirements (snd kv)) = true)
                     (getMockComponents storybookUrl)).
  { repeat constructor. }
  exact (proj1 (Forall_forall _ _) F _ H).
Qed.

(** Property X27.  The cache never changes an answer.  In every state an instance
    can reach, and whatever the clock says, [getComponentSpecs] answers what
    a fresh lookup in the table of components gives, and leaves a state in
    which every cached entry is what such a lookup gives.  The component
    that [getMockComponent] builds is never answered: nothing in the guarded
    block throws. *)
Theorem cache_never_changes_the_specifications
  (storybookUrl : string) (cacheTTL : Z) (st : state)
  (now1 now2 : Z) (today componentName : string) :
  reachable storybookUrl cacheTTL st ->
  let answer := getComponentSpecs storybookUrl cacheTTL now1 now2 today st
                  componentName in
  fst answer
  = match get (getMockComponents storybookUrl) componentName with
    | Own c => Some (Specification c)
    | Inherited => Some InheritedProperty
    | Undefined => None
    end
  /\ coherent storybookUrl (snd answer)
  /\ (forall date anyName,
         fst answer
         <> Some (Specification
                    (getMockComponent storybookUrl date anyName))).
Proof.
  intros H answer. unfold answer.
  pose proof (reachable_coherent H) as Hc.
  pose proof (@coherent_answer storybookUrl cacheTTL now1 now2 today st
                componentName Hc) as E.
  unfold fetchComponentFromStorybook in E. injection E as E.
  split; [exact E|]. split.
  - apply getComponentSpecs_coherent, Hc.
  - intros date anyName Hm. rewrite E in Hm. unfold get in Hm.
    destruct (lookup (getMockComponents storybookUrl) componentName)
      as [c|] eqn:El.
    + injection Hm as ->.
      pose proof (table_is_unguarded _ _ El) as Hu. simpl in Hu.
      rewrite andb_false_r in Hu. discriminate Hu.
    + destruct (existsb _ _); discriminate Hm.
Qed.

Lemma cache_never_changes_the_specifications_witness :
  reachable storybook 3600
    (snd (getComponentSpecs storybook 3600 10 11 "2024-06-01" initial
            "Modal"))
  /\ fst (getComponentSpecs storybook 3600 20 21 "2024-06-01"
            (snd (getComponentSpecs storybook 3600 10 11 "2024-06-01"
                    initial "Modal"))
            "constructor")
     = Some InheritedProperty.
Proof.
  assert (R : reachable storybook 3600
                (snd (getComponentSpecs storybook 3600 10 11 "2024-06-01"
                        initial "Modal"))).
  { apply reach_specs, reach_initial. }
  split; [exact R|].
  exact (proj1 (@cache_never_changes_the_specifications storybook 3600 _
                  20 21 "2024-06-01" "constructor" R)).
Defined.

(** *** Validation *)

Lemma required_issues_are_not_dead (c : LDSComponent) (p : properties)
  (msg : string) :
  In msg dead_issues -> ~ In msg (fst (required_props c p)).
Proof.
  intros Hd H. unfold required_props in H. simpl in H.
  apply in_map_iff in H. destruct H as (prop & E & _).
  destruct Hd as [<-|[<-|[]]]; simpl in E; discriminate E.
Qed.

Lemma type_issues_are_not_dead (c : LDSComponent) (p : properties)
  (msg : string) :
  In msg dead_issues -> ~ In msg (flat_map (type_issue c) p).
Proof.
  intros Hd H. apply in_flat_map in H. destruct H as ([k v] & _ & H).
  unfold type_issue in H.
  destruct (find _ (props c)) as [specProp|]; [|contradiction].
  destruct (truthy (prop_type specProp)); [|contradiction].
  repeat match type of H with
         | In _ (if ?b then _ else _) => destruct b
         end;
    try contradiction;
    destruct H as [E|[]];
    destruct Hd as [<-|[<-|[]]]; simpl in E; discriminate E.
Qed.

Lemma check_requirement_unguarded (c : LDSComponent) (p : properties)
  (req : AccessibilityRequirement) :
  unguarded c req = true ->
  exists r,
    check_requirement c p req = Returned r
    /\ (forall msg, In msg dead_issues -> ~ In msg (fst r))
    /\ List.length (fst r) = List.length (snd r).
Proof.
  unfold unguarded, check_requirement. intros H.
  apply andb_prop in H. destruct H as [H1 H2].
  apply negb_true_iff in H1. apply negb_true_iff in H2.
  assert (Hnone : forall msg, In msg dead_issues -> ~ In msg (@nil string)).
  { intros msg _ []. }
  destruct (negb (testable req)); [eexists; split; [reflexivity|auto]|].
  destruct (String.eqb (criterion req) "1.3.1").
  { destruct (String.eqb (name c) "Modal"
              && (negb (truthy_val (read p "title"))
                  && negb (truthy_val (read p "aria-label"))))%bool;
      eexists; (split; [reflexivity|]); split; auto.
    intros msg Hd [<-|[]]. destruct Hd as [E|[E|[]]]; discriminate E. }
  destruct (String.eqb (criterion req) "2.1.1").
  { simpl in H2. rewrite H2. simpl.
    eexists; split; [reflexivity|auto]. }
  rewrite H1. eexists; split; [reflexivity|auto].
Qed.

Lemma requirements_unguarded (c : LDSComponent) (p : properties)
  (reqs : list AccessibilityRequirement) :
  forallb (unguarded c) reqs = true ->
  forall acc,
    (forall msg, In msg dead_issues -> ~ In msg (fst acc)) ->
    exists found,
      validateAccessibilityRequirements_from c p reqs acc = Returned found
      /\ (forall msg, In msg dead_issues -> ~ In msg (fst found)).
Proof.
  induction reqs as [|req reqs IH]; intros H acc Hacc; simpl.
  - eauto.
  - simpl in H. apply andb_prop in H. destruct H as [H1 H2].
    destruct (check_requirement_unguarded c p req H1) as (r & -> & Hr & _).
    simpl. apply IH; [exact H2|]. simpl. intros msg Hd Hin.
    apply in_app_or in Hin. destruct Hin as [Hin|Hin].
    + exact (Hacc msg Hd Hin).
    + exact (Hr msg Hd Hin).
Qed.

Lemma table_requirements (storybookUrl componentName : string)
  (c : LDSComponent) (p : properties) :
  lookup (getMockComponents storybookUrl) componentName = Some c ->
  exists found,
    validateAccessibilityRequirements c p = Returned found
    /\ (forall msg, In msg dead_issues -> ~ In msg (fst found)).
Proof.
  intros H. apply (requirements_unguarded c p _ (table_is_unguarded _ _ H)).
  intros msg _ [].
Qed.

(** Property X28.  Two branches of the requirements check can never run.  In every
    state an instance can reach, a validation returns a result, or throws
    for a name of [Object.prototype]; the result never holds the issue of
    the missing close handler nor the one of the empty label, and the call
    of [trim] never throws: no component of the table has the requirement
    that guards them ( 2.1.1 with the name Modal, and 4.1.2 ). *)
Theorem validation_never_reaches_two_checks
  (storybookUrl : string) (cacheTTL : Z) (st : state)
  (now1 now2 : Z) (today componentName : string) (p : properties) :
  reachable storybookUrl cacheTTL st ->
  match fst (validateComponentUsage storybookUrl cacheTTL now1 now2 today
               st componentName p) with
  | Returned r =>
      ~ In "Modal missing close handler" (issues r)
      /\ ~ In "Empty aria-label not recommended" (issues r)
  | Thrown e => e = no_props /\ In componentName objectPrototypeKeys
  end.
Proof.
  intros H. unfold validateComponentUsage.
  pose proof (@reachable_answer storybookUrl
                cacheTTL st now1 now2 today componentName H) as E.
  destruct (getComponentSpecs _ _ _ _ _ _ _) as [found st'].
  simpl in E. subst found. simpl. unfold get.
  destruct (lookup (getMockComponents storybookUrl) componentName)
    as [c|] eqn:El.
  - simpl.
    destruct (@table_requirements storybookUrl componentName c p El)
      as (found & -> & Hf).
    simpl.
    assert (Hall : forall msg, In msg dead_issues ->
              ~ In msg (fst (required_props c p)
                          ++ flat_map (type_issue c) p ++ fst found)).
    { intros msg Hd Hin. apply in_app_or in Hin. destruct Hin as [Hin|Hin].
      - exact (required_issues_are_not_dead c p Hd Hin).
      - apply in_app_or in Hin. destruct Hin as [Hin|Hin].
        + exact (type_issues_are_not_dead c p Hd Hin).
        + exact (Hf msg Hd Hin). }
    split; apply Hall; simpl; auto.
  - destruct (existsb (String.eqb componentName) objectPrototypeKeys) eqn:Ep;
      simpl.
    + split; [reflexivity|]. apply existsb_exists in Ep.
      destruct Ep as (x & Hx & Ex). apply String.eqb_eq in Ex. subst x.
      exact Hx.
    + split; intros [E|[]]; discriminate E.
Qed.

Lemma validation_never_reaches_two_checks_witness :
  reachable storybook 3600 initial
  /\ match fst (validateComponentUsage storybook 3600 10 11 "2024-06-01"
                  initial "Modal" modal_props) with
     | Returned r =>
         ~ In "Modal missing close handler" (issues r)
         /\ ~ In "Empty aria-label not recommended" (issues r)
     | Thrown e => e = no_props /\ In "Modal" objectPrototypeKeys
     end.
Proof.
  split; [apply reach_initial|].
  apply (@validation_never_reaches_two_checks storybook 3600 initial 10 11
           "2024-06-01" "Modal" modal_props).
  apply reach_initial.
Defined.

Lemma table_keys (storybookUrl componentName : string) (c : LDSComponent) :
  lookup (getMockComponents storybookUrl) componentName = Some c ->
  In componentName component_names.
Proof.
  intros H. apply lookup_entry in H.
  change component_names with (map fst (getMockComponents storybookUrl)).
  apply (in_map fst) in H. exact H.
Qed.

(** Property X29.  Names that are not in the table.  In every state an instance can
    reach, the validation of such a name throws when the name is one of
    [Object.prototype] ( the lookup in the table finds that property and
    the loop over its [props] fails ), and otherwise returns the not-found
    result and leaves the state as it is. *)
Theorem validation_of_names_outside_the_table
  (storybookUrl : string) (cacheTTL : Z) (st : state)
  (now1 now2 : Z) (today componentName : string) (p : properties) :
  reachable storybookUrl cacheTTL st ->
  ~ In componentName component_names ->
  validateComponentUsage storybookUrl cacheTTL now1 now2 today st
    componentName p
  = if existsb (String.eqb componentName) objectPrototypeKeys
    then (Thrown no_props,
          snd (getComponentSpecs storybookUrl cacheTTL now1 now2 today st
                 componentName))
    else (Returned (not_found componentName), st).
Proof.
  intros H Hn. unfold validateComponentUsage.
  pose proof (@reachable_answer storybookUrl
                cacheTTL st now1 now2 today componentName H) as E.
  assert (El : lookup (getMockComponents storybookUrl) componentName = None).
  { destruct (lookup _ componentName) as [c|] eqn:El; [|reflexivity].
    exfalso. exact (Hn (table_keys _ _ El)). }
  unfold get in E. rewrite El in E.
  destruct (existsb (String.eqb componentName) objectPrototypeKeys) eqn:Ep.
  - destruct (getComponentSpecs _ _ _ _ _ _ _) as [found st'].
    simpl in E. subst found. reflexivity.
  - assert (Hs : snd (getComponentSpecs storybookUrl cacheTTL now1 now2 today
                        st componentName) = st).
    { revert E. unfold getComponentSpecs.
      destruct (if isCacheValid cacheTTL now1 st then _ else None) as [c|];
        [reflexivity|].
      unfold fetchComponentFromStorybook, get. rewrite El, Ep. reflexivity. }
    destruct (getComponentSpecs _ _ _ _ _ _ _) as [found st'].
    simpl in E, Hs. subst found st'. reflexivity.
Qed.

Lemma validation_of_names_outside_the_table_witness :
  validateComponentUsage storybook 3600 10 11 "2024-06-01" initial
    "Tooltip" []
  = (Returned (not_found "Tooltip"), initial)
  /\ fst (validateComponentUsage storybook 3600 10 11 "2024-06-01" initial
            "toString" [])
     = Thrown no_props.
Proof.
  split.
  - apply (@validation_of_names_outside_the_table storybook 3600 initial
             10 11 "2024-06-01" "Tooltip" []
             (reach_initial storybook 3600)).
    simpl. intros [E|[E|[E|[E|[]]]]]; discriminate E.
  - rewrite (@validation_of_names_outside_the_table storybook 3600 initial
               10 11 "2024-06-01" "toString" []
               (reach_initial storybook 3600)).
    + reflexivity.
    + simpl. intros [E|[E|[E|[E|[]]]]]; discriminate E.
Defined.

Lemma check_requirement_lengths (c : LDSComponent) (p : properties)
  (req : AccessibilityRequirement) (r : list string * list string) :
  check_requirement c p req = Returned r ->
  List.length (fst r) = List.length (snd r).
Proof.
  unfold check_requirement.
  repeat match goal with
         | |- (if ?b then _ else _) = _ -> _ => destruct b
         | |- match ?v with _ => _ end = _ -> _ => destruct v
         end;
    intros H; try discriminate H; injection H as <-; reflexivity.
Qed.

Lemma requirements_lengths (c : LDSComponent) (p : properties)
  (reqs : list AccessibilityRequirement) :
  forall acc found,
    List.length (fst acc) = List.length (snd acc) ->
    validateAccessibilityRequirements_from c p reqs acc = Returned found ->
    List.length (fst found) = List.length (snd found).
Proof.
  induction reqs as [|req reqs IH]; intros acc found Hacc H; simpl in H.
  - injection H as <-. exact Hacc.
  - destruct (check_requirement c p req) as [r|e] eqn:E; [|discriminate H].
    simpl in H. apply (IH _ _) in H; [exact H|].
    simpl. rewrite !length_app, Hacc.
    rewrite (@check_requirement_lengths c p req r E). reflexivity.
Qed.

(** Property X30.  The shape of a validation result, for any specifications.  It
    names the component asked for, it is valid exactly when it has no
    issue, it proposes no alternative, and it has at most as many
    suggestions as issues ( a type mismatch is an issue without a
    suggestion ). *)
Theorem validation_result_shape
  (componentName : string) (found : option specs) (p : properties)
  (r : LDSValidationResult) :
  validate componentName found p = Returned r ->
  component r = componentName
  /\ alternatives r = []
  /\ (valid r = true <-> issues r = [])
  /\ (List.length (suggestions r) <= List.length (issues r))%nat.
Proof.
  unfold validate. destruct found as [[c|]|].
  - destruct (validateAccessibilityRequirements c p) as [a|e] eqn:E;
      [|discriminate].
    simpl. intros H. injection H as <-. simpl.
    split; [reflexivity|]. split; [reflexivity|]. split.
    + rewrite Nat.eqb_eq. split.
      * apply length_zero_iff_nil.
      * intros ->. reflexivity.
    + pose proof (@requirements_lengths c p (accessibilityRequirements c)
                    ([], []) a eq_refl E) as Ha.
      unfold required_props. simpl. rewrite !length_app, !length_map. lia.
  - discriminate.
  - intros H. injection H as <-. simpl.
    split; [reflexivity|]. split; [reflexivity|].
    split; [split; discriminate|lia].
Qed.

Lemma validation_result_shape_witness :
  validate "Modal"
    (fst (getComponentSpecs storybook 3600 10 11 "2024-06-01" initial
            "Modal"))
    [("title", JNum 3); ("isOpen", JBool true)]
  = Returned
      (LDSValidationResult_ "Modal" false
         [Html.qq "Missing required prop `onClose`";
          Html.qq "Prop `title` should be string, got number"]
         [Html.qq "Add required prop `onClose` with type function"] [])
  /\ (List.length
        [Html.qq "Add required prop `onClose` with type function"]
      <= List.length
           [Html.qq "Missing required prop `onClose`";
            Html.qq "Prop `title` should be string, got number"])%nat.
Proof.
  split; [reflexivity|].
  exact (proj2 (proj2 (proj2
           (@validation_result_shape "Modal"
              (fst (getComponentSpecs storybook 3600 10 11 "2024-06-01"
                      initial "Modal"))
              [("title", JNum 3); ("isOpen", JBool true)] _ eq_refl)))).
Defined.

End LdsFacts.
